(** * The universal scraper pipeline (hi.py): a shallow embedding

    The development follows the source file top to bottom:
    - [Py]      : the Python values the script manipulates (str as a list of
                  code points, parsed JSON, dicts as ordered association
                  lists, truthiness, the [in] operator);
    - [Utf8]    : [str.encode()], the strict UTF-8 codec;
    - [MD5]     : [hashlib.md5(...).hexdigest()] (RFC 1321);
    - [Clock]   : [datetime.now().isoformat()];
    - [Mongo]   : the collection behind [update_one(..., upsert=True)];
    - [Scraper] : the module-level configuration check and the methods of
                  [UniversalScraper], in a state-and-exception monad over a
                  world that scripts the external collaborators;
    - [Samples] : concrete worlds and records for the examples;
    - [Obs]     : the vocabulary of the statements (what a trace shows,
                  what a turn of the loop and a whole run are);
    - [Vocab], [Cases] : further vocabulary and sample data.
    The properties follow, grouped by what they are about. *)

From Stdlib Require Import ZArith List Bool String Ascii Lia Arith SpecFloat.
Import ListNotations.

Local Open Scope Z_scope.

(* ------------------------------------------------------------------ *)
(** ** Python values *)

Module Py.

(** A Python [str] is a sequence of code points. *)
Definition str := list Z.

Definition str_eq_dec : forall s t : str, {s = t} + {s <> t} :=
  list_eq_dec Z.eq_dec.

Definition str_eqb (s t : str) : bool :=
  if str_eq_dec s t then true else false.

(** String literals of the source, written as Rocq strings. *)
Fixpoint lit (s : string) : str :=
  match s with
  | EmptyString => []
  | String a r => Z.of_N (N_of_ascii a) :: lit r
  end.

(** Parsed JSON, as [json.loads] and [response.json()] build it. Dicts keep
    insertion order, as Python's do. *)
Unset Elimination Schemes.
Inductive value :=
| VNone
| VBool (b : bool)
| VInt (n : Z)
| VFloat (f : spec_float)
| VStr (s : str)
| VList (l : list value)
| VDict (d : list (str * value)).
Set Elimination Schemes.

Definition dict := list (str * value).

(** [bool(v)] *)
Definition truthy (v : value) : bool :=
  match v with
  | VNone => false
  | VBool b => b
  | VInt n => negb (n =? 0)
  | VFloat (S754_zero _) => false
  | VFloat _ => true
  | VStr [] => false
  | VStr _ => true
  | VList [] => false
  | VList _ => true
  | VDict [] => false
  | VDict _ => true
  end.

(** [d.get(k)], as an option. *)
Fixpoint lookup (k : str) (d : dict) : option value :=
  match d with
  | [] => None
  | (k', v) :: r => if str_eqb k' k then Some v else lookup k r
  end.

Definition has_key (k : str) (d : dict) : bool :=
  match lookup k d with Some _ => true | None => false end.

(** [d[k] = v]: an existing key keeps its place, a new one goes last. *)
Fixpoint set (k : str) (v : value) (d : dict) : dict :=
  match d with
  | [] => [(k, v)]
  | (k', v') :: r =>
      if str_eqb k' k then (k, v) :: r else (k', v') :: set k v r
  end.

(** [d.update(u)] *)
Definition update (d u : dict) : dict :=
  fold_left (fun acc kv => set (fst kv) (snd kv) acc) u d.

(** [needle in hay] on two strs: substring search. *)
Fixpoint is_prefix (p s : str) : bool :=
  match p, s with
  | [], _ => true
  | _ :: _, [] => false
  | a :: p', b :: s' => (a =? b) && is_prefix p' s'
  end.

Fixpoint is_infix (p s : str) : bool :=
  is_prefix p s ||
  match s with
  | [] => false
  | _ :: s' => is_infix p s'
  end.

(** The exceptions the script can meet. [RequestException] stands for
    [requests.exceptions.RequestException] and its subclasses and carries
    the [response] attribute (status and body text) when there is one;
    [LibraryError] is any other exception a library raises, by the name
    of its class. *)
Inductive exn :=
| ValueError (msg : str)
| TypeError
| AttributeError
| KeyError
| UnicodeEncodeError
| RequestException (cause : str) (response : option (Z * str))
| ApiError (cause : str)
| JSONDecodeError
| StoreError (cause : str)
| OSError (cause : str)
| UnicodeDecodeError
| OpenAIError (msg : str)
| InvalidName (msg : str)
| LibraryError (cls : str) (msg : str).

(** [isinstance(e, requests.exceptions.RequestException)] *)
Definition is_request_exception (e : exn) : bool :=
  match e with
  | RequestException _ _ => true
  | _ => false
  end.

Inductive outcome (A : Type) :=
| Ok (a : A)
| Raise (e : exn).
Arguments Ok {A} a.
Arguments Raise {A} e.

(** [k in v] with a str on the left. *)
Definition contains (k : str) (v : value) : outcome bool :=
  match v with
  | VDict d => Ok (has_key k d)
  | VList l =>
      Ok (existsb (fun x => match x with
                            | VStr s => str_eqb s k
                            | _ => false
                            end) l)
  | VStr s => Ok (is_infix k s)
  | _ => Raise TypeError
  end.

(** [v[k]] with a str key. *)
Definition getitem (v : value) (k : str) : outcome value :=
  match v with
  | VDict d =>
      match lookup k d with
      | Some x => Ok x
      | None => Raise KeyError
      end
  | _ => Raise TypeError
  end.

(** [v[k] = x] with a str key; only a dict accepts it. *)
Definition setitem (v : value) (k : str) (x : value) : outcome value :=
  match v with
  | VDict d => Ok (VDict (set k x d))
  | _ => Raise TypeError
  end.

(** [v.get(k, default)]; only a dict has the method. *)
Definition get (v : value) (k : str) (default : value) : outcome value :=
  match v with
  | VDict d =>
      match lookup k d with
      | Some x => Ok x
      | None => Ok default
      end
  | _ => Raise AttributeError
  end.

(** [s.strip()]: the code points for which [str.isspace] holds. *)
Definition isspace (c : Z) : bool :=
  ((9 <=? c) && (c <=? 13)) || ((28 <=? c) && (c <=? 32)) ||
  (c =? 133) || (c =? 160) || (c =? 5760) ||
  ((8192 <=? c) && (c <=? 8202)) || (c =? 8232) || (c =? 8233) ||
  (c =? 8239) || (c =? 8287) || (c =? 12288).

Fixpoint lstrip (s : str) : str :=
  match s with
  | [] => []
  | c :: r => if isspace c then lstrip r else s
  end.

Definition strip (s : str) : str := rev (lstrip (rev (lstrip s))).

(** A state-and-exception monad: effects made before an exception stay. *)
Definition M (S A : Type) : Type := S -> outcome A * S.

Definition ret {S A} (a : A) : M S A := fun s => (Ok a, s).
Definition raise {S A} (e : exn) : M S A := fun s => (Raise e, s).
Definition bind {S A B} (m : M S A) (f : A -> M S B) : M S B :=
  fun s =>
    match m s with
    | (Ok a, s') => f a s'
    | (Raise e, s') => (Raise e, s')
    end.
Definition lift {S A} (o : outcome A) : M S A := fun s => (o, s).
Definition gets {S A} (f : S -> A) : M S A := fun s => (Ok (f s), s).
Definition modify {S} (f : S -> S) : M S unit := fun s => (Ok tt, f s).

(** [try: m except C as e: h e], where [catches] is the class test. *)
Definition try_except {S A} (m : M S A) (catches : exn -> bool)
    (h : exn -> M S A) : M S A :=
  fun s =>
    match m s with
    | (Ok a, s') => (Ok a, s')
    | (Raise e, s') => if catches e then h e s' else (Raise e, s')
    end.

End Py.

Declare Scope py_scope.
Delimit Scope py_scope with py.
Notation "x <- m ;; k" := (Py.bind m (fun x => k))
  (at level 61, m at next level, right associativity) : py_scope.
Notation "m ;;; k" := (Py.bind m (fun _ => k))
  (at level 61, right associativity) : py_scope.

(* ------------------------------------------------------------------ *)
(** ** [str.encode()]: strict UTF-8 *)

Module Utf8.

(** One code point; [None] is [UnicodeEncodeError] (a lone surrogate, which
    the strict codec refuses). *)
Definition encode_cp (c : Z) : option (list Z) :=
  if c <? 0 then None
  else if c <? 0x80 then Some [c]
  else if c <? 0x800 then Some [0xC0 + c / 64; 0x80 + c mod 64]
  else if (0xD800 <=? c) && (c <=? 0xDFFF) then None
  else if c <? 0x10000 then
    Some [0xE0 + c / 4096; 0x80 + (c / 64) mod 64; 0x80 + c mod 64]
  else if c <? 0x110000 then
    Some [0xF0 + c / 262144; 0x80 + (c / 4096) mod 64;
          0x80 + (c / 64) mod 64; 0x80 + c mod 64]
  else None.

Fixpoint encode (s : Py.str) : option (list Z) :=
  match s with
  | [] => Some []
  | c :: r =>
      match encode_cp c, encode r with
      | Some b, Some br => Some (b ++ br)
      | _, _ => None
      end
  end.

(** Whether a str encodes, and whether every str in a parsed JSON value
    does, names included: what writing it as UTF-8 text asks for. *)
Definition encodes (s : Py.str) : bool :=
  match encode s with
  | Some _ => true
  | None => false
  end.

Fixpoint writable (v : Py.value) : bool :=
  match v with
  | Py.VStr s => encodes s
  | Py.VList l => forallb writable l
  | Py.VDict d =>
      forallb (fun kv => match kv with
                         | (k, x) => encodes k && writable x
                         end) d
  | _ => true
  end.

End Utf8.

(* ------------------------------------------------------------------ *)
(** ** [hashlib.md5] *)

Module MD5.

Definition w32 (x : Z) : Z := x mod 2 ^ 32.
Definition add32 (x y : Z) : Z := w32 (x + y).
Definition not32 (x : Z) : Z := Z.lxor x 0xFFFFFFFF.
Definition rotl32 (x c : Z) : Z :=
  w32 (Z.lor (Z.shiftl x c) (Z.shiftr x (32 - c))).

Definition S_table : list Z :=
  [7; 12; 17; 22; 7; 12; 17; 22; 7; 12; 17; 22; 7; 12; 17; 22;
   5;  9; 14; 20; 5;  9; 14; 20; 5;  9; 14; 20; 5;  9; 14; 20;
   4; 11; 16; 23; 4; 11; 16; 23; 4; 11; 16; 23; 4; 11; 16; 23;
   6; 10; 15; 21; 6; 10; 15; 21; 6; 10; 15; 21; 6; 10; 15; 21].

(** [floor (abs (sin (i + 1)) * 2^32)] for [i = 0 .. 63]. *)
Definition K_table : list Z :=
  [0xd76aa478; 0xe8c7b756; 0x242070db; 0xc1bdceee;
   0xf57c0faf; 0x4787c62a; 0xa8304613; 0xfd469501;
   0x698098d8; 0x8b44f7af; 0xffff5bb1; 0x895cd7be;
   0x6b901122; 0xfd987193; 0xa679438e; 0x49b40821;
   0xf61e2562; 0xc040b340; 0x265e5a51; 0xe9b6c7aa;
   0xd62f105d; 0x02441453; 0xd8a1e681; 0xe7d3fbc8;
   0x21e1cde6; 0xc33707d6; 0xf4d50d87; 0x455a14ed;
   0xa9e3e905; 0xfcefa3f8; 0x676f02d9; 0x8d2a4c8a;
   0xfffa3942; 0x8771f681; 0x6d9d6122; 0xfde5380c;
   0xa4beea44; 0x4bdecfa9; 0xf6bb4b60; 0xbebfbc70;
   0x289b7ec6; 0xeaa127fa; 0xd4ef3085; 0x04881d05;
   0xd9d4d039; 0xe6db99e5; 0x1fa27cf8; 0xc4ac5665;
   0xf4292244; 0x432aff97; 0xab9423a7; 0xfc93a039;
   0x655b59c3; 0x8f0ccc92; 0xffeff47d; 0x85845dd1;
   0x6fa87e4f; 0xfe2ce6e0; 0xa3014314; 0x4e0811a1;
   0xf7537e82; 0xbd3af235; 0x2ad7d2bb; 0xeb86d391].

(** Message padding: a 1 bit, zeros up to 56 mod 64, then the bit length as
    a 64-bit little-endian integer. *)
Fixpoint le_bytes (n : nat) (x : Z) : list Z :=
  match n with
  | O => []
  | S n' => x mod 256 :: le_bytes n' (x / 256)
  end.

Definition pad (msg : list Z) : list Z :=
  let len := Z.of_nat (List.length msg) in
  let zeros := Z.to_nat ((55 - len) mod 64) in
  msg ++ [0x80] ++ repeat 0 zeros ++ le_bytes 8 ((8 * len) mod 2 ^ 64).

Fixpoint le_word (bs : list Z) : Z :=
  match bs with
  | [] => 0
  | b :: r => b + 256 * le_word r
  end.

(** The sixteen little-endian words of one 64-byte block. *)
Fixpoint words (n : nat) (bs : list Z) : list Z :=
  match n with
  | O => []
  | S n' => le_word (firstn 4 bs) :: words n' (skipn 4 bs)
  end.

Record state := mkState { sA : Z; sB : Z; sC : Z; sD : Z }.

Definition init : state :=
  mkState 0x67452301 0xefcdab89 0x98badcfe 0x10325476.

Definition round (M : list Z) (st : state) (i : Z) : state :=
  let '(mkState A B C D) := st in
  let '(F, g) :=
    if i <? 16 then (Z.lor (Z.land B C) (Z.land (not32 B) D), i)
    else if i <? 32 then
      (Z.lor (Z.land D B) (Z.land (not32 D) C), (5 * i + 1) mod 16)
    else if i <? 48 then (Z.lxor B (Z.lxor C D), (3 * i + 5) mod 16)
    else (Z.lxor C (Z.lor B (not32 D)), (7 * i) mod 16) in
  let F' := add32 (add32 (add32 F A) (nth (Z.to_nat i) K_table 0))
                  (nth (Z.to_nat g) M 0) in
  mkState D (add32 B (rotl32 F' (nth (Z.to_nat i) S_table 0))) B C.

Definition rounds : list Z := map Z.of_nat (seq 0 64).

Definition compress (st : state) (block : list Z) : state :=
  let M := words 16 block in
  let st' := fold_left (round M) rounds st in
  mkState (add32 (sA st) (sA st')) (add32 (sB st) (sB st'))
          (add32 (sC st) (sC st')) (add32 (sD st) (sD st')).

Fixpoint blocks (n : nat) (st : state) (bs : list Z) : state :=
  match n with
  | O => st
  | S n' => blocks n' (compress st (firstn 64 bs)) (skipn 64 bs)
  end.

(** The 16-byte digest. *)
Definition digest (msg : list Z) : list Z :=
  let p := pad msg in
  let st := blocks (List.length p / 64) init p in
  le_bytes 4 (sA st) ++ le_bytes 4 (sB st) ++
  le_bytes 4 (sC st) ++ le_bytes 4 (sD st).

Definition hex_digit (d : Z) : Z :=
  if d <? 10 then 48 + d else 87 + d.

Fixpoint hex (bs : list Z) : Py.str :=
  match bs with
  | [] => []
  | b :: r => hex_digit (b / 16) :: hex_digit (b mod 16) :: hex r
  end.

Definition hexdigest (msg : list Z) : Py.str := hex (digest msg).

End MD5.


(* ------------------------------------------------------------------ *)
(** ** [datetime.now().isoformat()] *)

Module Clock.

(** A naive [datetime]. *)
Record datetime := mkDatetime {
  year : Z; month : Z; day : Z;
  hour : Z; minute : Z; second : Z; microsecond : Z }.

Definition is_leap (y : Z) : bool :=
  ((y mod 4 =? 0) && negb (y mod 100 =? 0)) || (y mod 400 =? 0).

Definition days_in_month (y m : Z) : Z :=
  if m =? 2 then (if is_leap y then 29 else 28)
  else if (m =? 4) || (m =? 6) || (m =? 9) || (m =? 11) then 30
  else 31.

Definition between (lo x hi : Z) : bool := (lo <=? x) && (x <=? hi).

(** The ranges the [datetime] constructor enforces. *)
Definition validb (d : datetime) : bool :=
  between 1 (year d) 9999 && between 1 (month d) 12 &&
  between 1 (day d) (days_in_month (year d) (month d)) &&
  between 0 (hour d) 23 && between 0 (minute d) 59 &&
  between 0 (second d) 59 && between 0 (microsecond d) 999999.

Definition valid (d : datetime) : Prop := validb d = true.

(** ["%0wd" % n] for [0 <= n < 10^w]. *)
Fixpoint dec (w : nat) (n : Z) : Py.str :=
  match w with
  | O => []
  | S w' => dec w' (n / 10) ++ [48 + n mod 10]
  end.

(** [d.isoformat()]: the microseconds are left out when zero. *)
Definition isoformat (d : datetime) : Py.str :=
  dec 4 (year d) ++ [45] ++ dec 2 (month d) ++ [45] ++ dec 2 (day d) ++
  [84] ++ dec 2 (hour d) ++ [58] ++ dec 2 (minute d) ++ [58] ++
  dec 2 (second d) ++
  (if microsecond d =? 0 then [] else [46] ++ dec 6 (microsecond d)).

(** [%Y] as the C library prints it: the year in decimal, not padded
    (four digits from the year 1000 on). *)
Definition year_digits (y : Z) : Py.str :=
  if y <? 10 then dec 1 y
  else if y <? 100 then dec 2 y
  else if y <? 1000 then dec 3 y
  else dec 4 y.

(** [d.strftime('%Y%m%d_%H%M%S')] *)
Definition strftime_compact (d : datetime) : Py.str :=
  year_digits (year d) ++ dec 2 (month d) ++ dec 2 (day d) ++ [95] ++
  dec 2 (hour d) ++ dec 2 (minute d) ++ dec 2 (second d).

(** Reading a timestamp back: [datetime.fromisoformat] on the two layouts
    [isoformat] produces. *)
Fixpoint undec (acc : Z) (s : Py.str) : option Z :=
  match s with
  | [] => Some acc
  | c :: r =>
      if between 48 c 57 then undec (10 * acc + (c - 48)) r else None
  end.

Definition field (w : nat) (s : Py.str) : option (Z * Py.str) :=
  if (List.length s <? w)%nat then None
  else match undec 0 (firstn w s) with
       | Some n => Some (n, skipn w s)
       | None => None
       end.

Definition sep (c : Z) (s : Py.str) : option Py.str :=
  match s with
  | c' :: r => if c' =? c then Some r else None
  | [] => None
  end.

Definition obind {A B} (o : option A) (f : A -> option B) : option B :=
  match o with
  | Some a => f a
  | None => None
  end.

Definition fraction (s : Py.str) : option Z :=
  match s with
  | [] => Some 0
  | c :: r =>
      if c =? 46 then
        match field 6 r with
        | Some (us, []) => Some us
        | _ => None
        end
      else None
  end.

Definition fromisoformat (s : Py.str) : option datetime :=
  obind (field 4 s) (fun '(y, s) =>
  obind (sep 45 s) (fun s =>
  obind (field 2 s) (fun '(mo, s) =>
  obind (sep 45 s) (fun s =>
  obind (field 2 s) (fun '(d, s) =>
  obind (sep 84 s) (fun s =>
  obind (field 2 s) (fun '(h, s) =>
  obind (sep 58 s) (fun s =>
  obind (field 2 s) (fun '(mi, s) =>
  obind (sep 58 s) (fun s =>
  obind (field 2 s) (fun '(se, s) =>
  obind (fraction s) (fun us =>
  let r := mkDatetime y mo d h mi se us in
  if validb r then Some r else None)))))))))))).

(** Comparison of naive datetimes: field by field, most significant
    first. *)
Definition fields (d : datetime) : list Z :=
  [year d; month d; day d; hour d; minute d; second d; microsecond d].



End Clock.

(* ------------------------------------------------------------------ *)
(** ** The document store

    A collection is the list of its documents. [update_one] is the call
    the script makes: filter [{'_id': id}], update [{'$set': data}],
    [upsert=True]. Field names are taken as atomic top-level names: the
    update language reads a dot inside a name as a path into nested
    documents, which is not modelled, so what is proved about stored
    contents is stated for records whose names are [plain]. *)

Module Mongo.

Import Py.

Definition doc := dict.
Definition collection := list doc.

Definition id_key : str := lit "_id".

(** The filter [{'_id': id}]. *)
Definition matches (id : str) (d : doc) : bool :=
  match lookup id_key d with
  | Some (VStr s) => str_eqb s id
  | _ => false
  end.

(** A name the update language takes as one top-level field. *)
Definition plain_name (k : str) : bool :=
  match k with
  | [] => false
  | c :: _ => negb (c =? 36) && negb (existsb (Z.eqb 46) k)
  end.

Definition plain (data : dict) : bool :=
  forallb (fun kv => plain_name (fst kv)) data.

(** [$set] of one field on a document whose [_id] is [id]: [_id] itself
    is immutable. *)
Definition set_field (id : str) (d : doc) (kv : str * value) : outcome doc :=
  let (k, v) := kv in
  if str_eqb k id_key then
    match v with
    | VStr s =>
        if str_eqb s id then Ok d
        else Raise (StoreError (lit "immutable field _id"))
    | _ => Raise (StoreError (lit "immutable field _id"))
    end
  else Ok (set k v d).

Fixpoint set_fields (id : str) (data : dict) (d : doc) : outcome doc :=
  match data with
  | [] => Ok d
  | kv :: r =>
      match set_field id d kv with
      | Ok d' => set_fields id r d'
      | Raise e => Raise e
      end
  end.

(** Update the first document the filter matches, if there is one. *)
Fixpoint update_first (id : str) (data : dict) (c : collection)
  : option (outcome collection) :=
  match c with
  | [] => None
  | d :: r =>
      if matches id d then
        Some (match set_fields id data d with
              | Ok d' => Ok (d' :: r)
              | Raise e => Raise e
              end)
      else
        match update_first id data r with
        | Some (Ok r') => Some (Ok (d :: r'))
        | Some (Raise e) => Some (Raise e)
        | None => None
        end
  end.

(** What the driver can encode as BSON: ints of 64 bits, strs that
    encode as UTF-8, names that do and hold no NUL. *)
Definition bson_name (k : str) : bool :=
  Utf8.encodes k && negb (existsb (Z.eqb 0) k).

Fixpoint bson_value (v : value) : bool :=
  match v with
  | VInt n => (- 2 ^ 63 <=? n) && (n <? 2 ^ 63)
  | VStr s => Utf8.encodes s
  | VList l => forallb bson_value l
  | VDict d =>
      forallb (fun kv => match kv with
                         | (k, x) => bson_name k && bson_value x
                         end) d
  | _ => true
  end.


Definition encodable (data : dict) : bool := bson_value (VDict data).

(** [collection.update_one({'_id': id}, {'$set': data}, upsert=True)]:
    the driver encodes the update, and refuses what it cannot encode,
    before anything reaches the collection. *)
Definition update_one (id : str) (data : dict) (c : collection)
  : outcome collection :=
  if encodable data then
    match update_first id data c with
    | Some r => r
    | None =>
        match set_fields id data [(id_key, VStr id)] with
        | Ok d => Ok (c ++ [d])
        | Raise e => Raise e
        end
    end
  else Raise (StoreError (lit "cannot encode object")).

(** The documents stored under [id]. *)
Definition find (id : str) (c : collection) : list doc :=
  filter (matches id) c.

(** The store's own invariant: no two documents share an [_id]. *)
Definition unique_ids (c : collection) : Prop :=
  forall id, (List.length (find id c) <= 1)%nat.

End Mongo.

(* ------------------------------------------------------------------ *)
(** ** The script *)

Module Scraper.

Import Py.
Local Open Scope py_scope.

(** *** The world outside the script

    The rendering service, the language model, the clock, the store's
    verdict on a write, the client constructors and the file system are
    scripted: the n-th call of each kind gets the n-th answer, which may
    depend on the arguments. *)

(** What [requests.post] does: it raises a [RequestException] (timeout,
    connection error, DNS), or returns a response with a status code, its
    body text and what [response.json()] makes of the body ([None] when
    the body is not JSON), or raises something else ([PostRaises]: for
    one, the [UnicodeEncodeError] of a header value outside Latin-1). *)
Inductive http_reply :=
| NetError (cause : str)
| Response (status : Z) (text : str) (json : option value)
| PostRaises (e : exn).

(** What the chat completion call followed by [json.loads] does: the call
    raises, or returns message content that parses ([Some]) or does not. *)
Inductive llm_reply :=
| LlmRaises (cause : str)
| LlmContent (parsed : option value).

(** [csv_rows] is what the csv reader makes of a file that can be read,
    [csv_error] what is raised for one that cannot (it is missing, or
    cannot be decoded, or is not csv); [dump_fault] is [open(path, 'w')]
    failing, which leaves the file alone, [write_fault] the writing
    failing once the file is open; [mongo_client] is what [MongoClient]
    raises for a connection string, if anything. *)
Record env := mkEnv {
  jina : nat -> str -> http_reply;
  llm : nat -> value -> str -> str -> llm_reply;
  clock : nat -> Clock.datetime;
  store_fault : nat -> str -> option str;
  csv_rows : str -> option (list (list str));
  dump_fault : nat -> str -> option exn;
  mongo_client : str -> option exn;
  csv_error : str -> exn;
  write_fault : nat -> str -> option exn }.

(** What [print] writes. *)
Inductive line :=
| Debug_authorization (prefix : str)
| Using_collection (name : str)
| Debug_fetching (url : str)
| Debug_headers (headers : list (str * str))
| Debug_status (code : Z)
| Debug_error_content (text : str)
| Error_fetching (url : str) (e : exn)
| Debug_full_error (text : str)
| Saved_to_mongodb (url : str)
| Error_saving (e : exn)
| Error_extracting (e : exn)
| Processing_url (url : str)
| Processing (url : str)
| Results_saved (path : str)
| Failed_to_fetch.

(** What the script does to the outside, in the order it does it. *)
Inductive event :=
| Print (l : line)
| Post (endpoint : str) (headers : list (str * str)) (url : str)
       (timeout : Z)
| Chat (content : value) (url : str) (stamp : str)
| UpdateOne (id : str) (data : dict)
| Dump (path : str) (results : list value).

(** [files] is the exports on disk: the paths that hold a whole JSON
    array, each with the array, the latest write first. A path that is
    not listed holds no export: there is no such file, or a write to it
    broke off. *)
Record state := mkState {
  posts : nat;
  chats : nat;
  ticks : nat;
  writes : nat;
  dumps : nat;
  collection : Mongo.collection;
  files : list (str * list value);
  trace : list event }.

Definition emit (e : event) : M state unit :=
  modify (fun s => mkState (posts s) (chats s) (ticks s) (writes s)
                           (dumps s) (collection s) (files s)
                           (trace s ++ [e])).

Definition print (l : line) : M state unit := emit (Print l).

(** *** Module level: configuration *)

Record config := mkConfig {
  JINA_API_KEY : str;
  OPENAI_API_KEY : option str;
  MONGODB_URI : option str }.

(** [os.getenv] *)
Fixpoint getenv (environ : list (str * str)) (k : str) : option str :=
  match environ with
  | [] => None
  | (k', v) :: r => if str_eqb k' k then Some v else getenv r k
  end.

(** The statements at the top of the file, run on import, over the
    environment as [load_dotenv()] leaves it. *)
Definition module_init (environ : list (str * str)) : outcome config :=
  match getenv environ (lit "JINA_API_KEY") with
  | Some (c :: k) =>
      Ok (mkConfig (c :: k)
                   (getenv environ (lit "OPENAI_API_KEY"))
                   (getenv environ (lit "MONGODB_URI")))
  | _ => Raise (ValueError
                  (lit "JINA_API_KEY not found in environment variables"))
  end.

(** *** [class UniversalScraper] *)

Record scraper := mkScraper { jina_headers : list (str * str) }.

Section Methods.

Variable E : env.

(** [datetime.now()] *)
Definition now : M state Clock.datetime :=
  fun s => (Ok (clock E (ticks s)),
            mkState (posts s) (chats s) (S (ticks s)) (writes s) (dumps s)
                    (collection s) (files s) (trace s)).

(** [OpenAI(api_key=k)]: without a key, and with no [OPENAI_API_KEY] in
    the environment to fall back on (the module read [k] from there), the
    constructor raises. *)
Definition openai_client (k : option str) : M state unit :=
  match k with
  | Some _ => ret tt
  | None =>
      raise (OpenAIError (lit "The api_key client option must be set"))
  end.

(** [MongoClient(uri)]: [None] means the default address; nothing is
    connected yet, so only the connection string itself can be refused. *)
Definition mongo_client_of (uri : option str) : M state unit :=
  match uri with
  | None => ret tt
  | Some u =>
      match mongo_client E u with
      | Some e => raise e
      | None => ret tt
      end
  end.

(** [client[db_name]] and [db[collection_name]] check the name. *)
Definition has_char (c : Z) (name : str) : bool := existsb (Z.eqb c) name.

Definition valid_db_name (name : str) : bool :=
  str_eqb name (lit "$external") ||
  match name with
  | [] => false
  | _ :: _ =>
      negb (existsb (fun c => has_char c name) [32; 46; 36; 47; 92; 0; 34])
  end.

Definition valid_collection_name (name : str) : bool :=
  match name with
  | [] => false
  | c :: _ =>
      negb (is_infix (lit "..") name) &&
      (negb (has_char 36 name) || is_prefix (lit "oplog.$main") name
       || is_prefix (lit "$cmd") name) &&
      negb (c =? 46) && negb (last name 0 =? 46) &&
      negb (has_char 0 name)
  end.

Definition check_name (ok : bool) (what : string) : M state unit :=
  if ok then ret tt else raise (InvalidName (lit what)).

(** [__init__] *)
Definition __init__ (cfg : config) (db_name : str)
    (collection_name : option str) : M state scraper :=
  let headers :=
    [(lit "Authorization", lit "Bearer " ++ JINA_API_KEY cfg);
     (lit "Content-Type", lit "application/json");
     (lit "Accept", lit "application/json");
     (lit "X-With-Links-Summary", lit "true");
     (lit "X-With-Images-Summary", lit "true")] in
  print (Debug_authorization
           (firstn 15 (lit "Bearer " ++ JINA_API_KEY cfg) ++ lit "...")) ;;;
  openai_client (OPENAI_API_KEY cfg) ;;;
  mongo_client_of (MONGODB_URI cfg) ;;;
  check_name (valid_db_name db_name) "database name" ;;;
  name <- match collection_name with
          | Some n => ret n
          | None =>
              t <- now ;;
              ret (lit "product_data_" ++ Clock.strftime_compact t)
          end ;;
  check_name (valid_collection_name name) "collection name" ;;;
  print (Using_collection name) ;;;
  ret (mkScraper headers).

(** [generate_document_id]: [hashlib.md5(url.encode()).hexdigest()] *)
Definition generate_document_id (url : str) : outcome str :=
  match Utf8.encode url with
  | Some bytes => Ok (MD5.hexdigest bytes)
  | None => Raise UnicodeEncodeError
  end.

(** [self.collection.update_one({'_id': doc_id}, {'$set': data},
    upsert=True)]: the call reaches the store, which refuses it (any
    driver or server error) or applies it. *)
Definition collection_update_one (doc_id : str) (data : dict)
  : M state unit :=
  emit (UpdateOne doc_id data) ;;;
  fun s =>
    let s1 := mkState (posts s) (chats s) (ticks s) (S (writes s))
                      (dumps s) (collection s) (files s) (trace s) in
    match store_fault E (writes s) doc_id with
    | Some cause => (Raise (StoreError cause), s1)
    | None =>
        match Mongo.update_one doc_id data (collection s) with
        | Ok c' => (Ok tt, mkState (posts s) (chats s) (ticks s)
                                   (S (writes s)) (dumps s) c' (files s)
                                   (trace s))
        | Raise e => (Raise e, s1)
        end
    end.

(** The body of [save_to_mongodb]'s [try]. Its state is the caller's
    record together with the world: what it does to the record before an
    exception stays done. *)
Definition on_world {A} (m : M state A) : M (value * state) A :=
  fun ds =>
    let (r, s') := m (snd ds) in (r, (fst ds, s')).

Definition on_record (f : value -> outcome value) : M (value * state) unit :=
  fun ds =>
    match f (fst ds) with
    | Ok d' => (Ok tt, (d', snd ds))
    | Raise e => (Raise e, ds)
    end.

Definition stamp (url : str) (t : Clock.datetime) (doc_id : str) : dict :=
  [(lit "source_url", VStr url);
   (lit "scrape_timestamp", VStr (Clock.isoformat t));
   (lit "_id", VStr doc_id)].

Definition save_body (url : str) : M (value * state) bool :=
  doc_id <- lift (generate_document_id url) ;;
  data <- gets fst ;;
  present <- lift (contains (lit "metadata") data) ;;
  (if present then ret tt
   else on_record (fun d => setitem d (lit "metadata") (VDict []))) ;;;
  data <- gets fst ;;
  metadata <- lift (getitem data (lit "metadata")) ;;
  match metadata with
  | VDict md =>
      t <- on_world now ;;
      on_record (fun d =>
        setitem d (lit "metadata")
                (VDict (update md (stamp url t doc_id)))) ;;;
      data <- gets fst ;;
      match data with
      | VDict fields =>
          on_world (collection_update_one doc_id fields) ;;;
          on_world (print (Saved_to_mongodb url)) ;;;
          ret true
      | _ => raise TypeError
      end
  | _ => raise AttributeError
  end.

(** [save_to_mongodb(data, url)]: the flag it returns, and the caller's
    record as the call leaves it. *)
Definition save_to_mongodb (data : value) (url : str)
  : M state (bool * value) :=
  fun s =>
    match try_except (save_body url) (fun _ => true)
            (fun e => on_world (print (Error_saving e)) ;;; ret false)
            (data, s) with
    | (Ok b, (data', s')) => (Ok (b, data'), s')
    | (Raise e, (_, s')) => (Raise e, s')
    end.

(** [requests.post('https://r.jina.ai/', headers=..., json={'url': url},
    timeout=30)] *)
Definition requests_post (self : scraper) (url : str) : M state http_reply :=
  emit (Post (lit "https://r.jina.ai/") (jina_headers self) url 30) ;;;
  fun s => (Ok (jina E (posts s) url),
            mkState (S (posts s)) (chats s) (ticks s) (writes s) (dumps s)
                    (collection s) (files s) (trace s)).

(** [bool(response)] is [response.ok]; [raise_for_status] raises for the
    statuses 400 to 599. *)
Definition is_error_status (status : Z) : bool :=
  (400 <=? status) && (status <? 600).

(** [fetch_page_content]. A body that is not JSON makes
    [response.json()] raise [requests.exceptions.JSONDecodeError], which
    is a [RequestException] (requests 2.27 and later) and so is caught
    with the others. What [requests.post] raises that is not a
    [RequestException] is not caught. *)
Definition fetch_page_content (self : scraper) (url : str) : M state value :=
  try_except
    (print (Debug_fetching url) ;;;
     print (Debug_headers (jina_headers self)) ;;;
     reply <- requests_post self url ;;
     match reply with
     | NetError cause => raise (RequestException cause None)
     | PostRaises e => raise e
     | Response status text json =>
         print (Debug_status status) ;;;
         (if negb (status =? 200) then
            print (Debug_error_content text) ;;;
            (if is_error_status status
             then raise (RequestException (lit "HTTPError")
                                          (Some (status, text)))
             else ret tt)
          else ret tt) ;;;
         match json with
         | Some v => ret v
         | None => raise (RequestException (lit "JSONDecodeError") None)
         end
     end)
    is_request_exception
    (fun e =>
       print (Error_fetching url e) ;;;
       match e with
       | RequestException _ (Some (status, text)) =>
           if negb (is_error_status status)
           then print (Debug_full_error text)
           else ret tt
       | _ => ret tt
       end ;;;
       ret VNone).

(** [extract_structured_data]: the prompt carries the content, the url and
    a fresh timestamp; whatever goes wrong gives [None]. *)
Definition extract_structured_data (content : value) (url : str)
  : M state value :=
  try_except
    (t <- now ;;
     emit (Chat content url (Clock.isoformat t)) ;;;
     reply <- (fun s => (Ok (llm E (chats s) content url (Clock.isoformat t)),
                         mkState (posts s) (S (chats s)) (ticks s) (writes s)
                                 (dumps s) (collection s) (files s)
                                 (trace s))) ;;
     match reply with
     | LlmRaises cause => raise (ApiError cause)
     | LlmContent None => raise JSONDecodeError
     | LlmContent (Some v) => ret v
     end)
    (fun _ => true)
    (fun e => print (Error_extracting e) ;;; ret VNone).

(** [save_results]: nothing is caught. [open(output_file, 'w')] fails
    and leaves the file alone, or truncates it; then
    [json.dump(..., ensure_ascii=False)] into the UTF-8 file raises
    [UnicodeEncodeError] for a str that does not encode, or the writing
    fails, and either way what the file held is lost and no whole array
    is in it. *)
Definition forget (path : str) (fs : list (str * list value))
  : list (str * list value) :=
  filter (fun f => negb (str_eqb (fst f) path)) fs.

Definition save_results (results : list value) (output_file : str)
  : M state unit :=
  emit (Dump output_file results) ;;;
  fun s =>
    let after fs := mkState (posts s) (chats s) (ticks s) (writes s)
                            (S (dumps s)) (collection s) fs (trace s) in
    match dump_fault E (dumps s) output_file with
    | Some e => (Raise e, after (files s))
    | None =>
        if forallb Utf8.writable results then
          match write_fault E (dumps s) output_file with
          | Some e => (Raise e, after (forget output_file (files s)))
          | None => (Ok tt, after ((output_file, results) :: files s))
          end
        else (Raise UnicodeEncodeError,
              after (forget output_file (files s)))
    end.

(** [page_content and 'data' in page_content] *)
Definition has_data (page_content : value) : outcome bool :=
  if truthy page_content then contains (lit "data") page_content
  else Ok false.

(** [if output_file:] on an optional path. *)
Definition path_given (output_file : option str) : option str :=
  match output_file with
  | Some (c :: p) => Some (c :: p)
  | _ => None
  end.

Definition process_single_url (self : scraper) (url : str)
    (output_file : option str) : M state unit :=
  print (Processing_url url) ;;;
  page_content <- fetch_page_content self url ;;
  ok <- lift (has_data page_content) ;;
  if ok then
    data <- lift (getitem page_content (lit "data")) ;;
    content <- lift (get data (lit "content") (VStr [])) ;;
    structured_data <- extract_structured_data content url ;;
    if truthy structured_data then
      saved <- save_to_mongodb structured_data url ;;
      match path_given output_file with
      | Some path =>
          save_results [snd saved] path ;;;
          print (Results_saved path)
      | None => ret tt
      end
    else ret tt
  else print Failed_to_fetch.

(** [read_urls_from_csv]: the first cell of every non-empty row,
    stripped; what [open] or the reader raises is not caught. *)
Definition first_cells (rows : list (list str)) : list str :=
  flat_map (fun row => match row with
                       | [] => []
                       | cell :: _ => [strip cell]
                       end) rows.

Definition read_urls_from_csv (filename : str) : M state (list str) :=
  match csv_rows E filename with
  | Some rows => ret (first_cells rows)
  | None => raise (csv_error E filename)
  end.

(** One turn of the [for] loop of [process_urls]: the records gathered so
    far go in, and come out with this URL's record appended if there is
    one. *)
Definition process_url (self : scraper) (all_results : list value)
    (url : str) : M state (list value) :=
  print (Processing url) ;;;
  page_content <- fetch_page_content self url ;;
  ok <- lift (has_data page_content) ;;
  if ok then
    data <- lift (getitem page_content (lit "data")) ;;
    content <- lift (get data (lit "content") (VStr [])) ;;
    structured_data <- extract_structured_data content url ;;
    if truthy structured_data then
      saved <- save_to_mongodb structured_data url ;;
      ret (all_results ++ [snd saved])
    else ret all_results
  else ret all_results.

Fixpoint for_urls (self : scraper) (urls : list str)
    (all_results : list value) : M state (list value) :=
  match urls with
  | [] => ret all_results
  | url :: rest =>
      all_results' <- process_url self all_results url ;;
      for_urls self rest all_results'
  end.

Definition process_urls (self : scraper) (input_csv : str)
    (output_file : option str) : M state unit :=
  urls <- read_urls_from_csv input_csv ;;
  all_results <- for_urls self urls [] ;;
  match path_given output_file with
  | Some path =>
      save_results all_results path ;;;
      print (Results_saved path)
  | None => ret tt
  end.

(** [main()] *)
Definition main (cfg : config) : M state unit :=
  t <- now ;;
  let collection_name := lit "product_data_" ++ Clock.strftime_compact t in
  scraper <- __init__ cfg (lit "web_scraper") (Some collection_name) ;;
  process_urls scraper (lit "urls.csv") (Some (lit "scraped_data.json")).

(** Running the file as a script: the module-level statements, then
    [main()]. *)
Definition script (environ : list (str * str)) : M state unit :=
  cfg <- lift (module_init environ) ;;
  main cfg.

End Methods.

Definition initial : state := mkState 0 0 0 0 0 [] [] [].

End Scraper.

(* ------------------------------------------------------------------ *)
(** ** Sample data used by the examples below *)

Module Samples.

Import Py.

(** Two 72-character ASCII texts with the same MD5 digest
    ([faad49866e9498fc1719f5289e7a0269]); they differ at position 21. *)
Definition textcoll_a : str :=
  lit "TEXTCOLLBYfGiJUETHQ4hAcKSMd5zYpgqf1YRDhkmxHkhPWptrkoyz28wnI9V0aHeAuaKnak".
Definition textcoll_b : str :=
  lit "TEXTCOLLBYfGiJUETHQ4hEcKSMd5zYpgqf1YRDhkmxHkhPWptrkoyz28wnI9V0aHeAuaKnak".

Definition url_p1 : str := lit "https://a.test/p1".
Definition url_p2 : str := lit "https://a.test/p2".
Definition url_p3 : str := lit "https://a.test/p3".

(** One page written five ways. *)
Definition variants : list str :=
  [lit "https://a.test/p1";
   lit "https://a.test/p1/";
   lit "HTTPS://A.TEST/P1";
   lit "https://a.test/p1?a=1&b=2";
   lit "https://a.test/p1?b=2&a=1"].

Definition self : Scraper.scraper :=
  Scraper.mkScraper
    [(lit "Authorization", lit "Bearer jina_secret");
     (lit "Content-Type", lit "application/json");
     (lit "Accept", lit "application/json");
     (lit "X-With-Links-Summary", lit "true");
     (lit "X-With-Images-Summary", lit "true")].

Definition urls_csv : str := lit "urls.csv".
Definition out_json : str := lit "scraped_data.json".

(** A page as the rendering service answers, and records as the language
    model answers. *)
Definition page : value :=
  VDict [(lit "code", VInt 200);
         (lit "data", VDict [(lit "title", VStr (lit "Lamp"));
                             (lit "content", VStr (lit "A brass lamp."))])].

Definition record_metadata : dict :=
  [(lit "source_url", VStr (lit "https://a.test/"));
   (lit "schema_version", VStr (lit "1.0"))].

Definition record_fields : dict :=
  [(lit "product_details", VDict [(lit "name", VStr (lit "Lamp"))]);
   (lit "classification_tags", VList [VStr (lit "brass")]);
   (lit "metadata", VDict record_metadata)].

Definition record : value := VDict record_fields.

Definition record_null_metadata : value :=
  VDict [(lit "product_details", VDict [(lit "name", VStr (lit "Lamp"))]);
         (lit "metadata", VNone)].

Definition record_old : value :=
  VDict [(lit "product_details", VDict [(lit "name", VStr (lit "Lamp"))]);
         (lit "discontinued", VBool true)].

Definition record_new : value :=
  VDict [(lit "product_details", VDict [(lit "name", VStr (lit "Lamp 2"))])].

(** A clock that advances a second per reading for a minute, then
    stands. *)
Definition clock (n : nat) : Clock.datetime :=
  Clock.mkDatetime 2024 5 17 10 30 (Z.of_nat (Nat.min n 59)) 0.

(** Everything works, for the three URLs of the file. *)
Definition env_ok : Scraper.env :=
  Scraper.mkEnv
    (fun _ _ => Scraper.Response 200 (lit "{...}") (Some page))
    (fun _ _ _ _ => Scraper.LlmContent (Some record))
    clock
    (fun _ _ => None)
    (fun _ => Some [[url_p1]; [url_p2]; [url_p3]])
    (fun _ _ => None)
    (fun _ => None)
    (fun _ => OSError (lit "No such file or directory"))
    (fun _ _ => None).

(** The fetch of the second URL times out. *)
Definition env_fetch_fails_p2 : Scraper.env :=
  Scraper.mkEnv
    (fun _ url =>
       if str_eqb url url_p2 then Scraper.NetError (lit "timed out")
       else Scraper.Response 200 (lit "{...}") (Some page))
    (fun _ _ _ _ => Scraper.LlmContent (Some record))
    clock
    (fun _ _ => None)
    (fun _ => Some [[url_p1]; [url_p2]; [url_p3]])
    (fun _ _ => None)
    (fun _ => None)
    (fun _ => OSError (lit "No such file or directory"))
    (fun _ _ => None).

(** The rendering service answers 302 with a JSON body. *)
Definition env_302 : Scraper.env :=
  Scraper.mkEnv
    (fun _ _ => Scraper.Response 302 (lit "{...}") (Some page))
    (fun _ _ _ _ => Scraper.LlmContent (Some record))
    clock
    (fun _ _ => None)
    (fun _ => Some [[url_p1]])
    (fun _ _ => None)
    (fun _ => None)
    (fun _ => OSError (lit "No such file or directory"))
    (fun _ _ => None).

(** The language model answers a record whose metadata is [null]. *)
Definition env_null_metadata : Scraper.env :=
  Scraper.mkEnv
    (fun _ _ => Scraper.Response 200 (lit "{...}") (Some page))
    (fun _ _ _ _ => Scraper.LlmContent (Some record_null_metadata))
    clock
    (fun _ _ => None)
    (fun _ => Some [[url_p1]])
    (fun _ _ => None)
    (fun _ => None)
    (fun _ => OSError (lit "No such file or directory"))
    (fun _ _ => None).

(** The same URL twice in the file; the language model answers
    [record_old] the first time and [record_new] the second. *)
Definition env_rescrape : Scraper.env :=
  Scraper.mkEnv
    (fun _ _ => Scraper.Response 200 (lit "{...}") (Some page))
    (fun k _ _ _ =>
       Scraper.LlmContent (Some (match k with
                                 | O => record_old
                                 | _ => record_new
                                 end)))
    clock
    (fun _ _ => None)
    (fun _ => Some [[url_p1]; [url_p1]])
    (fun _ _ => None)
    (fun _ => None)
    (fun _ => OSError (lit "No such file or directory"))
    (fun _ _ => None).

(** The rendering service answers 200 with ["data": null]. *)
Definition env_data_null : Scraper.env :=
  Scraper.mkEnv
    (fun _ _ => Scraper.Response 200 (lit "{...}")
                                 (Some (VDict [(lit "data", VNone)])))
    (fun _ _ _ _ => Scraper.LlmContent (Some record))
    clock
    (fun _ _ => None)
    (fun _ => Some [[url_p1]; [url_p2]])
    (fun _ _ => None)
    (fun _ => None)
    (fun _ => OSError (lit "No such file or directory"))
    (fun _ _ => None).

(** There is no [urls.csv]. *)
Definition env_no_csv : Scraper.env :=
  Scraper.mkEnv
    (fun _ _ => Scraper.Response 200 (lit "{...}") (Some page))
    (fun _ _ _ _ => Scraper.LlmContent (Some record))
    clock
    (fun _ _ => None)
    (fun _ => None)
    (fun _ _ => None)
    (fun _ => None)
    (fun _ => OSError (lit "No such file or directory"))
    (fun _ _ => None).

(** Reading a result of [save_to_mongodb]. *)
Definition record_after (r : outcome (bool * value) * Scraper.state)
  : value :=
  match fst r with
  | Ok (_, v) => v
  | Raise _ => VNone
  end.

Definition fields_of (v : value) : dict :=
  match v with
  | VDict d => d
  | _ => []
  end.

(** The process environment, with and without the keys. *)
Definition environ_full : list (str * str) :=
  [(lit "JINA_API_KEY", lit "jina_secret");
   (lit "OPENAI_API_KEY", lit "sk-secret");
   (lit "MONGODB_URI", lit "mongodb://localhost:27017")].

Definition environ_jina_only : list (str * str) :=
  [(lit "JINA_API_KEY", lit "jina_secret")].

Definition environ_no_jina : list (str * str) :=
  [(lit "OPENAI_API_KEY", lit "sk-secret");
   (lit "MONGODB_URI", lit "mongodb://localhost:27017")].

End Samples.

(* ------------------------------------------------------------------ *)
(** ** Vocabulary of the statements *)

Module Obs.

Import Py Scraper.

Definition is_byte (b : Z) : Prop := 0 <= b < 256.

(** [0-9a-f] *)
Definition is_hex_char (c : Z) : Prop := 48 <= c <= 57 \/ 97 <= c <= 102.

(** The calls to the outside in a trace: everything but the prints. *)
Definition is_post (e : event) : bool :=
  match e with Post _ _ _ _ => true | _ => false end.
Definition is_chat (e : event) : bool :=
  match e with Chat _ _ _ => true | _ => false end.
Definition is_update (e : event) : bool :=
  match e with UpdateOne _ _ => true | _ => false end.
Definition is_dump (e : event) : bool :=
  match e with Dump _ _ => true | _ => false end.
Definition is_call (e : event) : bool :=
  match e with Print _ => false | _ => true end.

Definition calls (evs : list event) : list event := filter is_call evs.

Definition count (p : event -> bool) (evs : list event) : nat :=
  List.length (filter p evs).

(** [steps s s' evs]: from [s] the script got to [s'] doing [evs]; every
    call consumed one scripted answer of its kind. *)
Record steps (s s' : state) (evs : list event) : Prop := mkSteps {
  steps_trace : trace s' = trace s ++ evs;
  steps_posts : posts s' = (posts s + count is_post evs)%nat;
  steps_chats : chats s' = (chats s + count is_chat evs)%nat;
  steps_writes : writes s' = (writes s + count is_update evs)%nat;
  steps_dumps : dumps s' = (dumps s + count is_dump evs)%nat;
  steps_ticks : (ticks s <= ticks s')%nat }.

(** What [fetch_page_content] returns for an answer of the rendering
    service. *)
Inductive fetched : http_reply -> value -> Prop :=
| fetched_net_error cause :
    fetched (NetError cause) VNone
| fetched_error_status status text json :
    is_error_status status = true ->
    fetched (Response status text json) VNone
| fetched_not_json status text :
    is_error_status status = false ->
    fetched (Response status text None) VNone
| fetched_json status text v :
    is_error_status status = false ->
    fetched (Response status text (Some v)) v
| fetched_caught e :
    is_request_exception e = true ->
    fetched (PostRaises e) VNone.

(** What [fetch_page_content] lets through: an exception of
    [requests.post] that is not a [RequestException]. *)
Definition post_escapes (reply : http_reply) : option exn :=
  match reply with
  | PostRaises e => if is_request_exception e then None else Some e
  | _ => None
  end.


(** What [extract_structured_data] returns for an answer of the language
    model. *)
Inductive extracted : llm_reply -> value -> Prop :=
| extracted_raises cause : extracted (LlmRaises cause) VNone
| extracted_unparseable : extracted (LlmContent None) VNone
| extracted_parsed v : extracted (LlmContent (Some v)) v.

(** The metadata block [save_to_mongodb] finds in a record, or makes:
    none when the record holds something else than a dict there. *)
Definition metadata_of (d : dict) : option dict :=
  match lookup (lit "metadata") d with
  | None => Some []
  | Some (VDict md) => Some md
  | Some _ => None
  end.

(** Whether [save_to_mongodb] gets as far as stamping the record: the URL
    must encode, the record must be a dict and its metadata block, if it
    has one, a dict too. *)
Definition stampable (url : str) (data : value) : bool :=
  match Utf8.encode url, data with
  | Some _, VDict d =>
      match metadata_of d with
      | Some _ => true
      | None => false
      end
  | _, _ => false
  end.

(** The record [d], its metadata block [md] stamped. *)
Definition stamped (url : str) (t : Clock.datetime) (id : str)
    (d md : dict) : dict :=
  set (lit "metadata") (VDict (update md (stamp url t id))) d.

(** The states [save_to_mongodb] ends in, from [s]: the clock read once,
    one write sent, and the collection [c]. *)
Definition after_save (s : state) (c : Mongo.collection)
    (evs : list event) : state :=
  mkState (posts s) (chats s) (S (ticks s)) (S (writes s)) (dumps s)
          c (files s) (trace s ++ evs).

Definition after_prints (s : state) (evs : list event) : state :=
  mkState (posts s) (chats s) (ticks s) (writes s) (dumps s)
          (collection s) (files s) (trace s ++ evs).

(** [page_content['data'].get('content', '')] *)
Definition content_of (page : value) : outcome value :=
  match getitem page (lit "data") with
  | Ok data => get data (lit "content") (VStr [])
  | Raise e => Raise e
  end.

Definition post_of (self : scraper) (url : str) : event :=
  Post (lit "https://r.jina.ai/") (jina_headers self) url 30.

(** One turn of the loop of [process_urls], seen from outside: from the
    state [s] and the records [acc] gathered so far, the turn for [url]
    ends in [s'] having done [evs], and hands the loop [Ok] of the records
    or the exception that ends the run. *)
Inductive turn (E : env) (self : scraper) (acc : list value) (url : str)
    (s : state) : outcome (list value) -> state -> list event -> Prop :=
| turn_no_data page s' evs :
    fetched (jina E (posts s) url) page ->
    has_data page = Ok false ->
    steps s s' evs ->
    calls evs = [post_of self url] ->
    ticks s' = ticks s ->
    collection s' = collection s ->
    files s' = files s ->
    turn E self acc url s (Ok acc) s' evs
| turn_crash page e s' evs :
    fetched (jina E (posts s) url) page ->
    has_data page = Raise e \/
    (has_data page = Ok true /\ content_of page = Raise e) ->
    steps s s' evs ->
    calls evs = [post_of self url] ->
    ticks s' = ticks s ->
    collection s' = collection s ->
    files s' = files s ->
    turn E self acc url s (Raise e) s' evs
| turn_no_record page content sd s' evs :
    fetched (jina E (posts s) url) page ->
    has_data page = Ok true ->
    content_of page = Ok content ->
    let asked := Clock.isoformat (clock E (ticks s)) in
    extracted (llm E (chats s) content url asked) sd ->
    truthy sd = false ->
    steps s s' evs ->
    calls evs = [post_of self url; Chat content url asked] ->
    ticks s' = S (ticks s) ->
    collection s' = collection s ->
    files s' = files s ->
    turn E self acc url s (Ok acc) s' evs
| turn_unstamped page content sd s' evs :
    fetched (jina E (posts s) url) page ->
    has_data page = Ok true ->
    content_of page = Ok content ->
    let asked := Clock.isoformat (clock E (ticks s)) in
    extracted (llm E (chats s) content url asked) sd ->
    truthy sd = true ->
    stampable url sd = false ->
    steps s s' evs ->
    calls evs = [post_of self url; Chat content url asked] ->
    ticks s' = S (ticks s) ->
    collection s' = collection s ->
    files s' = files s ->
    turn E self acc url s (Ok (acc ++ [sd])) s' evs
| turn_saved page content d md bytes s' evs :
    fetched (jina E (posts s) url) page ->
    has_data page = Ok true ->
    content_of page = Ok content ->
    let asked := Clock.isoformat (clock E (ticks s)) in
    extracted (llm E (chats s) content url asked) (VDict d) ->
    truthy (VDict d) = true ->
    Utf8.encode url = Some bytes ->
    metadata_of d = Some md ->
    let id := MD5.hexdigest bytes in
    let fields := stamped url (clock E (S (ticks s))) id d md in
    steps s s' evs ->
    calls evs = [post_of self url; Chat content url asked;
                 UpdateOne id fields] ->
    ticks s' = S (S (ticks s)) ->
    (store_fault E (writes s) id = None /\
     Mongo.update_one id fields (collection s) = Ok (collection s')) \/
    ((store_fault E (writes s) id <> None \/
      exists e, Mongo.update_one id fields (collection s) = Raise e) /\
     collection s' = collection s) ->
    files s' = files s ->
    turn E self acc url s (Ok (acc ++ [VDict fields])) s' evs
| turn_fetch_crash e s' evs :
    post_escapes (jina E (posts s) url) = Some e ->
    steps s s' evs ->
    calls evs = [post_of self url] ->
    ticks s' = ticks s ->
    collection s' = collection s ->
    files s' = files s ->
    turn E self acc url s (Raise e) s' evs.

(** The loop: turns in the order of the list, each from the state the one
    before left, until the list ends or a turn raises. *)
Inductive batch (E : env) (self : scraper)
  : list str -> list value -> state ->
    outcome (list value) -> state -> list event -> Prop :=
| batch_done acc s :
    batch E self [] acc s (Ok acc) s []
| batch_raise url rest acc s e s' evs :
    turn E self acc url s (Raise e) s' evs ->
    batch E self (url :: rest) acc s (Raise e) s' evs
| batch_turn url rest acc s acc' s1 evs1 r s2 evs2 :
    turn E self acc url s (Ok acc') s1 evs1 ->
    batch E self rest acc' s1 r s2 evs2 ->
    batch E self (url :: rest) acc s r s2 (evs1 ++ evs2).

(** The records the language model delivered in a stretch of trace: the
    chat calls in order, the first of them being the [k]-th of the run,
    each with the URL it was made for; only answers that parse to
    something truthy count. *)
Fixpoint extractions (E : env) (k : nat) (evs : list event)
  : list (str * value) :=
  match evs with
  | [] => []
  | Chat content url asked :: rest =>
      match llm E k content url asked with
      | LlmContent (Some v) =>
          if truthy v then (url, v) :: extractions E (S k) rest
          else extractions E (S k) rest
      | _ => extractions E (S k) rest
      end
  | _ :: rest => extractions E k rest
  end.

(** How an extracted record shows in the results: stamped if
    [save_to_mongodb] could stamp it, as it was if not. *)
Inductive exported_as : str * value -> value -> Prop :=
| exported_unstamped url v :
    stampable url v = false ->
    exported_as (url, v) v
| exported_stamped url bytes d md t :
    Utf8.encode url = Some bytes ->
    metadata_of d = Some md ->
    exported_as (url, VDict d)
                (VDict (stamped url t (MD5.hexdigest bytes) d md)).

(** [subseq l1 l2]: [l1] is [l2] with some elements left out. *)
Inductive subseq {A : Type} : list A -> list A -> Prop :=
| subseq_nil : subseq [] []
| subseq_skip x l1 l2 : subseq l1 l2 -> subseq l1 (x :: l2)
| subseq_take x l1 l2 : subseq l1 l2 -> subseq (x :: l1) (x :: l2).

(** Fetched content is present: the page is a dict whose ['data'] is a
    dict (from which [.get('content', '')] takes the text, empty if there
    is none). *)
Definition content_present (page : value) : bool :=
  match page with
  | VDict d =>
      match lookup (lit "data") d with
      | Some (VDict _) => true
      | _ => false
      end
  | _ => false
  end.

(** The calls one URL's turn can make: the fetch, then the extraction,
    then the write, in this order and stopping after any of them. *)
Inductive run_of (self : scraper) (url : str) : list event -> Prop :=
| run_fetch :
    run_of self url [post_of self url]
| run_extract content asked :
    run_of self url [post_of self url; Chat content url asked]
| run_persist content asked id fields :
    generate_document_id url = Ok id ->
    run_of self url [post_of self url; Chat content url asked;
                     UpdateOne id fields].

(** A record carries the stamp of [url]: its metadata block holds the
    URL, a timestamp and the URL's identity. *)
Definition carries_stamp (url : str) (r : value) : Prop :=
  exists fields md id t,
    r = VDict fields /\
    lookup (lit "metadata") fields = Some (VDict md) /\
    generate_document_id url = Ok id /\
    lookup (lit "source_url") md = Some (VStr url) /\
    lookup (lit "scrape_timestamp") md = Some (VStr (Clock.isoformat t)) /\
    lookup (lit "_id") md = Some (VStr id).












(** What the loop did for the URLs it got to, one after the other: for
    each a stretch of trace, which is that URL's run, and the records
    gathered for it, one for a record the language model delivered in
    that stretch and none otherwise. The chat calls are numbered on
    from [k]. *)
Inductive progress (E : env) (self : scraper)
  : nat -> list str -> list (list event) -> list (list value) -> Prop :=
| progress_nil k : progress E self k [] [] []
| progress_cons k url urls seg segs recs recss :
    run_of self url (calls seg) ->
    Forall2 exported_as (extractions E k seg) recs ->
    subseq (map fst (extractions E k seg)) [url] ->
    progress E self (k + count is_chat seg) urls segs recss ->
    progress E self k (url :: urls) (seg :: segs) (recs :: recss).

(** From [s] to [s'] no identity lost its document. *)
Definition keeps_documents (s s' : state) : Prop :=
  forall id, Mongo.find id (collection s) <> [] ->
             Mongo.find id (collection s') <> [].

End Obs.

(* ------------------------------------------------------------------ *)
(** ** Further vocabulary: headers, whitespace, code points, seconds *)

Module Vocab.

Import Py Scraper Obs.

(** [headers[k]] on the header dict of the scraper. *)
Fixpoint header (k : str) (hs : list (str * str)) : option str :=
  match hs with
  | [] => None
  | (k', v) :: r => if str_eqb k' k then Some v else header k r
  end.

(** A str made of whitespace only (the empty one included). *)
Definition blank (s : str) : bool := forallb isspace s.

(** A str that does not start with whitespace. *)
Definition starts_clean (s : str) : bool :=
  match s with
  | [] => true
  | c :: _ => negb (isspace c)
  end.

(** No whitespace at either end. *)
Definition trimmed (s : str) : Prop :=
  starts_clean s = true /\ starts_clean (rev s) = true.

(** A Unicode scalar value: a code point that is not a surrogate. *)
Definition scalar (c : Z) : bool :=
  ((0 <=? c) && (c <? 0xD800)) || ((0xE000 <=? c) && (c <? 0x110000)).

(** A datetime down to the second. *)
Definition to_second (d : Clock.datetime) : list Z :=
  [Clock.year d; Clock.month d; Clock.day d;
   Clock.hour d; Clock.minute d; Clock.second d].

(** The requests in a stretch of trace. *)
Definition requests (evs : list event) : list event := filter is_post evs.

(** The text [process_urls] hands the language model for a page whose
    ['data'] is the dict [data]: [data.get('content', '')]. *)
Definition content_or_empty (data : dict) : value :=
  match lookup (lit "content") data with
  | Some x => x
  | None => VStr []
  end.

End Vocab.

(** ** Further sample data *)

Module Cases.

Import Py.

(** A record that brings a top-level [_id] of its own. *)
Definition record_own_id : dict :=
  [(lit "_id", VStr (lit "lamp-1"));
   (lit "product_details", VDict [(lit "name", VStr (lit "Lamp"))])].

(** Two readings of the clock within the same second. *)
Definition t_early : Clock.datetime :=
  Clock.mkDatetime 2024 5 17 10 30 0 120.
Definition t_late : Clock.datetime :=
  Clock.mkDatetime 2024 5 17 10 30 0 999000.






(** The process environment with the two keys but no [MONGODB_URI]. *)
Definition environ_no_uri : list (str * str) :=
  [(lit "JINA_API_KEY", lit "jina_secret");
   (lit "OPENAI_API_KEY", lit "sk-secret")].

End Cases.

(* ================================================================== *)
(** * Properties *)

(** ** The identity generator *)

Module IdentityFacts.

Import Py Scraper Obs.

Ltac split_ifs :=
  repeat match goal with
  | H : context [if ?b then _ else _] |- _ =>
      let Hb := fresh "Hb" in destruct b eqn:Hb
  end.

Ltac cmp_to_Z :=
  repeat match goal with
  | H : (_ <? _) = true |- _ => apply Z.ltb_lt in H
  | H : (_ <? _) = false |- _ => apply Z.ltb_ge in H
  | H : (_ <=? _) = true |- _ => apply Z.leb_le in H
  | H : (_ <=? _) = false |- _ => apply Z.leb_gt in H
  | H : (_ =? _) = true |- _ => apply Z.eqb_eq in H
  | H : (_ =? _) = false |- _ => apply Z.eqb_neq in H
  | H : (_ && _) = true |- _ => apply andb_true_iff in H; destruct H
  | H : (_ && _) = false |- _ => apply andb_false_iff in H
  end.

Lemma some_inj {A} (a b : A) : Some a = Some b -> a = b.
Proof. congruence. Qed.

Lemma cons_inj {A} (a b : A) l l' : a :: l = b :: l' -> a = b /\ l = l'.
Proof. split; congruence. Qed.

Ltac uncons :=
  repeat match goal with
  | H : Some _ = Some _ |- _ => apply some_inj in H
  | H : _ :: _ = _ :: _ |- _ => apply cons_inj in H; destruct H
  end.

(** The encoding of a code point is self-delimiting: it can be read off
    the front of a byte string in one way only. *)
Lemma encode_cp_prefix_free c1 c2 b1 b2 r1 r2 :
  Utf8.encode_cp c1 = Some b1 -> Utf8.encode_cp c2 = Some b2 ->
  b1 ++ r1 = b2 ++ r2 -> c1 = c2 /\ r1 = r2.
Proof.
  unfold Utf8.encode_cp; intros H1 H2 H.
  split_ifs; try discriminate;
    uncons; subst b1 b2; cmp_to_Z; cbn [app] in H; uncons; subst;
    first [ split; [ | reflexivity ]; Z.div_mod_to_equations; lia
          | exfalso; Z.div_mod_to_equations; lia ].
Qed.

Lemma encode_cp_nonempty c b : Utf8.encode_cp c = Some b -> b <> [].
Proof.
  unfold Utf8.encode_cp. intros H. split_ifs; try discriminate;
    apply some_inj in H; subst b; discriminate.
Qed.

Lemma encode_cons c s b :
  Utf8.encode (c :: s) = Some b ->
  exists bc bs, Utf8.encode_cp c = Some bc /\ Utf8.encode s = Some bs /\
                b = bc ++ bs.
Proof.
  cbn [Utf8.encode]. destruct (Utf8.encode_cp c) as [bc|]; try discriminate.
  destruct (Utf8.encode s) as [bs|]; try discriminate.
  intros H. apply some_inj in H. eauto.
Qed.

(** [encode] is injective: distinct strs have distinct UTF-8 bytes. *)
Lemma encode_injective s1 : forall s2 b,
  Utf8.encode s1 = Some b -> Utf8.encode s2 = Some b -> s1 = s2.
Proof.
  induction s1 as [|c1 s1 IH]; intros [|c2 s2] b H1 H2.
  - reflexivity.
  - apply some_inj in H1. subst b.
    apply encode_cons in H2 as (bc & bs & Hc & _ & Hb).
    symmetry in Hb. apply app_eq_nil in Hb as [-> _].
    now apply encode_cp_nonempty in Hc.
  - apply some_inj in H2. subst b.
    apply encode_cons in H1 as (bc & bs & Hc & _ & Hb).
    symmetry in Hb. apply app_eq_nil in Hb as [-> _].
    now apply encode_cp_nonempty in Hc.
  - apply encode_cons in H1 as (b1 & r1 & Hc1 & Hr1 & ->).
    apply encode_cons in H2 as (b2 & r2 & Hc2 & Hr2 & Hb).
    destruct (encode_cp_prefix_free _ _ _ _ _ _ Hc1 Hc2 Hb) as [-> ->].
    f_equal. eapply IH; eauto.
Qed.

Lemma le_bytes_are_bytes n : forall x, Forall is_byte (MD5.le_bytes n x).
Proof.
  induction n; intros x; simpl; constructor; auto.
  unfold is_byte. apply Z.mod_pos_bound. lia.
Qed.

Lemma digest_bytes msg : Forall is_byte (MD5.digest msg).
Proof.
  unfold MD5.digest.
  generalize (MD5.blocks (List.length (MD5.pad msg) / 64) MD5.init
                         (MD5.pad msg)).
  intros st. repeat (apply Forall_app; split); apply le_bytes_are_bytes.
Qed.

Lemma le_bytes_length n : forall x, List.length (MD5.le_bytes n x) = n.
Proof. induction n; intros x; cbn [MD5.le_bytes List.length]; auto. Qed.

Lemma digest_length msg : List.length (MD5.digest msg) = 16%nat.
Proof.
  unfold MD5.digest. rewrite !length_app, !le_bytes_length. reflexivity.
Qed.

Lemma hex_digit_injective a b :
  0 <= a < 16 -> 0 <= b < 16 -> MD5.hex_digit a = MD5.hex_digit b -> a = b.
Proof.
  unfold MD5.hex_digit. intros Ha Hb.
  destruct (Z.ltb_spec a 10), (Z.ltb_spec b 10); lia.
Qed.

Lemma hex_injective l1 : forall l2,
  Forall is_byte l1 -> Forall is_byte l2 ->
  MD5.hex l1 = MD5.hex l2 -> l1 = l2.
Proof.
  induction l1 as [|a l1 IH]; intros [|b l2] F1 F2 H; cbn [MD5.hex] in H;
    try discriminate; auto.
  inversion F1; inversion F2; subst.
  apply cons_inj in H as [Hh H]. apply cons_inj in H as [Hl Hr].
  unfold is_byte in *.
  apply hex_digit_injective in Hh;
    [ | Z.div_mod_to_equations; lia | Z.div_mod_to_equations; lia ].
  apply hex_digit_injective in Hl;
    [ | Z.div_mod_to_equations; lia | Z.div_mod_to_equations; lia ].
  f_equal; [ Z.div_mod_to_equations; lia | auto ].
Qed.

Lemma hex_length l : List.length (MD5.hex l) = (2 * List.length l)%nat.
Proof.
  induction l; cbn [MD5.hex List.length]; auto. rewrite IHl. lia.
Qed.

Lemma hex_chars l : Forall is_byte l -> Forall is_hex_char (MD5.hex l).
Proof.
  induction 1 as [|b l Hb _ IH]; cbn [MD5.hex]; auto.
  unfold is_byte in Hb.
  assert (Hd : forall d, 0 <= d < 16 -> is_hex_char (MD5.hex_digit d)).
  { intros d Hd. unfold is_hex_char, MD5.hex_digit.
    destruct (Z.ltb_spec d 10); lia. }
  constructor; [ | constructor; [ | exact IH ] ];
    apply Hd; Z.div_mod_to_equations; lia.
Qed.

Example md5_empty :
  MD5.hexdigest [] = lit "d41d8cd98f00b204e9800998ecf8427e".
Proof. vm_compute. reflexivity. Qed.

Example md5_abc :
  generate_document_id (lit "abc")
  = Ok (lit "900150983cd24fb0d6963f7d28e17f72").
Proof. vm_compute. reflexivity. Qed.

Example md5_fox :
  generate_document_id (lit "The quick brown fox jumps over the lazy dog")
  = Ok (lit "9e107d9d372bb6826bd81d3542a419d6").
Proof. vm_compute. reflexivity. Qed.

(** U+00E9 and U+20AC take two and three bytes. *)
Example encode_non_ascii :
  Utf8.encode [0xE9; 0x20AC] = Some [0xC3; 0xA9; 0xE2; 0x82; 0xAC].
Proof. reflexivity. Qed.

Example encode_lone_surrogate :
  generate_document_id [0xD800] = Raise UnicodeEncodeError.
Proof. reflexivity. Qed.

(** C1, as stated, fails: the identity generator is not injective. The two
    distinct texts of [Samples] get the same identity. *)
Lemma identity_collision :
  Samples.textcoll_a <> Samples.textcoll_b /\
  generate_document_id Samples.textcoll_a
  = generate_document_id Samples.textcoll_b.
Proof.
  split.
  - vm_compute. discriminate.
  - vm_compute. reflexivity.
Qed.

(** C1, amended. For URLs [u1], [u2] that encode to the bytes [b1], [b2]:
    the identity of [u1] is the hex form of the MD5 digest of [b1], 32
    characters out of [0-9a-f]; the URL is hashed as it is, so distinct
    URLs are hashed over distinct bytes and two identities are equal
    exactly when the two digests are; and the five spellings of one page
    in [Samples.variants] get five different identities. *)
Theorem identity_is_md5_of_exact_url (u1 u2 : str) (b1 b2 : list Z) :
  Utf8.encode u1 = Some b1 ->
  Utf8.encode u2 = Some b2 ->
  generate_document_id u1 = Ok (MD5.hex (MD5.digest b1)) /\
  List.length (MD5.hexdigest b1) = 32%nat /\
  Forall is_hex_char (MD5.hexdigest b1) /\
  (u1 <> u2 -> b1 <> b2) /\
  (generate_document_id u1 = generate_document_id u2
   <-> MD5.digest b1 = MD5.digest b2) /\
  NoDup (map generate_document_id Samples.variants).
Proof.
  intros E1 E2. unfold generate_document_id, MD5.hexdigest.
  rewrite E1, E2.
  split; [ reflexivity | ].
  split; [ rewrite hex_length, digest_length; reflexivity | ].
  split; [ | split; [ | split; [ split | ] ] ].
  - apply hex_chars, digest_bytes.
  - intros Hne Heq. subst b2. apply Hne.
    eapply encode_injective; eauto.
  - intros H. apply hex_injective; auto using digest_bytes. congruence.
  - intros ->. reflexivity.
  - vm_compute.
    repeat (constructor; [ cbn [In]; intuition discriminate | ]).
    constructor.
Qed.

Lemma identity_is_md5_of_exact_url_witness :
  Utf8.encode Samples.url_p1 = Some Samples.url_p1 /\
  Utf8.encode Samples.url_p2 = Some Samples.url_p2 /\
  (generate_document_id Samples.url_p1 = generate_document_id Samples.url_p2
   <-> MD5.digest Samples.url_p1 = MD5.digest Samples.url_p2).
Proof.
  split; [ reflexivity | split; [ reflexivity | ] ].
  apply (identity_is_md5_of_exact_url
           Samples.url_p1 Samples.url_p2 Samples.url_p1 Samples.url_p2);
    reflexivity.
Defined.

End IdentityFacts.

(** ** Dicts *)

Module DictFacts.

Import Py.

Lemma str_eqb_eq s t : str_eqb s t = true <-> s = t.
Proof. unfold str_eqb. destruct (str_eq_dec s t); split; congruence. Qed.

Lemma str_eqb_refl s : str_eqb s s = true.
Proof. now apply str_eqb_eq. Qed.

Lemma str_eqb_neq s t : str_eqb s t = false <-> s <> t.
Proof. unfold str_eqb. destruct (str_eq_dec s t); split; congruence. Qed.

Lemma lookup_set_same k v d : lookup k (set k v d) = Some v.
Proof.
  induction d as [|[k' v'] d IH]; cbn [set lookup].
  - now rewrite str_eqb_refl.
  - destruct (str_eqb k' k) eqn:Ek; cbn [lookup].
    + now rewrite str_eqb_refl.
    + now rewrite Ek.
Qed.

Lemma lookup_set_other k k' v d :
  k <> k' -> lookup k' (set k v d) = lookup k' d.
Proof.
  intros Hne. induction d as [|[k0 v0] d IH]; cbn [set lookup].
  - apply str_eqb_neq in Hne. now rewrite Hne.
  - destruct (str_eqb k0 k) eqn:Ek; cbn [lookup].
    + apply str_eqb_eq in Ek. subst k0.
      apply str_eqb_neq in Hne. now rewrite Hne.
    + now rewrite IH.
Qed.

Lemma set_set k v v' d : set k v' (set k v d) = set k v' d.
Proof.
  induction d as [|[k0 v0] d IH]; cbn [set].
  - now rewrite str_eqb_refl.
  - destruct (str_eqb k0 k) eqn:Ek; cbn [set].
    + now rewrite str_eqb_refl.
    + now rewrite Ek, IH.
Qed.

(** Assigning to a key that is there keeps every key where it was. *)
Lemma keys_set_present k v d :
  lookup k d <> None -> map fst (set k v d) = map fst d.
Proof.
  induction d as [|[k0 v0] d IH]; cbn [set lookup map fst].
  - congruence.
  - destruct (str_eqb k0 k) eqn:Ek; cbn [map fst].
    + apply str_eqb_eq in Ek. now subst.
    + intros H. now rewrite IH.
Qed.

(** Assigning to a new key adds it at the end. *)
Lemma set_absent k v d : lookup k d = None -> set k v d = d ++ [(k, v)].
Proof.
  induction d as [|[k0 v0] d IH]; cbn [set lookup app]; auto.
  destruct (str_eqb k0 k); [ discriminate | ].
  intros H. now rewrite IH.
Qed.

Lemma lookup_update_other k d u :
  ~ In k (map fst u) -> lookup k (update d u) = lookup k d.
Proof.
  unfold update. revert d.
  induction u as [|[k0 v0] u IH]; intros d Hn; cbn [fold_left fst snd]; auto.
  rewrite IH.
  - apply lookup_set_other. intros ->. apply Hn. now left.
  - intros H. apply Hn. now right.
Qed.

Lemma lookup_update_last k v d u :
  lookup k (update d (u ++ [(k, v)])) = Some v.
Proof.
  unfold update. rewrite fold_left_app. cbn [fold_left fst snd].
  apply lookup_set_same.
Qed.

End DictFacts.

(** ** Timestamps *)

Module ClockFacts.

Import Clock.

Lemma dec_length w : forall n, List.length (dec w n) = w.
Proof.
  induction w as [|w IH]; intros n; cbn [dec List.length]; auto.
  rewrite length_app, IH. cbn [List.length]. lia.
Qed.

Lemma undec_app s : forall acc c,
  undec acc (s ++ [c])
  = match undec acc s with
    | Some a => if between 48 c 57 then Some (10 * a + (c - 48)) else None
    | None => None
    end.
Proof.
  induction s as [|x s IH]; intros acc c; cbn [app undec].
  - destruct (between 48 c 57); reflexivity.
  - destruct (between 48 x 57); [ apply IH | reflexivity ].
Qed.

(** Reading back what [dec] wrote. *)
Lemma undec_dec w : forall n acc,
  0 <= n < 10 ^ Z.of_nat w ->
  undec acc (dec w n) = Some (acc * 10 ^ Z.of_nat w + n).
Proof.
  induction w as [|w IH]; intros n acc Hn.
  - cbn [dec undec]. change (10 ^ Z.of_nat 0) with 1 in *. f_equal. lia.
  - cbn [dec]. rewrite undec_app.
    assert (Hp : 10 ^ Z.of_nat (S w) = 10 * 10 ^ Z.of_nat w)
      by (rewrite Nat2Z.inj_succ, Z.pow_succ_r; lia).
    rewrite Hp in *.
    assert (Hq : 0 <= n / 10 < 10 ^ Z.of_nat w)
      by (split; [ apply Z.div_pos; lia
                 | apply Z.div_lt_upper_bound; lia ]).
    rewrite (IH _ _ Hq).
    assert (Hm : 0 <= n mod 10 < 10) by (apply Z.mod_pos_bound; lia).
    unfold between.
    replace (48 <=? 48 + n mod 10) with true
      by (symmetry; apply Z.leb_le; lia).
    replace (48 + n mod 10 <=? 57) with true
      by (symmetry; apply Z.leb_le; lia).
    cbn [andb]. f_equal.
    pose proof (Z.div_mod n 10 ltac:(lia)). lia.
Qed.


Lemma days_in_month_le y m : days_in_month y m <= 31.
Proof.
  unfold days_in_month.
  destruct (m =? 2); [ destruct (is_leap y); lia | ].
  destruct ((m =? 4) || (m =? 6) || (m =? 9) || (m =? 11)); lia.
Qed.

Lemma between_spec lo x hi : between lo x hi = true <-> lo <= x <= hi.
Proof.
  unfold between. rewrite andb_true_iff, !Z.leb_le. tauto.
Qed.






Example isoformat_sample :
  isoformat (mkDatetime 2024 5 17 9 3 7 120)
  = Py.lit "2024-05-17T09:03:07.000120".
Proof. reflexivity. Qed.

Example isoformat_whole_second :
  isoformat (mkDatetime 2024 5 17 9 3 7 0) = Py.lit "2024-05-17T09:03:07".
Proof. reflexivity. Qed.

Example fromisoformat_rejects :
  fromisoformat (Py.lit "2024-02-30T09:03:07") = None.
Proof. reflexivity. Qed.

End ClockFacts.

(** ** The methods, one by one *)

Module MethodFacts.

Import Py Scraper Obs.
Local Open Scope py_scope.

Arguments MD5.hexdigest : simpl never.
Arguments MD5.digest : simpl never.
Arguments Clock.isoformat : simpl never.
Arguments lit : simpl never.

Ltac count_calc :=
  unfold count;
  cbn [filter is_post is_chat is_update is_dump is_call post_of
       List.length app Nat.add].

Lemma steps_refl s : steps s s [].
Proof. constructor; cbn; try rewrite app_nil_r; auto; lia. Qed.

Lemma count_app p a b : count p (a ++ b) = (count p a + count p b)%nat.
Proof. unfold count. rewrite filter_app, length_app. reflexivity. Qed.

Lemma calls_app a b : calls (a ++ b) = calls a ++ calls b.
Proof. apply filter_app. Qed.

Lemma steps_trans s1 s2 s3 e1 e2 :
  steps s1 s2 e1 -> steps s2 s3 e2 -> steps s1 s3 (e1 ++ e2).
Proof.
  intros [T1 P1 C1 W1 D1 K1] [T2 P2 C2 W2 D2 K2].
  constructor; rewrite ?count_app; try lia.
  rewrite T2, T1, app_assoc. reflexivity.
Qed.

Section WithEnv.

Variable E : env.
Variable self : scraper.

Ltac run :=
  unfold fetch_page_content, extract_structured_data, requests_post, print,
         emit, try_except, bind, ret, raise, lift, gets, modify, now;
  cbn [fst snd trace posts chats ticks writes dumps collection files].

Ltac solve_steps :=
  constructor;
  cbn [trace posts chats ticks writes dumps collection files];
  [ rewrite <- ?app_assoc; reflexivity
  | unfold count; cbn [filter is_post is_chat is_update is_dump app
                       List.length]; lia .. ].

(** [fetch_page_content] makes one POST with the 30 second timeout; it
    raises what [post_escapes] says, and otherwise returns what [fetched]
    says. *)
Lemma fetch_spec url s :
  exists r evs s',
    fetch_page_content E self url s = (r, s') /\
    steps s s' evs /\
    calls evs = [Post (lit "https://r.jina.ai/") (jina_headers self) url 30] /\
    collection s' = collection s /\ files s' = files s /\
    ticks s' = ticks s /\
    match post_escapes (jina E (posts s) url) with
    | Some e => r = Raise e
    | None => exists page, r = Ok page /\ fetched (jina E (posts s) url) page
    end.
Proof.
  run.
  destruct (jina E (posts s) url) as [cause | status text json | e] eqn:R;
    cbn [post_escapes].
  - do 3 eexists. split; [ reflexivity | ].
    split; [ solve_steps | ].
    repeat split. eexists. split; [ reflexivity | constructor ].
  - destruct (status =? 200) eqn:S200; cbn [negb].
    + assert (Hs : is_error_status status = false)
        by (apply Z.eqb_eq in S200; subst; reflexivity).
      destruct json as [v|];
        (do 3 eexists; split; [ reflexivity | ];
         split; [ solve_steps | ]; repeat split;
         eexists; split; [ reflexivity | now constructor ]).
    + destruct (is_error_status status) eqn:Hs.
      * cbn [is_request_exception negb]. rewrite Hs. cbn [negb].
        do 3 eexists; split; [ reflexivity | ];
         split; [ solve_steps | ]; repeat split;
         eexists; split; [ reflexivity | now constructor ].
      * destruct json as [v|]; cbn [is_request_exception];
          (do 3 eexists; split; [ reflexivity | ];
           split; [ solve_steps | ]; repeat split;
           eexists; split; [ reflexivity | now constructor ]).
  - destruct (is_request_exception e) eqn:He.
    + destruct e; try discriminate.
      destruct response as [[status text]|];
        [ destruct (negb (is_error_status status)) | ];
        (do 3 eexists; split; [ reflexivity | ];
         split; [ solve_steps | ]; repeat split;
         eexists; split; [ reflexivity | now constructor ]).
    + do 3 eexists. split; [ reflexivity | ].
      split; [ solve_steps | ]. repeat split.
Qed.

(** [extract_structured_data] never raises, reads the clock once for the
    prompt, makes one chat call and returns what [extracted] says. *)
Lemma extract_spec content url s :
  exists v s',
    extract_structured_data E content url s = (Ok v, s') /\
    (exists evs,
        steps s s' evs /\
        calls evs = [Chat content url (Clock.isoformat (clock E (ticks s)))])
    /\
    collection s' = collection s /\ files s' = files s /\
    ticks s' = S (ticks s) /\
    extracted (llm E (chats s) content url
                   (Clock.isoformat (clock E (ticks s)))) v.
Proof.
  run.
  destruct (llm E (chats s) content url _) as [cause | [v|]] eqn:R;
    (do 2 eexists; split; [ reflexivity | ];
     split; [ eexists; split; [ solve_steps | reflexivity ] | ];
     repeat split; constructor).
Qed.

Ltac run_save :=
  cbv beta iota zeta delta
    [save_to_mongodb save_body collection_update_one on_world on_record
     print emit try_except bind ret raise lift gets modify now
     generate_document_id contains getitem setitem has_key
     fst snd trace posts chats ticks writes dumps collection files].

(** [save_to_mongodb] on a record it can stamp: the caller's record comes
    back stamped whatever the store does, and the store decides the
    flag. *)
Lemma save_stamps url bytes d md s :
  Utf8.encode url = Some bytes ->
  metadata_of d = Some md ->
  let id := MD5.hexdigest bytes in
  let fields := stamped url (clock E (ticks s)) id d md in
  let sent := UpdateOne id fields in
  match store_fault E (writes s) id with
  | Some cause =>
      save_to_mongodb E (VDict d) url s
      = (Ok (false, VDict fields),
         after_save s (collection s)
                    [sent; Print (Error_saving (StoreError cause))])
  | None =>
      match Mongo.update_one id fields (collection s) with
      | Raise e =>
          save_to_mongodb E (VDict d) url s
          = (Ok (false, VDict fields),
             after_save s (collection s) [sent; Print (Error_saving e)])
      | Ok c' =>
          save_to_mongodb E (VDict d) url s
          = (Ok (true, VDict fields),
             after_save s c' [sent; Print (Saved_to_mongodb url)])
      end
  end.
Proof.
  intros Henc Hmd id fields sent. subst sent fields id.
  unfold stamped, after_save. destruct s as [np nc nt nw nd c fs tr].
  cbn [trace posts chats ticks writes dumps collection files].
  destruct (store_fault E nw _) as [cause|] eqn:F;
    [ | destruct (Mongo.update_one _ _ c) as [c'|e] eqn:U ].
  all: unfold metadata_of in Hmd;
    destruct (lookup (lit "metadata") d) as [[]|] eqn:L; try discriminate;
    apply IdentityFacts.some_inj in Hmd; subst md.
  all: run_save; rewrite Henc; run_save;
    repeat (progress (rewrite ?L, ?DictFacts.lookup_set_same,
                              ?DictFacts.set_set, ?F, ?U); run_save).
  all: rewrite <- ?app_assoc; reflexivity.
Qed.

(** [save_to_mongodb] on anything else: the exception is caught before
    the record is touched, the clock read or the store called. *)
Lemma save_unstampable data url s :
  stampable url data = false ->
  exists e,
    save_to_mongodb E data url s
    = (Ok (false, data), after_prints s [Print (Error_saving e)]).
Proof.
  unfold stampable, metadata_of, after_prints.
  destruct s as [np nc nt nw nd c fs tr].
  cbn [trace posts chats ticks writes dumps collection files].
  destruct (Utf8.encode url) as [bytes|] eqn:Henc.
  - destruct data as [ | b | n | f | str | l | d ]; intros H;
      try (eexists; run_save; rewrite Henc; run_save; reflexivity).
    + run_save; rewrite Henc; run_save.
      destruct (is_infix _ _); eexists; reflexivity.
    + run_save; rewrite Henc; run_save.
      destruct (existsb _ _); eexists; reflexivity.
    + destruct (lookup (lit "metadata") d) as [[]|] eqn:L; try discriminate;
        eexists; run_save; rewrite Henc; run_save;
        repeat (progress (rewrite ?L); run_save); reflexivity.
  - intros _. eexists. run_save. rewrite Henc. reflexivity.
Qed.

Lemma count_calls p evs :
  (forall e, p e = true -> is_call e = true) ->
  count p evs = count p (calls evs).
Proof.
  intros Hp. unfold count, calls.
  induction evs as [|e evs' IH]; cbn [filter List.length]; auto.
  destruct (p e) eqn:Pe.
  - rewrite (Hp _ Pe). cbn [filter List.length]. rewrite Pe.
    cbn [List.length]. now rewrite IH.
  - destruct (is_call e); cbn [filter]; rewrite ?Pe; auto.
Qed.

Lemma chat_is_call e : is_chat e = true -> is_call e = true.
Proof. now destruct e. Qed.
Lemma post_is_call e : is_post e = true -> is_call e = true.
Proof. now destruct e. Qed.
Lemma update_is_call e : is_update e = true -> is_call e = true.
Proof. now destruct e. Qed.
Lemma dump_is_call e : is_dump e = true -> is_call e = true.
Proof. now destruct e. Qed.

Lemma steps_prints s evs :
  calls evs = [] -> steps s (after_prints s evs) evs.
Proof.
  intros H.
  assert (Hc : forall p, (forall e, p e = true -> is_call e = true) ->
                         count p evs = 0%nat).
  { intros p Hp. unfold count, calls in *.
    induction evs as [|e evs' IH]; cbn [filter List.length] in *; auto.
    destruct (p e) eqn:Pe.
    - apply Hp in Pe. rewrite Pe in H. discriminate.
    - destruct (is_call e); [ discriminate | ]. auto. }
  constructor; cbn [after_prints trace posts chats ticks writes dumps];
    try rewrite Hc; auto; try (intros []; now cbn).
Qed.

Lemma steps_after_save s c evs id fields :
  calls evs = [UpdateOne id fields] -> steps s (after_save s c evs) evs.
Proof.
  intros H. constructor;
    cbn [after_save trace posts chats ticks writes dumps].
  - reflexivity.
  - rewrite (count_calls _ _ post_is_call), H. count_calc. lia.
  - rewrite (count_calls _ _ chat_is_call), H. count_calc. lia.
  - rewrite (count_calls _ _ update_is_call), H. count_calc. lia.
  - rewrite (count_calls _ _ dump_is_call), H. count_calc. lia.
  - lia.
Qed.

(** One turn of the loop is a [turn]. *)
Lemma process_url_turn acc url s :
  exists evs,
    turn E self acc url s
         (fst (process_url E self acc url s))
         (snd (process_url E self acc url s)) evs.
Proof.
  unfold process_url, bind, print, emit, modify, lift, ret.
  set (s0 := mkState _ _ _ _ _ _ _ (trace s ++ [Print (Processing url)])).
  assert (S0 : steps s s0 [Print (Processing url)])
    by (apply (steps_prints s [Print (Processing url)]); reflexivity).
  destruct (fetch_spec url s0) as (r & evs1 & s1 & Hf & S1 & C1 & K1 & F1
                                   & T1 & P1).
  rewrite Hf.
  change (posts s0) with (posts s) in P1.
  change (ticks s0) with (ticks s) in T1.
  change (collection s0) with (collection s) in K1.
  change (files s0) with (files s) in F1.
  pose proof (steps_trans _ _ _ _ _ S0 S1) as S01.
  destruct (post_escapes (jina E (posts s) url)) as [e|] eqn:Hesc;
    [ subst r; eexists; cbn [fst snd]; eapply turn_fetch_crash; eauto | ].
  destruct P1 as (page & -> & P1).
  assert (Hch : chats s1 = chats s).
  { rewrite (steps_chats _ _ _ S01), (count_calls _ _ chat_is_call).
    cbn [calls filter is_call app]. fold (calls evs1). rewrite C1.
    count_calc. lia. }
  assert (Hwr : writes s1 = writes s).
  { rewrite (steps_writes _ _ _ S01), (count_calls _ _ update_is_call).
    cbn [calls filter is_call app]. fold (calls evs1). rewrite C1.
    count_calc. lia. }
  assert (C01 : calls ([Print (Processing url)] ++ evs1) = [post_of self url])
    by exact C1.
  destruct (has_data page) as [[|]|e] eqn:Hd.
  - destruct (content_of page) as [content|e] eqn:Hc; unfold content_of in Hc.
    + destruct (getitem page (lit "data")) as [data|] eqn:G;
        [ | discriminate ].
      rewrite Hc.
      destruct (extract_spec content url s1)
        as (sd & s2 & He & (evs2 & S2 & C2) & K2 & F2 & T2 & X2).
      rewrite He. rewrite Hch, T1 in X2. rewrite T1 in C2.
      pose proof (steps_trans _ _ _ _ _ S01 S2) as S02.
      assert (C02 : calls (([Print (Processing url)] ++ evs1) ++ evs2)
                    = [post_of self url;
                       Chat content url
                            (Clock.isoformat (clock E (ticks s)))])
        by (rewrite calls_app, C01, C2; reflexivity).
      destruct (truthy sd) eqn:Tr.
      * destruct (stampable url sd) eqn:St.
        -- unfold stampable in St.
           destruct (Utf8.encode url) as [bytes|] eqn:Henc;
             [ | discriminate ].
           destruct sd as [ | | | | | | d]; try discriminate.
           destruct (metadata_of d) as [md|] eqn:Hmd; [ | discriminate ].
           pose proof (save_stamps url bytes d md s2 Henc Hmd) as Hs.
           cbv zeta in Hs. rewrite T2, T1 in Hs.
           assert (Hw2 : writes s2 = writes s).
           { rewrite (steps_writes _ _ _ S2),
               (count_calls _ _ update_is_call), C2. count_calc. lia. }
           rewrite Hw2, K2, K1 in Hs.
           set (id := MD5.hexdigest bytes) in *.
           set (fields := stamped url (clock E (S (ticks s))) id d md) in *.
           assert (Hst : forall c evs3,
             calls evs3 = [UpdateOne id fields] ->
             steps s2 (after_save s2 c evs3) evs3)
             by (intros; eapply steps_after_save; eauto).
           destruct (store_fault E (writes s) id) as [cause|] eqn:Fa;
             [ | destruct (Mongo.update_one id fields (collection s))
                   as [c'|e] eqn:U ];
             rewrite Hs; cbn [fst snd]; eexists;
             (eapply turn_saved;
              [ exact P1 | exact Hd | unfold content_of; rewrite G; exact Hc
              | exact X2 | exact Tr | exact Henc | exact Hmd
              | eapply steps_trans; [ exact S02 | apply Hst; reflexivity ]
              | rewrite calls_app, C02; reflexivity
              | cbn [after_save ticks]; rewrite T2, T1; reflexivity
              | cbn [after_save collection]
              | cbn [after_save files]; rewrite F2, F1; reflexivity ]).
           ++ right. split; [ left | reflexivity ].
             fold id. rewrite Fa. discriminate.
           ++ left. fold id. fold fields. rewrite Fa, U. split; reflexivity.
           ++ right. split; [ right | reflexivity ].
             fold id. fold fields. eauto.
        -- destruct (save_unstampable sd url s2 St) as [e Hs].
           rewrite Hs. cbn [fst snd]. eexists.
           eapply turn_unstamped;
             [ exact P1 | exact Hd | unfold content_of; rewrite G; exact Hc
             | exact X2 | exact Tr | exact St
             | eapply steps_trans;
               [ exact S02 | apply steps_prints; reflexivity ]
             | rewrite calls_app, C02; reflexivity
             | cbn [after_prints ticks]; rewrite T2, T1; reflexivity
             | cbn [after_prints collection]; congruence
             | cbn [after_prints files]; congruence ].
      * cbn [fst snd]. eexists.
        eapply turn_no_record;
          [ exact P1 | exact Hd | unfold content_of; rewrite G; exact Hc
          | exact X2 | exact Tr | exact S02 | exact C02
          | congruence | congruence | congruence ].
    + eexists.
      destruct (getitem page (lit "data")) as [data|e'] eqn:G.
      * rewrite Hc. cbn [fst snd].
        eapply turn_crash; eauto.
        right. split; auto. unfold content_of. now rewrite G.
      * apply IdentityFacts.some_inj in Hc || injection Hc as <-.
        cbn [fst snd].
        eapply turn_crash; eauto.
        right. split; auto. unfold content_of. now rewrite G.
  - eexists. cbn [fst snd]. eapply turn_no_data; eauto.
  - eexists. cbn [fst snd]. eapply turn_crash; eauto.
Qed.

(** The loop is a [batch]. *)
Lemma for_urls_batch urls : forall acc s,
  exists evs,
    batch E self urls acc s
          (fst (for_urls E self urls acc s))
          (snd (for_urls E self urls acc s)) evs.
Proof.
  induction urls as [|url rest IH]; intros acc s; cbn [for_urls].
  - exists []. constructor.
  - unfold bind.
    destruct (process_url_turn acc url s) as [evs1 H1].
    destruct (process_url E self acc url s) as [[acc'|e] s1]; cbn [fst snd] in H1.
    + destruct (IH acc' s1) as [evs2 H2].
      exists (evs1 ++ evs2). eapply batch_turn; eauto.
    + exists evs1. cbn [fst snd]. now apply batch_raise.
Qed.

Lemma turn_steps acc url s r s' evs :
  turn E self acc url s r s' evs -> steps s s' evs.
Proof. now destruct 1. Qed.

Lemma batch_steps urls acc s r s' evs :
  batch E self urls acc s r s' evs -> steps s s' evs.
Proof.
  induction 1.
  - apply steps_refl.
  - eapply turn_steps; eauto.
  - eapply steps_trans; eauto using turn_steps.
Qed.

Lemma turn_files acc url s r s' evs :
  turn E self acc url s r s' evs -> files s' = files s.
Proof. now destruct 1. Qed.

Lemma batch_files urls acc s r s' evs :
  batch E self urls acc s r s' evs -> files s' = files s.
Proof.
  induction 1; auto.
  - eapply turn_files; eauto.
  - rewrite IHbatch. eapply turn_files; eauto.
Qed.

Lemma turn_no_dump acc url s r s' evs :
  turn E self acc url s r s' evs -> count is_dump evs = 0%nat.
Proof.
  destruct 1;
    match goal with H : calls _ = _ |- _ =>
      rewrite (count_calls _ _ dump_is_call), H; reflexivity
    end.
Qed.

Lemma batch_no_dump urls acc s r s' evs :
  batch E self urls acc s r s' evs -> count is_dump evs = 0%nat.
Proof.
  induction 1; auto.
  - eapply turn_no_dump; eauto.
  - rewrite count_app, IHbatch. erewrite turn_no_dump; eauto.
Qed.

End WithEnv.

End MethodFacts.

(** ** The loop *)

Module BatchFacts.

Import Py Scraper Obs MethodFacts.
Local Open Scope py_scope.

Lemma extractions_app E evs1 : forall k evs2,
  extractions E k (evs1 ++ evs2)
  = extractions E k evs1
    ++ extractions E (k + count is_chat evs1) evs2.
Proof.
  induction evs1 as [|e evs1 IH]; intros k evs2.
  - cbn [app extractions]. unfold count. cbn [filter List.length].
    now rewrite Nat.add_0_r.
  - destruct e as [ | | content url asked | | ]; cbn [app extractions];
      unfold count in *;
      cbn [filter is_chat List.length]; rewrite ?IH; auto.
    replace (k + S (List.length (filter is_chat evs1)))%nat
      with (S k + List.length (filter is_chat evs1))%nat by lia.
    destruct (llm E k content url asked) as [|[v|]]; auto.
    destruct (truthy v); auto.
Qed.

Lemma extractions_calls E evs : forall k,
  extractions E k evs = extractions E k (calls evs).
Proof.
  induction evs as [|e evs IH]; intros k; auto.
  destruct e; cbn [extractions calls filter is_call]; fold (calls evs);
    rewrite ?IH; auto.
Qed.

Section WithEnv.

Variable E : env.
Variable self : scraper.

Lemma turn_results acc url s acc' s' evs :
  turn E self acc url s (Ok acc') s' evs ->
  exists news,
    acc' = acc ++ news /\
    Forall2 exported_as (extractions E (chats s) evs) news /\
    subseq (map fst (extractions E (chats s) evs)) [url].
Proof.
  inversion 1; subst; rewrite extractions_calls;
    match goal with H : calls _ = _ |- _ => rewrite H end;
    unfold post_of; cbn [extractions].
  - exists []. rewrite app_nil_r. repeat constructor.
  - exists []. rewrite app_nil_r.
    match goal with H : extracted _ _ |- _ => inversion H; subst end;
      try solve [ split; [ reflexivity | split; repeat constructor ] ].
    match goal with H : truthy _ = false |- _ => rewrite H end.
    split; [ reflexivity | split; repeat constructor ].
  - exists [sd].
    match goal with H : extracted _ _ |- _ => inversion H; subst end;
      try discriminate.
    match goal with H : truthy _ = true |- _ => rewrite H end.
    split; [ reflexivity | split ].
    + repeat constructor; auto.
    + apply subseq_take, subseq_nil.
  - eexists [_].
    match goal with H : extracted _ _ |- _ => inversion H; subst end.
    match goal with H : truthy _ = true |- _ => rewrite H end.
    split; [ reflexivity | split ].
    + repeat econstructor; eauto.
    + apply subseq_take, subseq_nil.
Qed.

Lemma subseq_app {A} (a b c d : list A) :
  subseq a b -> subseq c d -> subseq (a ++ c) (b ++ d).
Proof.
  intros H1 H2. induction H1; cbn [app];
    [ assumption | now apply subseq_skip | now apply subseq_take ].
Qed.

(** What the loop hands back: the records it was given, then one entry
    for every record delivered during the run, in the order delivered,
    which follows the order of the URLs. *)
Lemma batch_results urls acc s results s' evs :
  batch E self urls acc s (Ok results) s' evs ->
  exists news,
    results = acc ++ news /\
    Forall2 exported_as (extractions E (chats s) evs) news /\
    subseq (map fst (extractions E (chats s) evs)) urls.
Proof.
  intros H. remember (Ok results) as r eqn:Hr. revert results Hr.
  induction H as [acc s | url rest acc s e s' evs Ht
                 | url rest acc s acc' s1 evs1 r s2 evs2 Ht Hb IH];
    intros results Hr.
  - apply IdentityFacts.some_inj in Hr || injection Hr as <-.
    exists []. rewrite app_nil_r. repeat constructor.
  - discriminate.
  - destruct (turn_results _ _ _ _ _ _ Ht) as (n1 & -> & F1 & Q1).
    destruct (IH _ Hr) as (n2 & -> & F2 & Q2).
    exists (n1 ++ n2). rewrite app_assoc. split; [ reflexivity | ].
    rewrite extractions_app, <- (steps_chats _ _ _ (turn_steps _ _ _ _ _ _ _ _ Ht)).
    split.
    + now apply Forall2_app.
    + rewrite map_app. now apply (subseq_app _ [url] _ rest).
Qed.

(** [process_urls], unfolded: read the URLs, run the loop, export if a
    path was given. *)
Lemma process_urls_unfold input_csv output_file s :
  process_urls E self input_csv output_file s
  = match csv_rows E input_csv with
    | None => (Raise (csv_error E input_csv), s)
    | Some rows =>
        match for_urls E self (first_cells rows) [] s with
        | (Raise e, s1) => (Raise e, s1)
        | (Ok results, s1) =>
            match path_given output_file with
            | None => (Ok tt, s1)
            | Some path =>
                match save_results E results path s1 with
                | (Raise e, s2) => (Raise e, s2)
                | (Ok _, s2) =>
                    (Ok tt,
                     mkState (posts s2) (chats s2) (ticks s2) (writes s2)
                             (dumps s2) (collection s2) (files s2)
                             (trace s2 ++ [Print (Results_saved path)]))
                end
            end
        end
    end.
Proof.
  unfold process_urls, read_urls_from_csv, bind.
  destruct (csv_rows E input_csv) as [rows|]; [ | reflexivity ].
  unfold ret at 1.
  destruct (for_urls E self (first_cells rows) [] s) as [[results|e] s1];
    [ | reflexivity ].
  destruct (path_given output_file) as [path|]; [ | reflexivity ].
  destruct (save_results E results path s1) as [[[]|e] s2]; reflexivity.
Qed.

(** [save_results] when it returns, and when it raises. *)
Lemma save_results_returns results path s s' :
  save_results E results path s = (Ok tt, s') ->
  s' = mkState (posts s) (chats s) (ticks s) (writes s) (S (dumps s))
               (collection s) ((path, results) :: files s)
               (trace s ++ [Dump path results]) /\
  dump_fault E (dumps s) path = None /\
  forallb Utf8.writable results = true /\
  write_fault E (dumps s) path = None.
Proof.
  unfold save_results, emit, modify, bind.
  cbn [posts chats ticks writes dumps collection files trace].
  destruct (dump_fault E (dumps s) path); [ discriminate | ].
  destruct (forallb Utf8.writable results); [ | discriminate ].
  destruct (write_fault E (dumps s) path); [ discriminate | ].
  intros H. injection H as <-. repeat split.
Qed.

Lemma save_results_raises results path s e s' :
  save_results E results path s = (Raise e, s') ->
  trace s' = trace s ++ [Dump path results] /\
  collection s' = collection s /\
  posts s' = posts s /\
  (files s' = files s /\ dump_fault E (dumps s) path = Some e \/
   files s' = forget path (files s) /\ dump_fault E (dumps s) path = None /\
   (forallb Utf8.writable results = false /\ e = UnicodeEncodeError \/
    forallb Utf8.writable results = true /\
    write_fault E (dumps s) path = Some e)).
Proof.
  unfold save_results, emit, modify, bind.
  cbn [posts chats ticks writes dumps collection files trace].
  destruct (dump_fault E (dumps s) path) as [e0|].
  - intros H. injection H as <- <-. repeat split. now left.
  - destruct (forallb Utf8.writable results).
    + destruct (write_fault E (dumps s) path) as [e0|]; [ | discriminate ].
      intros H. injection H as <- <-. repeat split. right. auto.
    + intros H. injection H as <- <-. repeat split. right. auto.
Qed.

Lemma content_present_spec page :
  content_present page = true <->
  has_data page = Ok true /\ exists content, content_of page = Ok content.
Proof.
  unfold content_present, has_data, content_of.
  destruct page as [ | b | n | f | str | l | d ];
    try (split; [ discriminate | ]).
  - intros [H _]. discriminate.
  - intros [H _]. cbn [truthy contains] in H. destruct b; discriminate.
  - intros [H _]. cbn [truthy contains] in H.
    destruct (negb (n =? 0)); discriminate.
  - intros [H _]. cbn [truthy contains] in H.
    destruct f; discriminate.
  - intros [_ [c H]]. discriminate.
  - intros [_ [c H]]. discriminate.
  - cbn [contains getitem]. unfold has_key.
    destruct (lookup (lit "data") d) as [v|] eqn:L.
    + assert (Ht : truthy (VDict d) = true)
        by (destruct d; [ discriminate | reflexivity ]).
      rewrite Ht.
      destruct v; cbn [get];
        try (split; [ discriminate | intros [_ [c H]]; discriminate ]).
      split; [ intros _ | reflexivity ].
      split; [ reflexivity | ].
      destruct (lookup (lit "content") d0); eauto.
    + split; [ discriminate | ].
      intros [H _]. destruct (truthy (VDict d)); discriminate.
Qed.

Lemma turn_run acc url s r s' evs :
  turn E self acc url s r s' evs -> run_of self url (calls evs).
Proof.
  destruct 1;
    match goal with H : calls _ = _ |- _ => rewrite H end;
    try constructor.
  unfold generate_document_id.
  match goal with H : Utf8.encode _ = _ |- _ => now rewrite H end.
Qed.

(** The trace of the loop is one stretch per URL it got to, in the order
    of the list; it got to all of them unless a turn raised. *)
Lemma batch_runs urls acc s r s' evs :
  batch E self urls acc s r s' evs ->
  exists segs rest,
    evs = List.concat segs /\
    urls = firstn (List.length segs) urls ++ rest /\
    Forall2 (fun url seg => run_of self url (calls seg))
            (firstn (List.length segs) urls) segs /\
    (forall results, r = Ok results -> rest = []).
Proof.
  induction 1 as [acc s | url rest acc s e s' evs Ht
                 | url rest acc s acc' s1 evs1 r s2 evs2 Ht Hb IH].
  - exists [], []. repeat split; auto.
  - exists [evs], rest. cbn [List.concat List.length firstn app].
    rewrite app_nil_r. repeat split; auto.
    + constructor; [ eapply turn_run; eauto | constructor ].
    + discriminate.
  - destruct IH as (segs & rest' & -> & Hu & Hf & Hr).
    exists (evs1 :: segs), rest'. cbn [List.concat List.length firstn app].
    repeat split; auto.
    + now rewrite <- Hu.
    + constructor; [ eapply turn_run; eauto | assumption ].
Qed.

End WithEnv.

(** A run of [process_urls] that returns: what it read, did and wrote. *)
Lemma process_urls_returns E self input_csv output_file s s' :
  process_urls E self input_csv output_file s = (Ok tt, s') ->
  exists rows evs results,
    csv_rows E input_csv = Some rows /\
    Forall2 exported_as (extractions E (chats s) evs) results /\
    subseq (map fst (extractions E (chats s) evs)) (first_cells rows) /\
    count is_dump evs = 0%nat /\
    match path_given output_file with
    | Some path =>
        trace s' = trace s ++ evs
                   ++ [Dump path results; Print (Results_saved path)] /\
        files s' = (path, results) :: files s
    | None =>
        trace s' = trace s ++ evs /\ files s' = files s
    end.
Proof.
  rewrite process_urls_unfold.
  destruct (csv_rows E input_csv) as [rows|]; [ | discriminate ].
  destruct (for_urls_batch E self (first_cells rows) [] s) as [evs Hb].
  destruct (for_urls E self (first_cells rows) [] s) as [[results|e] s1];
    [ | discriminate ].
  cbn [fst snd] in Hb.
  destruct (batch_results _ _ _ _ _ _ _ _ Hb) as (news & Hn & Hf & Hq).
  cbn [app] in Hn. subst news.
  pose proof (steps_trace _ _ _ (batch_steps _ _ _ _ _ _ _ _ Hb)) as Ht.
  pose proof (batch_files _ _ _ _ _ _ _ _ Hb) as Hfi.
  pose proof (batch_no_dump _ _ _ _ _ _ _ _ Hb) as Hnd.
  intros H. exists rows, evs, results.
  split; [ reflexivity | ].
  repeat (split; [ assumption | ]).
  destruct (path_given output_file) as [path|].
  - destruct (save_results E results path s1) as [[[]|e] s2] eqn:Hsave;
      [ | discriminate ].
    apply save_results_returns in Hsave as (-> & _).
    injection H as <-.
    cbn [trace files]. rewrite Ht, Hfi, <- !app_assoc. split; reflexivity.
  - injection H as <-. split; assumption.
Qed.



(** What goes wrong in a turn that raises on the page. *)
Lemma crash_kind page e :
  has_data page = Raise e \/
  (has_data page = Ok true /\ content_of page = Raise e) ->
  has_data page <> Ok false /\ content_present page = false /\
  page <> VNone /\
  (forall d, page = VDict d -> e = AttributeError) /\
  ((forall d, page <> VDict d) -> e = TypeError).
Proof.
  intros H.
  assert (Hn : has_data page <> Ok false)
    by (destruct H as [H | [H _]]; rewrite H; discriminate).
  assert (Hc : content_present page = false).
  { destruct (content_present page) eqn:Hcp; [ | reflexivity ].
    apply content_present_spec in Hcp as [Hd [c Hc]].
    destruct H as [H | [_ H]]; congruence. }
  split; [ exact Hn | ]. split; [ exact Hc | ].
  split; [ intros ->; now apply Hn | ].
  unfold has_data, content_of, contains, getitem, get in H.
  destruct page as [ | b | n | f | str | l | d ]; cbn [truthy] in H.
  - destruct H as [H | [H _]]; discriminate.
  - split; [ discriminate | intros _ ].
    destruct b, H as [H | [H _]]; congruence.
  - split; [ discriminate | intros _ ].
    destruct (negb (n =? 0)), H as [H | [H _]]; congruence.
  - split; [ discriminate | intros _ ].
    destruct f, H as [H | [H _]]; congruence.
  - split; [ discriminate | intros _ ].
    destruct H as [H | [_ H]]; [ destruct str; discriminate | congruence ].
  - split; [ discriminate | intros _ ].
    destruct H as [H | [_ H]]; [ destruct l; discriminate | congruence ].
  - split; [ intros _ _ | intros Hd; now contradiction (Hd d) ].
    destruct H as [H | [Ht H]]; [ destruct d; discriminate | ].
    unfold has_key in Ht.
    destruct (lookup (lit "data") d) as [v|];
      [ | destruct d; discriminate ].
    destruct v; try congruence.
    destruct (lookup (lit "content") d0); discriminate.
Qed.

Lemma crash_is_type_or_attribute page e :
  has_data page = Raise e \/
  (has_data page = Ok true /\ content_of page = Raise e) ->
  e = TypeError \/ e = AttributeError.
Proof.
  intros H. apply crash_kind in H as (_ & _ & _ & Hd & Hn).
  destruct page as [ | | | | | | d ];
    try (left; apply Hn; discriminate).
  right. eapply Hd; eauto.
Qed.

Lemma fetched_unique reply page page' :
  fetched reply page -> fetched reply page' -> page = page'.
Proof.
  intros H H'. destruct H; inversion H'; subst; congruence.
Qed.

Lemma fetched_no_escape reply page :
  fetched reply page -> post_escapes reply = None.
Proof.
  destruct 1; cbn [post_escapes]; auto.
  match goal with H : is_request_exception _ = true |- _ => now rewrite H end.
Qed.


Lemma subseq_length {A} (l1 l2 : list A) :
  subseq l1 l2 -> (List.length l1 <= List.length l2)%nat.
Proof. induction 1; cbn [List.length]; lia. Qed.

Lemma turn_raise_gathers_nothing E self acc url s e s' evs :
  turn E self acc url s (Raise e) s' evs ->
  extractions E (chats s) evs = [].
Proof.
  inversion 1; subst; rewrite extractions_calls;
    match goal with H : calls _ = _ |- _ => rewrite H end; reflexivity.
Qed.

(** The loop, URL by URL: how far it got, and what it did and gathered
    for each URL it got to. *)
Lemma batch_progress E self urls acc s r s' evs :
  batch E self urls acc s r s' evs ->
  exists reached rest segs recss,
    urls = reached ++ rest /\
    evs = List.concat segs /\
    progress E self (chats s) reached segs recss /\
    match r with
    | Ok results => rest = [] /\ results = acc ++ List.concat recss
    | Raise _ => reached <> []
    end.
Proof.
  induction 1 as [acc s | url rest acc s e s' evs Ht
                 | url rest acc s acc' s1 evs1 r s2 evs2 Ht Hb IH].
  - exists [], [], [], []. repeat split; [ constructor | ].
    now rewrite app_nil_r.
  - exists [url], rest, [evs], [[]].
    cbn [List.concat app]. rewrite app_nil_r.
    split; [ reflexivity | ]. split; [ reflexivity | ].
    split; [ | discriminate ].
    constructor; [ eapply turn_run; eauto | | | constructor ];
      rewrite (turn_raise_gathers_nothing _ _ _ _ _ _ _ _ Ht);
      repeat constructor.
  - destruct (turn_results _ _ _ _ _ _ _ _ Ht) as (news & -> & Hx & Hq).
    destruct IH as (reached & rest' & segs & recss & -> & -> & Hp & Hr).
    exists (url :: reached), rest', (evs1 :: segs), (news :: recss).
    split; [ reflexivity | ]. split; [ reflexivity | ].
    split.
    + constructor; [ eapply turn_run; eauto | exact Hx | exact Hq | ].
      now rewrite <- (steps_chats _ _ _ (turn_steps _ _ _ _ _ _ _ _ Ht)).
    + destruct r as [results|e]; [ | discriminate ].
      destruct Hr as [-> ->]. split; [ reflexivity | ].
      cbn [List.concat]. now rewrite app_assoc.
Qed.

Lemma progress_at_most_one E self k urls segs recss :
  progress E self k urls segs recss ->
  Forall2 (fun seg recs =>
             (List.length recs <= 1)%nat /\
             (count is_chat seg = 0%nat -> recs = []))
          segs recss.
Proof.
  induction 1 as [k | k url urls seg segs recs recss Hr Hx Hq Hp IH];
    constructor; [ | exact IH ].
  split.
  - rewrite <- (Forall2_length Hx).
    apply subseq_length in Hq. now rewrite length_map in Hq.
  - intros Hc.
    assert (He : forall evs n, count is_chat evs = 0%nat ->
                               extractions E n evs = []).
    { clear. intros evs. induction evs as [|e evs IH]; intros n Hc; auto.
      destruct e; unfold count in *; cbn [filter is_chat List.length] in *;
        try discriminate; cbn [extractions]; now apply IH. }
    rewrite (He _ _ Hc) in Hx. now inversion Hx.
Qed.

(** C8, amended. The loop of [process_urls] takes the URLs in the order
    of the list, one at a time, as far as it gets: what it does is one
    stretch of trace per URL it gets to, in list order, and the calls of
    a stretch are that URL's fetch, then its extraction, then its write,
    stopping after any of them, so no URL starts before the one before it
    is over. It gathers no outcome per URL but records: for each URL one
    record if the language model delivered one in that URL's stretch (as
    [save_to_mongodb] left it), and none otherwise, so none for a URL
    whose fetch gave nothing to extract from. A loop that returns got to
    every URL and hands on the records gathered, in that order; one that
    raises stopped at the URL whose turn raised. *)
Theorem processing_in_input_order E self urls acc s :
  exists reached rest segs recss,
    urls = reached ++ rest /\
    trace (snd (for_urls E self urls acc s))
    = trace s ++ List.concat segs /\
    progress E self (chats s) reached segs recss /\
    Forall2 (fun seg recs =>
               (List.length recs <= 1)%nat /\
               (count is_chat seg = 0%nat -> recs = []))
            segs recss /\
    match fst (for_urls E self urls acc s) with
    | Ok results => rest = [] /\ results = acc ++ List.concat recss
    | Raise _ => reached <> []
    end.
Proof.
  destruct (for_urls_batch E self urls acc s) as [evs Hb].
  destruct (batch_progress _ _ _ _ _ _ _ _ Hb)
    as (reached & rest & segs & recss & Hu & -> & Hp & Hr).
  exists reached, rest, segs, recss.
  split; [ exact Hu | ].
  split; [ apply (steps_trace _ _ _ (batch_steps _ _ _ _ _ _ _ _ Hb)) | ].
  split; [ exact Hp | ].
  split; [ eapply progress_at_most_one; eauto | exact Hr ].
Qed.

End BatchFacts.

(** ** Stamping *)

Module StampFacts.

Import Py Scraper Obs MethodFacts BatchFacts.

Lemma stamp_source_url md url t id :
  lookup (lit "source_url") (update md (stamp url t id)) = Some (VStr url).
Proof.
  unfold update, stamp. cbn [fold_left fst snd].
  rewrite !DictFacts.lookup_set_other by (vm_compute; discriminate).
  apply DictFacts.lookup_set_same.
Qed.

Lemma stamp_scrape_timestamp md url t id :
  lookup (lit "scrape_timestamp") (update md (stamp url t id))
  = Some (VStr (Clock.isoformat t)).
Proof.
  unfold update, stamp. cbn [fold_left fst snd].
  rewrite DictFacts.lookup_set_other by (vm_compute; discriminate).
  apply DictFacts.lookup_set_same.
Qed.

Lemma stamp_id md url t id :
  lookup (lit "_id") (update md (stamp url t id)) = Some (VStr id).
Proof.
  unfold update, stamp. cbn [fold_left fst snd].
  apply DictFacts.lookup_set_same.
Qed.

Lemma stamp_other md url t id k :
  k <> lit "source_url" -> k <> lit "scrape_timestamp" -> k <> lit "_id" ->
  lookup k (update md (stamp url t id)) = lookup k md.
Proof.
  intros H1 H2 H3. apply DictFacts.lookup_update_other.
  unfold stamp. cbn [map fst In]. intuition congruence.
Qed.

Lemma stamped_carries url bytes d md t :
  Utf8.encode url = Some bytes ->
  carries_stamp url (VDict (stamped url t (MD5.hexdigest bytes) d md)).
Proof.
  intros He.
  exists (stamped url t (MD5.hexdigest bytes) d md),
         (update md (stamp url t (MD5.hexdigest bytes))),
         (MD5.hexdigest bytes), t.
  unfold stamped, generate_document_id. rewrite He.
  repeat split.
  - apply DictFacts.lookup_set_same.
  - apply stamp_source_url.
  - apply stamp_scrape_timestamp.
  - apply stamp_id.
Qed.

Lemma exported_carries x r :
  exported_as x r -> stampable (fst x) (snd x) = true ->
  carries_stamp (fst x) r.
Proof.
  destruct 1 as [url v Hn | url bytes d md t He Hm]; cbn [fst snd].
  - congruence.
  - intros _. now apply stamped_carries.
Qed.

(** When [save_to_mongodb] says [True]: the record could be stamped, was
    stamped, and the store took the write. *)
Lemma save_true E data url s data' s' :
  save_to_mongodb E data url s = (Ok (true, data'), s') ->
  exists bytes d md,
    let id := MD5.hexdigest bytes in
    let fields := stamped url (clock E (ticks s)) id d md in
    Utf8.encode url = Some bytes /\
    data = VDict d /\
    metadata_of d = Some md /\
    data' = VDict fields /\
    store_fault E (writes s) id = None /\
    Mongo.update_one id fields (collection s) = Ok (collection s') /\
    s' = after_save s (collection s')
                    [UpdateOne id fields; Print (Saved_to_mongodb url)].
Proof.
  intros H.
  destruct (stampable url data) eqn:St.
  - unfold stampable in St.
    destruct (Utf8.encode url) as [bytes|] eqn:He; [ | discriminate ].
    destruct data as [ | | | | | | d]; try discriminate.
    destruct (metadata_of d) as [md|] eqn:Hm; [ | discriminate ].
    pose proof (save_stamps E url bytes d md s He Hm) as Hs. cbv zeta in Hs.
    exists bytes, d, md. cbv zeta.
    destruct (store_fault E (writes s) (MD5.hexdigest bytes)) as [cause|];
      [ rewrite Hs in H; discriminate | ].
    destruct (Mongo.update_one _ _ (collection s)) as [c'|e];
      [ | rewrite Hs in H; discriminate ].
    rewrite Hs in H. injection H as <- <-.
    repeat split; auto.
  - destruct (save_unstampable E data url s St) as [e Hs].
    rewrite Hs in H. discriminate.
Qed.

(** C10, amended. For a URL that encodes and a record that is a dict
    whose metadata block is absent or a dict, [save_to_mongodb] hands the
    caller's record back changed in its metadata block only: there
    [source_url], [scrape_timestamp] and [_id] are set, [_id] to the
    identity of the URL; every other key of the block and every other
    field of the record is as before, in the same place; the record sent
    to the store is the stamped one, and the caller's record stays stamped
    when the write fails. So in the file [process_urls] writes, every
    such record carries the stamp. *)
Theorem stamping_frame E self :
  (forall url bytes d md s,
      Utf8.encode url = Some bytes ->
      metadata_of d = Some md ->
      let t := clock E (ticks s) in
      let id := MD5.hexdigest bytes in
      let md' := update md (stamp url t id) in
      exists b fields s' line,
        save_to_mongodb E (VDict d) url s = (Ok (b, VDict fields), s') /\
        lookup (lit "metadata") fields = Some (VDict md') /\
        lookup (lit "source_url") md' = Some (VStr url) /\
        lookup (lit "scrape_timestamp") md'
        = Some (VStr (Clock.isoformat t)) /\
        lookup (lit "_id") md' = Some (VStr id) /\
        (forall k, k <> lit "source_url" -> k <> lit "scrape_timestamp" ->
                   k <> lit "_id" -> lookup k md' = lookup k md) /\
        (forall k, k <> lit "metadata" -> lookup k fields = lookup k d) /\
        (lookup (lit "metadata") d <> None -> map fst fields = map fst d) /\
        (lookup (lit "metadata") d = None ->
         fields = d ++ [(lit "metadata", VDict md')]) /\
        trace s' = trace s ++ [UpdateOne id fields; Print line] /\
        (b = false -> collection s' = collection s)) /\
  (forall input_csv path s s',
      process_urls E self input_csv (Some path) s = (Ok tt, s') ->
      path <> [] ->
      exists evs results,
        files s' = (path, results) :: files s /\
        Forall2 (fun x r => stampable (fst x) (snd x) = true ->
                            carries_stamp (fst x) r)
                (extractions E (chats s) evs) results).
Proof.
  split.
  - intros url bytes d md s He Hm t id md'.
    pose proof (save_stamps E url bytes d md s He Hm) as Hs. cbv zeta in Hs.
    fold t id md' in Hs.
    set (fields := stamped url t id d md) in *.
    assert (Hframe :
      lookup (lit "metadata") fields = Some (VDict md') /\
      lookup (lit "source_url") md' = Some (VStr url) /\
      lookup (lit "scrape_timestamp") md' = Some (VStr (Clock.isoformat t)) /\
      lookup (lit "_id") md' = Some (VStr id) /\
      (forall k, k <> lit "source_url" -> k <> lit "scrape_timestamp" ->
                 k <> lit "_id" -> lookup k md' = lookup k md) /\
      (forall k, k <> lit "metadata" -> lookup k fields = lookup k d) /\
      (lookup (lit "metadata") d <> None -> map fst fields = map fst d) /\
      (lookup (lit "metadata") d = None ->
       fields = d ++ [(lit "metadata", VDict md')])).
    { unfold fields, stamped, md'. repeat split.
      - apply DictFacts.lookup_set_same.
      - apply stamp_source_url.
      - apply stamp_scrape_timestamp.
      - apply stamp_id.
      - apply stamp_other.
      - intros k Hk. apply DictFacts.lookup_set_other. congruence.
      - apply DictFacts.keys_set_present.
      - apply DictFacts.set_absent. }
    destruct (store_fault E (writes s) id) as [cause|];
      [ | destruct (Mongo.update_one id fields (collection s)) as [c'|e] ];
      do 4 eexists; (split; [ exact Hs | ]);
      repeat (split; [ apply Hframe | ]);
      (split; [ reflexivity | ]); cbn [after_save collection]; congruence.
  - intros input_csv path s s' H Hp.
    destruct (process_urls_returns _ _ _ _ _ _ H)
      as (rows & evs & results & _ & Hx & _ & _ & Hout).
    destruct path as [|c p]; [ congruence | ]. cbn [path_given] in Hout.
    destruct Hout as [_ Hfiles].
    exists evs, results. split; [ assumption | ].
    eapply Forall2_impl; [ | exact Hx ].
    intros x r. apply exported_carries.
Qed.

End StampFacts.

(** ** Stamping in a run *)

Module TimestampFacts.

Import Py Scraper Obs MethodFacts BatchFacts StampFacts.

Section WithEnv.

Variable E : env.
Variable self : scraper.





End WithEnv.






End TimestampFacts.

(** ** The collection *)

Module MongoFacts.

Import Py Mongo.

Lemma lookup_none k d : lookup k d = None <-> ~ In k (map fst d).
Proof.
  induction d as [|[k0 v0] d IH]; cbn [lookup map fst In].
  - tauto.
  - destruct (str_eqb k0 k) eqn:Ek.
    + apply DictFacts.str_eqb_eq in Ek. split; [ discriminate | tauto ].
    + apply DictFacts.str_eqb_neq in Ek. tauto.
Qed.

(** [$set] never touches [_id]. *)
Lemma set_field_keeps_id id d kv d' :
  set_field id d kv = Ok d' -> lookup id_key d' = lookup id_key d.
Proof.
  unfold set_field. destruct kv as [k v].
  destruct (str_eqb k id_key) eqn:Ek.
  - destruct v; try discriminate.
    destruct (str_eqb s id); [ | discriminate ].
    intros H. injection H as <-. reflexivity.
  - intros H. injection H as <-.
    apply DictFacts.lookup_set_other. now apply DictFacts.str_eqb_neq.
Qed.

Lemma set_fields_keeps_id id data : forall d d',
  set_fields id data d = Ok d' -> lookup id_key d' = lookup id_key d.
Proof.
  induction data as [|kv data IH]; intros d d'; cbn [set_fields].
  - intros H. injection H as <-. reflexivity.
  - destruct (set_field id d kv) as [d1|] eqn:E1; [ | discriminate ].
    intros H. rewrite (IH _ _ H). eapply set_field_keeps_id; eauto.
Qed.

Lemma keeps_id_matches d d' :
  lookup id_key d' = lookup id_key d ->
  forall id, matches id d' = matches id d.
Proof. intros H id. unfold matches. now rewrite H. Qed.


(** What [$set] leaves in the document: the fields of the update, and the
    others as they were. *)
Lemma set_fields_lookup id data : forall d d',
  set_fields id data d = Ok d' ->
  NoDup (map fst data) ->
  (forall k v, lookup k data = Some v -> k <> id_key ->
               lookup k d' = Some v) /\
  (forall k, lookup k data = None -> lookup k d' = lookup k d).
Proof.
  induction data as [|[k0 v0] data IH]; intros d d'; cbn [set_fields].
  - intros H _. injection H as <-. split; [ discriminate | reflexivity ].
  - destruct (set_field id d (k0, v0)) as [d1|] eqn:E1; [ | discriminate ].
    intros H Hnd. cbn [map fst] in Hnd. inversion Hnd as [|? ? Hk0 Hnd']; subst.
    destruct (IH _ _ H Hnd') as [IH1 IH2].
    apply lookup_none in Hk0.
    split.
    + intros k v. cbn [lookup]. destruct (str_eqb k0 k) eqn:Ek.
      * apply DictFacts.str_eqb_eq in Ek. subst k0.
        intros Hv Hne. injection Hv as <-.
        rewrite (IH2 _ Hk0).
        unfold set_field in E1.
        apply DictFacts.str_eqb_neq in Hne. rewrite Hne in E1.
        injection E1 as <-. apply DictFacts.lookup_set_same.
      * intros Hv Hne. now apply IH1.
    + intros k. cbn [lookup]. destruct (str_eqb k0 k) eqn:Ek;
        [ discriminate | ].
      intros Hn. rewrite (IH2 _ Hn).
      unfold set_field in E1.
      destruct (str_eqb k0 id_key).
      * destruct v0; try discriminate.
        destruct (str_eqb s id); [ | discriminate ].
        now injection E1 as <-.
      * injection E1 as <-. apply DictFacts.lookup_set_other.
        now apply DictFacts.str_eqb_neq.
Qed.

(** [update_first] finds nothing exactly when no document matches. *)
Lemma update_first_none id data c :
  update_first id data c = None <-> find id c = [].
Proof.
  unfold find. induction c as [|d c IH]; cbn [update_first filter].
  - tauto.
  - destruct (matches id d).
    + split; discriminate.
    + destruct (update_first id data c) as [[c'|e]|].
      * split; [ discriminate | intros H; apply IH in H; discriminate ].
      * split; [ discriminate | intros H; apply IH in H; discriminate ].
      * tauto.
Qed.

(** When it finds one, it changes that document only, by [$set]. *)
Lemma update_first_ok id data c c' :
  update_first id data c = Some (Ok c') ->
  exists pre d post d',
    c = pre ++ d :: post /\ c' = pre ++ d' :: post /\
    find id pre = [] /\ matches id d = true /\
    set_fields id data d = Ok d'.
Proof.
  revert c'. induction c as [|d c IH]; intros c'; cbn [update_first].
  - discriminate.
  - destruct (matches id d) eqn:Em.
    + destruct (set_fields id data d) as [d'|] eqn:Es; [ | discriminate ].
      intros H. injection H as <-.
      exists [], d, c, d'. repeat split; auto.
    + destruct (update_first id data c) as [[c1|e]|]; try discriminate.
      intros H. injection H as <-.
      destruct (IH _ eq_refl) as (pre & d0 & post & d' & -> & -> & Hp & Hm & Hs).
      exists (d :: pre), d0, post, d'. repeat split; auto.
      unfold find in *. cbn [filter]. now rewrite Em.
Qed.

Lemma find_app id a b : find id (a ++ b) = find id a ++ find id b.
Proof. apply filter_app. Qed.

Lemma find_cons id d c :
  find id (d :: c) = if matches id d then d :: find id c else find id c.
Proof. reflexivity. Qed.

(** What a write that succeeds does to the documents under each
    identity. *)
Lemma update_one_ok id data c c' :
  update_one id data c = Ok c' ->
  exists d d',
    set_fields id data d = Ok d' /\
    matches id d' = true /\
    (forall id', List.length (find id' c') = List.length (find id' c)
                 \/ (find id c = [] /\ id' = id)) /\
    (forall id', id' <> id -> find id' c' = find id' c) /\
    ((find id c = [] /\ d = [(id_key, VStr id)] /\ c' = c ++ [d']) \/
     (exists pre post,
         c = pre ++ d :: post /\ c' = pre ++ d' :: post /\
         find id pre = [] /\ matches id d = true)).
Proof.
  unfold update_one.
  destruct (encodable data); [ | discriminate ].
  destruct (update_first id data c) as [[c1|e]|] eqn:Eu.
  - intros H. injection H as <-.
    destruct (update_first_ok _ _ _ _ Eu)
      as (pre & d & post & d' & -> & -> & Hp & Hm & Hs).
    pose proof (keeps_id_matches _ _ (set_fields_keeps_id _ _ _ _ Hs)) as Hk.
    exists d, d'. split; [ exact Hs | ].
    split; [ now rewrite Hk | ].
    assert (Hf : forall id', find id' (pre ++ d' :: post)
                             = find id' pre
                               ++ (if matches id' d then [d'] else [])
                               ++ find id' post).
    { intros id'. rewrite find_app. unfold find at 2. cbn [filter].
      rewrite Hk. destruct (matches id' d); reflexivity. }
    assert (Hg : forall id', find id' (pre ++ d :: post)
                             = find id' pre
                               ++ (if matches id' d then [d] else [])
                               ++ find id' post).
    { intros id'. rewrite find_app. unfold find at 2. cbn [filter].
      destruct (matches id' d); reflexivity. }
    split; [ | split ].
    + intros id'. left. rewrite Hf, Hg, !length_app.
      destruct (matches id' d); reflexivity.
    + intros id' Hne. rewrite Hf, Hg.
      destruct (matches id' d) eqn:Em'; [ | reflexivity ].
      exfalso. apply Hne. unfold matches in Hm, Em'.
      destruct (lookup id_key d) as [[]|]; try discriminate.
      apply DictFacts.str_eqb_eq in Hm, Em'. congruence.
    + right. exists pre, post. repeat split; auto.
  - discriminate.
  - apply update_first_none in Eu.
    destruct (set_fields id data [(id_key, VStr id)]) as [d'|] eqn:Es;
      [ | discriminate ].
    intros H. injection H as <-.
    pose proof (keeps_id_matches _ _ (set_fields_keeps_id _ _ _ _ Es)) as Hk.
    assert (Hm : matches id d' = true).
    { rewrite Hk. unfold matches. cbn [lookup].
      rewrite !DictFacts.str_eqb_refl. reflexivity. }
    exists [(id_key, VStr id)], d'. split; [ exact Es | ].
    split; [ exact Hm | ].
    split; [ | split ].
    + intros id'. destruct (str_eq_dec id' id) as [->|Hne].
      * right. now split.
      * left. rewrite find_app. unfold find at 2. cbn [filter].
        rewrite Hk. unfold matches. cbn [lookup].
        rewrite DictFacts.str_eqb_refl.
        assert (Hx : str_eqb id id' = false)
          by (apply DictFacts.str_eqb_neq; congruence).
        rewrite Hx, app_nil_r. reflexivity.
    + intros id' Hne. rewrite find_app. unfold find at 2. cbn [filter].
      rewrite Hk. unfold matches. cbn [lookup].
      rewrite DictFacts.str_eqb_refl.
      assert (Hx : str_eqb id id' = false)
        by (apply DictFacts.str_eqb_neq; congruence).
      now rewrite Hx, app_nil_r.
    + left. repeat split; auto.
Qed.

(** A write never removes a document: an identity that had one still has
    one, and the written identity has one. *)
Lemma update_one_keeps id data c c' :
  update_one id data c = Ok c' ->
  find id c' <> [] /\
  (forall id', find id' c <> [] -> find id' c' <> []).
Proof.
  intros H.
  destruct (update_one_ok _ _ _ _ H) as (d & d' & Hs & Hm & Hl & Hn & Hc).
  assert (Hid : find id c' <> []).
  { destruct Hc as [(_ & _ & ->) | (pre & post & _ & -> & _ & _)];
      rewrite find_app; unfold find at 2; cbn [filter]; rewrite Hm;
      intros Habs; apply app_eq_nil in Habs as [_ Habs]; discriminate. }
  split; [ exact Hid | ].
  intros id' Hf. destruct (str_eq_dec id' id) as [->|Hne]; [ exact Hid | ].
  now rewrite (Hn _ Hne).
Qed.

End MongoFacts.

(** ** Upsert *)

Module UpsertFacts.

Import Py Scraper Obs MethodFacts StampFacts.

(** One write that succeeds, on a collection whose identities are unique:
    afterwards the written identity has exactly one document, holding the
    fields of the update and, for the rest, what the document under that
    identity held before (nothing, if there was none); the other
    identities are as they were. *)
Lemma update_one_upsert id data c c' :
  Mongo.unique_ids c ->
  NoDup (map fst data) ->
  Mongo.update_one id data c = Ok c' ->
  Mongo.unique_ids c' /\
  (forall id', id' <> id -> Mongo.find id' c' = Mongo.find id' c) /\
  exists doc,
    Mongo.find id c' = [doc] /\
    lookup Mongo.id_key doc = Some (VStr id) /\
    (forall k v, lookup k data = Some v -> k <> Mongo.id_key ->
                 lookup k doc = Some v) /\
    (forall k, lookup k data = None -> k <> Mongo.id_key ->
               lookup k doc = match Mongo.find id c with
                              | old :: _ => lookup k old
                              | [] => None
                              end).
Proof.
  intros Hu Hnd H.
  destruct (MongoFacts.update_one_ok _ _ _ _ H)
    as (d & d' & Hs & Hm & Hl & Hn & Hc).
  destruct (MongoFacts.set_fields_lookup _ _ _ _ Hs Hnd) as [L1 L2].
  pose proof (MongoFacts.set_fields_keeps_id _ _ _ _ Hs) as Hk.
  assert (Hfind : Mongo.find id c' = [d'] /\
                  lookup Mongo.id_key d = Some (VStr id) /\
                  forall k, k <> Mongo.id_key ->
                            lookup k d = match Mongo.find id c with
                                         | old :: _ => lookup k old
                                         | [] => None
                                         end).
  { destruct Hc as [(Hf & -> & ->) | (pre & post & -> & -> & Hp & Hmd)].
    - rewrite MongoFacts.find_app, Hf, MongoFacts.find_cons, Hm.
      split; [ reflexivity | ]. split.
      + cbn [lookup]. now rewrite DictFacts.str_eqb_refl.
      + intros k Hne. cbn [lookup].
        assert (Hx : str_eqb Mongo.id_key k = false)
          by (apply DictFacts.str_eqb_neq; congruence).
        now rewrite Hx.
    - pose proof (Hu id) as Hone.
      rewrite MongoFacts.find_app, Hp, MongoFacts.find_cons, Hmd in Hone.
      cbn [app List.length] in Hone.
      assert (Hpost : Mongo.find id post = [])
        by (destruct (Mongo.find id post);
            [ reflexivity | cbn [List.length] in Hone; lia ]).
      rewrite !MongoFacts.find_app, Hp, !MongoFacts.find_cons, Hm, Hmd, Hpost.
      split; [ reflexivity | ]. split; [ | reflexivity ].
      unfold Mongo.matches in Hmd.
      destruct (lookup Mongo.id_key d) as [[]|]; try discriminate.
      apply DictFacts.str_eqb_eq in Hmd. now subst. }
  destruct Hfind as (Hf & Hid & Hold).
  split; [ | split; [ exact Hn | ] ].
  - intros id'. destruct (Hl id') as [He | [Hnone ->]].
    + rewrite He. apply Hu.
    + rewrite Hf. cbn [List.length]. lia.
  - exists d'. split; [ exact Hf | ].
    split; [ now rewrite Hk | ].
    split; [ exact L1 | ].
    intros k Hnone Hne. rewrite (L2 _ Hnone). now apply Hold.
Qed.

Lemma nodup_keys_set k v d :
  NoDup (map fst d) -> NoDup (map fst (set k v d)).
Proof.
  intros H. destruct (lookup k d) eqn:L.
  - rewrite DictFacts.keys_set_present by congruence. exact H.
  - rewrite DictFacts.set_absent by exact L.
    rewrite map_app. cbn [map fst].
    apply NoDup_app; [ exact H | repeat constructor; intros [] | ].
    intros x Hx [<-|[]]. now apply MongoFacts.lookup_none in L.
Qed.

(** C2, amended. Two records persisted one after the other for the same
    URL (the second may be the first as the first call left it): after
    each call the store holds exactly one document under the URL's
    identity, and identities stay unique; after the second, that document
    has every field of the second record as stamped, so its timestamp is
    the second one, while a field the second record does not have is as
    the first call left it; documents under other identities are
    untouched. The write sets fields on the document, it does not replace
    it. *)
Theorem upsert_keeps_one_document E url id d1 d2 s s1 s2 r1 r2 :
  generate_document_id url = Ok id ->
  NoDup (map fst d1) -> NoDup (map fst d2) ->
  Mongo.plain d1 = true -> Mongo.plain d2 = true ->
  Mongo.unique_ids (collection s) ->
  save_to_mongodb E (VDict d1) url s = (Ok (true, r1), s1) ->
  save_to_mongodb E (VDict d2) url s1 = (Ok (true, r2), s2) ->
  exists doc1 doc2 fields2 md2,
    Mongo.find id (collection s1) = [doc1] /\
    Mongo.find id (collection s2) = [doc2] /\
    Mongo.unique_ids (collection s2) /\
    lookup Mongo.id_key doc2 = Some (VStr id) /\
    r2 = VDict fields2 /\
    (forall k v, lookup k fields2 = Some v -> k <> Mongo.id_key ->
                 lookup k doc2 = Some v) /\
    (forall k, lookup k fields2 = None -> k <> Mongo.id_key ->
               lookup k doc2 = lookup k doc1) /\
    lookup (lit "metadata") doc2 = Some (VDict md2) /\
    lookup (lit "scrape_timestamp") md2
    = Some (VStr (Clock.isoformat (clock E (ticks s1)))) /\
    (forall id', id' <> id ->
                 Mongo.find id' (collection s2) = Mongo.find id' (collection s)).
Proof.
  intros Hid N1 N2 _ _ Hu H1 H2.
  destruct (save_true _ _ _ _ _ _ H1)
    as (b1 & d1' & md1 & He1 & Hd1 & Hm1 & -> & _ & U1 & _).
  destruct (save_true _ _ _ _ _ _ H2)
    as (b2 & d2' & md2 & He2 & Hd2 & Hm2 & -> & _ & U2 & _).
  injection Hd1 as <-. injection Hd2 as <-.
  rewrite He1 in He2. injection He2 as <-.
  unfold generate_document_id in Hid. rewrite He1 in Hid.
  injection Hid as <-.
  set (id := MD5.hexdigest b1) in *.
  set (f1 := stamped url (clock E (ticks s)) id d1 md1) in *.
  set (f2 := stamped url (clock E (ticks s1)) id d2 md2) in *.
  assert (Nf1 : NoDup (map fst f1)) by now apply nodup_keys_set.
  assert (Nf2 : NoDup (map fst f2)) by now apply nodup_keys_set.
  destruct (update_one_upsert _ _ _ _ Hu Nf1 U1)
    as (Hu1 & Ho1 & doc1 & Hf1 & _ & _ & _).
  destruct (update_one_upsert _ _ _ _ Hu1 Nf2 U2)
    as (Hu2 & Ho2 & doc2 & Hf2 & Hi2 & Hset & Hkeep).
  rewrite Hf1 in Hkeep.
  exists doc1, doc2, f2, (update md2 (stamp url (clock E (ticks s1)) id)).
  repeat (split; [ assumption || reflexivity | ]).
  split; [ | split ].
  - apply Hset; [ apply DictFacts.lookup_set_same | ].
    vm_compute. discriminate.
  - apply stamp_scrape_timestamp.
  - intros id' Hne. now rewrite Ho2, Ho1.
Qed.

End UpsertFacts.

(** ** Failures stay local *)

Module IsolationFacts.

Import Py Scraper Obs MethodFacts BatchFacts StampFacts.

(** *** What the driver can encode *)






Section Encodable.

Variable P : str * value -> bool.



End Encodable.





Section WithEnv.

Variable E : env.
Variable self : scraper.

Lemma turn_keeps_documents acc url s r s' evs :
  turn E self acc url s r s' evs -> keeps_documents s s'.
Proof.
  destruct 1; intros i Hi; try congruence.
  match goal with
  | H : _ \/ _ |- _ => destruct H as [[_ U] | [_ Hc]]
  end.
  - now apply (MongoFacts.update_one_keeps _ _ _ _ U).
  - congruence.
Qed.

Lemma batch_keeps_documents urls acc s r s' evs :
  batch E self urls acc s r s' evs -> keeps_documents s s'.
Proof.
  induction 1; intros i Hi; auto.
  - eapply turn_keeps_documents; eauto.
  - apply IHbatch. eapply turn_keeps_documents; eauto.
Qed.








End WithEnv.


End IsolationFacts.

(** ** Sample runs *)

Module RunFacts.

Import Py Scraper Obs Vocab MethodFacts BatchFacts StampFacts TimestampFacts
       UpsertFacts IsolationFacts.


(** The run of the witness, in full: three records exported, each
    stamped. *)
Example run_ok_exports_three :
  exists s' r1 r2 r3,
    process_urls Samples.env_ok Samples.self Samples.urls_csv
                 (Some Samples.out_json) initial = (Ok tt, s') /\
    files s' = [(Samples.out_json, [r1; r2; r3])] /\
    List.length (collection s') = 3%nat.
Proof.
  do 4 eexists. split; [ vm_compute; reflexivity | ].
  split; reflexivity.
Qed.

(** C8, as stated, fails: a run over three URLs, the second of which
    cannot be fetched, returns nothing but [None], and what it gathered and
    exported has two entries, not one per URL. *)
Lemma failed_url_has_no_outcome :
  exists s' results,
    csv_rows Samples.env_fetch_fails_p2 Samples.urls_csv
    = Some [[Samples.url_p1]; [Samples.url_p2]; [Samples.url_p3]] /\
    process_urls Samples.env_fetch_fails_p2 Samples.self Samples.urls_csv
                 (Some Samples.out_json) initial = (Ok tt, s') /\
    fst (for_urls Samples.env_fetch_fails_p2 Samples.self
                  [Samples.url_p1; Samples.url_p2; Samples.url_p3] []
                  initial) = Ok results /\
    files s' = [(Samples.out_json, results)] /\
    List.length results = 2%nat.
Proof.
  do 2 eexists. split; [ reflexivity | ].
  split; [ vm_compute; reflexivity | ].
  split; [ vm_compute; reflexivity | ].
  split; reflexivity.
Qed.

(** C10, as stated, fails: a record whose metadata is [null] goes through
    [save_to_mongodb] untouched and is exported without a stamp. *)
Lemma null_metadata_exported_unstamped :
  exists s',
    process_urls Samples.env_null_metadata Samples.self Samples.urls_csv
                 (Some Samples.out_json) initial = (Ok tt, s') /\
    files s' = [(Samples.out_json, [Samples.record_null_metadata])] /\
    ~ carries_stamp Samples.url_p1 Samples.record_null_metadata.
Proof.
  eexists. split; [ vm_compute; reflexivity | ].
  split; [ reflexivity | ].
  intros (fields & md & id & t & Hr & Hm & _).
  injection Hr as <-. vm_compute in Hm. discriminate.
Qed.

Lemma stamping_frame_witness :
  Utf8.encode Samples.url_p1 = Some Samples.url_p1 /\
  metadata_of Samples.record_fields = Some Samples.record_metadata /\
  exists b fields s',
    save_to_mongodb Samples.env_ok Samples.record Samples.url_p1 initial
    = (Ok (b, VDict fields), s') /\
    (forall k, k <> lit "metadata" ->
               lookup k fields = lookup k Samples.record_fields).
Proof.
  split; [ reflexivity | split; [ reflexivity | ] ].
  destruct (proj1 (stamping_frame Samples.env_ok Samples.self)
                  Samples.url_p1 Samples.url_p1 Samples.record_fields
                  Samples.record_metadata initial eq_refl eq_refl)
    as (b & fields & s' & line & Hs & _ & _ & _ & _ & _ & Hk & _).
  exists b, fields, s'. split; assumption.
Defined.

(** What the stamp looks like: [source_url] is overwritten where it
    stood, the two new keys go last, [schema_version] stays. *)
Example stamp_sample :
  exists s',
    save_to_mongodb Samples.env_ok Samples.record Samples.url_p1 initial
    = (Ok (true,
           VDict
             [(lit "product_details",
               VDict [(lit "name", VStr (lit "Lamp"))]);
              (lit "classification_tags", VList [VStr (lit "brass")]);
              (lit "metadata",
               VDict
                 [(lit "source_url", VStr Samples.url_p1);
                  (lit "schema_version", VStr (lit "1.0"));
                  (lit "scrape_timestamp", VStr (lit "2024-05-17T10:30:00"));
                  (lit "_id",
                   VStr (lit "310ce85c12e3fc6d0c10076195635a1b"))])]),
       s').
Proof. eexists. vm_compute. reflexivity. Qed.




(** C2, as stated, fails: the write is not a replace. The same URL
    scraped twice, the second record without a field the first one had:
    the one document under its identity still has that field. *)
Lemma upsert_merges_not_replaces :
  exists s' r1 latest doc,
    process_urls Samples.env_rescrape Samples.self Samples.urls_csv
                 (Some Samples.out_json) initial = (Ok tt, s') /\
    files s' = [(Samples.out_json, [r1; VDict latest])] /\
    collection s' = [doc] /\
    lookup (lit "discontinued") latest = None /\
    lookup (lit "discontinued") doc = Some (VBool true).
Proof.
  do 4 eexists. split; [ vm_compute; reflexivity | ].
  repeat split; reflexivity.
Qed.

Lemma upsert_keeps_one_document_witness :
  let r1 := save_to_mongodb Samples.env_ok Samples.record Samples.url_p1
                            initial in
  let d2 := Samples.fields_of (Samples.record_after r1) in
  let r2 := save_to_mongodb Samples.env_ok (VDict d2) Samples.url_p1
                            (snd r1) in
  let id := MD5.hexdigest Samples.url_p1 in
  generate_document_id Samples.url_p1 = Ok id /\
  r1 = (Ok (true, VDict d2), snd r1) /\
  r2 = (Ok (true, Samples.record_after r2), snd r2) /\
  exists doc2,
    Mongo.find id (collection (snd r2)) = [doc2] /\
    Mongo.unique_ids (collection (snd r2)) /\
    lookup Mongo.id_key doc2 = Some (VStr id).
Proof.
  cbv zeta.
  set (r1 := save_to_mongodb Samples.env_ok Samples.record Samples.url_p1
                             initial).
  set (d2 := Samples.fields_of (Samples.record_after r1)).
  set (r2 := save_to_mongodb Samples.env_ok (VDict d2) Samples.url_p1
                             (snd r1)).
  set (id := MD5.hexdigest Samples.url_p1).
  assert (Hg : generate_document_id Samples.url_p1 = Ok id) by reflexivity.
  assert (H1 : r1 = (Ok (true, VDict d2), snd r1))
    by (vm_compute; reflexivity).
  assert (H2 : r2 = (Ok (true, Samples.record_after r2), snd r2))
    by (vm_compute; reflexivity).
  assert (N1 : NoDup (map fst Samples.record_fields))
    by (vm_compute; repeat (constructor; [ cbn [In]; intuition discriminate | ]);
        constructor).
  assert (N2 : NoDup (map fst d2))
    by (vm_compute; repeat (constructor; [ cbn [In]; intuition discriminate | ]);
        constructor).
  assert (P1 : Mongo.plain Samples.record_fields = true) by reflexivity.
  assert (P2 : Mongo.plain d2 = true) by (vm_compute; reflexivity).
  assert (U : Mongo.unique_ids (collection initial))
    by (intros i; cbn; lia).
  split; [ exact Hg | ]. split; [ exact H1 | ]. split; [ exact H2 | ].
  destruct (upsert_keeps_one_document
              Samples.env_ok Samples.url_p1 id Samples.record_fields d2
              initial (snd r1) (snd r2) (VDict d2) (Samples.record_after r2)
              Hg N1 N2 P1 P2 U H1 H2)
    as (doc1 & doc2 & fields2 & md2 & _ & Hf & Hu & Hi & _).
  exists doc2. repeat split; assumption.
Defined.




(** C5, at the failing input. The rendering service answers 302 with a
    JSON body: the status is not 200, the body is printed as an error
    response, [raise_for_status] raises nothing below 400, and the method
    returns the parsed body as content. *)
Theorem fetch_returns_content_on_302 :
  let r := fetch_page_content Samples.env_302 Samples.self Samples.url_p1
                              initial in
  jina Samples.env_302 0 Samples.url_p1
  = Response 302 (lit "{...}") (Some Samples.page) /\
  fst r = Ok Samples.page /\
  trace (snd r)
  = [Print (Debug_fetching Samples.url_p1);
     Print (Debug_headers (jina_headers Samples.self));
     post_of Samples.self Samples.url_p1;
     Print (Debug_status 302);
     Print (Debug_error_content (lit "{...}"))].
Proof. cbv zeta. repeat split; reflexivity. Qed.

(** The same for every status below 400 other than 200. *)
Lemma fetch_error_branch_returns_content E self url s status text v :
  jina E (posts s) url = Response status text (Some v) ->
  status <> 200 -> is_error_status status = false ->
  fst (fetch_page_content E self url s) = Ok v.
Proof.
  intros Hj _ He.
  destruct (fetch_spec E self url s)
    as (r & evs & s' & Hf & _ & _ & _ & _ & _ & Hp).
  rewrite Hf, Hj in *. cbn [fst post_escapes] in *.
  destruct Hp as (page & -> & Hp).
  inversion Hp; subst; congruence.
Qed.


(** [process_single_url] hands back nothing either way; a failed fetch
    shows as a printed line. *)
Example single_url_ok :
  exists s',
    process_single_url Samples.env_ok Samples.self Samples.url_p1
                       (Some Samples.out_json) initial = (Ok tt, s') /\
    List.length (collection s') = 1%nat /\
    List.length (files s') = 1%nat.
Proof. eexists. split; [ vm_compute; reflexivity | split; reflexivity ]. Qed.

Example single_url_fetch_fails :
  exists s',
    process_single_url Samples.env_fetch_fails_p2 Samples.self
                       Samples.url_p2 (Some Samples.out_json) initial
    = (Ok tt, s') /\
    last (trace s') (Print Failed_to_fetch) = Print Failed_to_fetch /\
    calls (trace s') = [post_of Samples.self Samples.url_p2] /\
    files s' = [].
Proof.
  eexists. split; [ vm_compute; reflexivity | repeat split; reflexivity ].
Qed.

(** The default collection name is one the driver takes. *)
Lemma has_char_below c name :
  Forall (fun x => c < x) name -> has_char c name = false.
Proof.
  unfold has_char. induction 1 as [|x name Hx _ IH]; cbn [existsb]; auto.
  rewrite IH. destruct (Z.eqb_spec c x); [ lia | reflexivity ].
Qed.

Lemma no_dot_pair name :
  Forall (fun x => 46 < x) name -> is_infix (lit "..") name = false.
Proof.
  induction 1 as [|x name Hx _ IH]; [ reflexivity | ].
  change (is_infix (lit "..") (x :: name))
    with (is_prefix (lit "..") (x :: name) || is_infix (lit "..") name).
  rewrite IH.
  change (lit "..") with [46; 46]. cbn [is_prefix].
  destruct (Z.eqb_spec 46 x); [ lia | reflexivity ].
Qed.

Lemma last_above c (name : str) d :
  Forall (fun x => c < x) name -> name <> [] -> c < last name d.
Proof.
  induction 1 as [|x name Hx Hn IH]; [ congruence | intros _ ].
  destruct name as [|y name]; [ exact Hx | ].
  change (last (x :: y :: name) d) with (last (y :: name) d).
  apply IH. discriminate.
Qed.

Lemma plain_name_valid c name :
  Forall (fun x => 46 < x) (c :: name) ->
  valid_collection_name (c :: name) = true.
Proof.
  intros H. unfold valid_collection_name.
  rewrite (no_dot_pair _ H).
  rewrite (has_char_below 36 (c :: name))
    by (eapply Forall_impl; [ | exact H ]; cbv beta; intros; lia).
  rewrite (has_char_below 0 (c :: name))
    by (eapply Forall_impl; [ | exact H ]; cbv beta; intros; lia).
  pose proof (last_above 46 (c :: name) 0 H ltac:(discriminate)) as Hl.
  inversion H as [|? ? Hc _]; subst.
  destruct (Z.eqb_spec c 46); [ lia | ].
  destruct (Z.eqb_spec (last (c :: name) 0) 46); [ lia | ].
  reflexivity.
Qed.

Lemma dec_digits w : forall n, Forall (fun x => 46 < x) (Clock.dec w n).
Proof.
  induction w as [|w IH]; intros n; cbn [Clock.dec]; [ constructor | ].
  apply Forall_app. split; [ apply IH | ].
  constructor; [ | constructor ].
  pose proof (Z.mod_pos_bound n 10). lia.
Qed.

Lemma default_name_valid t :
  valid_collection_name (lit "product_data_" ++ Clock.strftime_compact t)
  = true.
Proof.
  change (lit "product_data_")
    with [112; 114; 111; 100; 117; 99; 116; 95; 100; 97; 116; 97; 95].
  cbn [app]. apply plain_name_valid.
  repeat (constructor; [ lia | ]).
  assert (Hd : forall w n l,
                 Forall (fun x => 46 < x) l ->
                 Forall (fun x => 46 < x) (Clock.dec w n ++ l))
    by (intros; apply Forall_app; split; [ apply dec_digits | assumption ]).
  unfold Clock.strftime_compact, Clock.year_digits.
  apply Forall_app. split.
  - destruct (Clock.year t <? 10); [ apply dec_digits | ].
    destruct (Clock.year t <? 100); [ apply dec_digits | ].
    destruct (Clock.year t <? 1000); apply dec_digits.
  - do 2 apply Hd. constructor; [ lia | ].
    do 2 apply Hd. apply dec_digits.
Qed.

(** C9, as stated, fails. With the required key set and the optional
    configuration absent, startup halts all the same: the constructor of
    the language-model client raises when it is given no key, in
    [__init__], before anything is read or requested. And with every key
    set the run still ends on an uncaught exception when the input file
    cannot be read and, after a first request, when the page has
    ["data": null]. *)
Lemma fatal_without_missing_key :
  (getenv Samples.environ_jina_only (lit "JINA_API_KEY")
   = Some (lit "jina_secret") /\
   exists msg s',
      script Samples.env_ok Samples.environ_jina_only initial
      = (Raise (OpenAIError msg), s') /\
      calls (trace s') = []) /\
  (exists cfg, module_init Samples.environ_full = Ok cfg) /\
  (exists cause s',
      script Samples.env_no_csv Samples.environ_full initial
      = (Raise (OSError cause), s') /\
      count is_post (trace s') = 0%nat) /\
  (exists s',
      script Samples.env_data_null Samples.environ_full initial
      = (Raise AttributeError, s') /\
      count is_post (trace s') = 1%nat).
Proof.
  split.
  { split; [ reflexivity | ].
    do 2 eexists. split; [ vm_compute; reflexivity | reflexivity ]. }
  split; [ eexists; reflexivity | ].
  split.
  - do 2 eexists. split; [ vm_compute; reflexivity | reflexivity ].
  - eexists. split; [ vm_compute; reflexivity | reflexivity ].
Qed.

(** C9, amended. A missing or empty [JINA_API_KEY] ends the script with
    [ValueError] before it does anything. With that key set, the
    module-level statements pass whatever else is set, and: without
    [OPENAI_API_KEY] the script still ends at startup, with the
    [OpenAIError] of the client constructor, having read the clock once
    and printed the start of the authorization header and nothing else;
    with [OPENAI_API_KEY] set and [MONGODB_URI] absent nothing is raised
    or said about it: [__init__] returns, having printed the same line
    and the collection name, and the script goes on to [process_urls] on
    [urls.csv]. *)
Theorem startup_check E environ s :
  (getenv environ (lit "JINA_API_KEY") = None \/
   getenv environ (lit "JINA_API_KEY") = Some [] ->
   exists msg, script E environ s = (Raise (ValueError msg), s)) /\
  (forall key,
      getenv environ (lit "JINA_API_KEY") = Some key -> key <> [] ->
      let shown :=
        Print (Debug_authorization
                 (firstn 15 (lit "Bearer " ++ key) ++ lit "...")) in
      let name :=
        lit "product_data_" ++ Clock.strftime_compact (clock E (ticks s)) in
      let started evs :=
        mkState (posts s) (chats s) (S (ticks s)) (writes s) (dumps s)
                (collection s) (files s) (trace s ++ evs) in
      (getenv environ (lit "OPENAI_API_KEY") = None ->
       exists msg,
         script E environ s = (Raise (OpenAIError msg), started [shown])) /\
      (getenv environ (lit "OPENAI_API_KEY") <> None ->
       getenv environ (lit "MONGODB_URI") = None ->
       exists self,
         header (lit "Authorization") (jina_headers self)
         = Some (lit "Bearer " ++ key) /\
         script E environ s
         = process_urls E self (lit "urls.csv")
                        (Some (lit "scraped_data.json"))
                        (started [shown; Print (Using_collection name)]))).
Proof.
  split.
  - intros H. unfold script, module_init, bind, lift.
    destruct H as [-> | ->]; eexists; reflexivity.
  - intros key Hk Hne. cbv zeta.
    destruct key as [|c key]; [ congruence | ].
    split.
    + intros Ho. eexists.
      unfold script, module_init, bind, lift. rewrite Hk, Ho.
      destruct s as [np nc nt nw nd col fs tr].
      cbv beta iota zeta delta
        [main __init__ bind now print emit modify ret raise
         openai_client OPENAI_API_KEY JINA_API_KEY
         posts chats ticks writes dumps collection files trace].
      reflexivity.
    + intros Ho Hm.
      destruct (getenv environ (lit "OPENAI_API_KEY")) as [k|] eqn:Hok;
        [ clear Ho | congruence ].
      eexists. split; [ | ].
      2:{ unfold script, module_init, bind, lift. rewrite Hk, Hok, Hm.
          destruct s as [np nc nt nw nd col fs tr].
          cbv beta iota zeta delta
            [main __init__ bind now print emit modify ret raise
             openai_client mongo_client_of check_name
             OPENAI_API_KEY MONGODB_URI JINA_API_KEY
             posts chats ticks writes dumps collection files trace].
          rewrite default_name_valid.
          change (valid_db_name (lit "web_scraper")) with true.
          cbv beta iota.
          rewrite <- app_assoc. reflexivity. }
      reflexivity.
Qed.

Lemma startup_check_witness :
  getenv Samples.environ_jina_only (lit "JINA_API_KEY")
  = Some (lit "jina_secret") /\
  lit "jina_secret" <> [] /\
  getenv Samples.environ_jina_only (lit "OPENAI_API_KEY") = None /\
  getenv Cases.environ_no_uri (lit "OPENAI_API_KEY") <> None /\
  getenv Cases.environ_no_uri (lit "MONGODB_URI") = None /\
  getenv Samples.environ_no_jina (lit "JINA_API_KEY") = None /\
  (exists msg s',
      script Samples.env_ok Samples.environ_jina_only initial
      = (Raise (OpenAIError msg), s') /\ ticks s' = 1%nat) /\
  (exists self s1,
      script Samples.env_ok Cases.environ_no_uri initial
      = process_urls Samples.env_ok self (lit "urls.csv")
                     (Some (lit "scraped_data.json")) s1 /\
      ticks s1 = 1%nat) /\
  exists msg,
    script Samples.env_ok Samples.environ_no_jina initial
    = (Raise (ValueError msg), initial).
Proof.
  assert (Hne : lit "jina_secret" <> []) by discriminate.
  assert (Ho : getenv Cases.environ_no_uri (lit "OPENAI_API_KEY") <> None)
    by discriminate.
  split; [ reflexivity | ]. split; [ exact Hne | ].
  split; [ reflexivity | ]. split; [ exact Ho | ].
  split; [ reflexivity | ]. split; [ reflexivity | ].
  split; [ | split ].
  - destruct (proj1 (proj2 (startup_check Samples.env_ok
                              Samples.environ_jina_only initial)
                           (lit "jina_secret") eq_refl Hne) eq_refl)
      as [msg Hs].
    do 2 eexists. split; [ exact Hs | reflexivity ].
  - destruct (proj2 (proj2 (startup_check Samples.env_ok
                              Cases.environ_no_uri initial)
                           (lit "jina_secret") eq_refl Hne) Ho eq_refl)
      as (self & _ & Hs).
    do 2 eexists. split; [ exact Hs | reflexivity ].
  - exact (proj1 (startup_check Samples.env_ok Samples.environ_no_jina
                                initial)
                 (or_introl eq_refl)).
Defined.

End RunFacts.

(** ** Reading the input file *)

Module CsvFacts.

Import Py Scraper Obs Vocab.

Lemma lstrip_split s :
  exists l, s = l ++ lstrip s /\ blank l = true /\
            starts_clean (lstrip s) = true.
Proof.
  induction s as [|c s (l & Hs & Hl & Hc)]; cbn [lstrip].
  - exists []. repeat split.
  - destruct (isspace c) eqn:Ec.
    + exists (c :: l). cbn [app blank forallb]. rewrite Ec.
      split; [ now rewrite <- Hs | split; assumption ].
    + exists []. cbn [app starts_clean]. rewrite Ec. repeat split.
Qed.

Lemma blank_rev s : blank (rev s) = blank s.
Proof.
  unfold blank. induction s as [|c s IH]; cbn [rev forallb]; auto.
  rewrite forallb_app, IH. cbn [forallb]. rewrite andb_true_r.
  apply andb_comm.
Qed.

Lemma lstrip_clean s : starts_clean s = true -> lstrip s = s.
Proof.
  destruct s as [|c s]; cbn [starts_clean lstrip]; auto.
  destruct (isspace c); [ discriminate | reflexivity ].
Qed.

Lemma lstrip_blank s : blank s = true -> lstrip s = [].
Proof.
  unfold blank. induction s as [|c s IH]; cbn [forallb lstrip]; auto.
  destruct (isspace c); [ exact IH | discriminate ].
Qed.

(** What [strip] takes away and what it leaves. *)
Lemma strip_split s :
  exists l r, s = l ++ strip s ++ r /\ blank l = true /\ blank r = true /\
              trimmed (strip s).
Proof.
  unfold strip.
  destruct (lstrip_split s) as (l & Hs & Hl & Hc).
  destruct (lstrip_split (rev (lstrip s))) as (r & Hr & Hb & Hd).
  set (t := lstrip s) in *. set (u := lstrip (rev t)) in *.
  assert (Ht : t = rev u ++ rev r).
  { rewrite <- rev_app_distr, <- Hr. symmetry. apply rev_involutive. }
  exists l, (rev r). split; [ | split; [ | split; [ | split ] ] ].
  - rewrite <- Ht. exact Hs.
  - exact Hl.
  - now rewrite blank_rev.
  - rewrite Ht in Hc. destruct (rev u) as [|c w]; [ reflexivity | exact Hc ].
  - now rewrite rev_involutive.
Qed.

Lemma strip_trimmed s : trimmed s -> strip s = s.
Proof.
  intros [H1 H2]. unfold strip.
  rewrite (lstrip_clean _ H1), (lstrip_clean _ H2).
  apply rev_involutive.
Qed.

Lemma strip_blank s : blank s = true -> strip s = [].
Proof.
  intros H. unfold strip. now rewrite (lstrip_blank _ H).
Qed.

Lemma first_cells_app a b :
  first_cells (a ++ b) = first_cells a ++ first_cells b.
Proof. unfold first_cells. apply flat_map_app. Qed.

Lemma first_cells_in cell rest rows :
  In (cell :: rest) rows -> In (strip cell) (first_cells rows).
Proof.
  intros H. unfold first_cells. apply in_flat_map.
  exists (cell :: rest). split; [ exact H | now left ].
Qed.

(** X3. Every URL [read_urls_from_csv] returns is the first cell of a row
    of the file without the whitespace around it: the cell is the URL
    between two runs of whitespace, the URL has no whitespace at either
    end (whitespace inside it stays), and stripping it again changes
    nothing. *)
Theorem csv_urls_are_trimmed_cells rows :
  Forall (fun url =>
            exists cell rest l r,
              In (cell :: rest) rows /\
              cell = l ++ url ++ r /\
              blank l = true /\ blank r = true /\
              trimmed url /\ strip url = url)
         (first_cells rows).
Proof.
  apply Forall_forall. intros url Hin.
  unfold first_cells in Hin. apply in_flat_map in Hin as (row & Hrow & Hu).
  destruct row as [|cell rest]; [ contradiction | ].
  destruct Hu as [<- | []].
  destruct (strip_split cell) as (l & r & Hs & Hl & Hr & Ht).
  exists cell, rest, l, r.
  split; [ exact Hrow | ]. split; [ exact Hs | ].
  split; [ exact Hl | ]. split; [ exact Hr | ].
  split; [ exact Ht | now apply strip_trimmed ].
Qed.

End CsvFacts.

(** ** The loop, further *)

Module LoopFacts.

Import Py Scraper Obs Vocab MethodFacts BatchFacts.
Local Open Scope py_scope.

Lemma filter_calls p evs :
  (forall e, p e = true -> is_call e = true) ->
  filter p evs = filter p (calls evs).
Proof.
  intros Hp. unfold calls.
  induction evs as [|e evs IH]; cbn [filter]; auto.
  destruct (p e) eqn:Pe.
  - rewrite (Hp _ Pe). cbn [filter]. rewrite Pe. now f_equal.
  - destruct (is_call e); cbn [filter]; rewrite ?Pe; exact IH.
Qed.

Lemma requests_app a b : requests (a ++ b) = requests a ++ requests b.
Proof. apply filter_app. Qed.

Lemma run_requests self url cs :
  run_of self url cs -> filter is_post cs = [post_of self url].
Proof. destruct 1; reflexivity. Qed.

Section WithEnv.

Variable E : env.
Variable self : scraper.

Lemma turn_requests acc url s r s' evs :
  turn E self acc url s r s' evs -> requests evs = [post_of self url].
Proof.
  intros H. unfold requests.
  rewrite (filter_calls _ _ post_is_call).
  apply run_requests. eapply turn_run; eauto.
Qed.

(** The requests of the loop: one per URL it got to, in the order of the
    list. *)
Lemma batch_requests urls acc s r s' evs :
  batch E self urls acc s r s' evs ->
  exists reached rest,
    urls = reached ++ rest /\
    requests evs = map (post_of self) reached /\
    (forall results, r = Ok results -> rest = []).
Proof.
  induction 1 as [acc s | url rest acc s e s' evs Ht
                 | url rest acc s acc' s1 evs1 r s2 evs2 Ht Hb IH].
  - exists [], []. repeat split.
  - exists [url], rest. split; [ reflexivity | ].
    split; [ eapply turn_requests; eauto | discriminate ].
  - destruct IH as (reached & rest' & -> & Hq & Hr).
    exists (url :: reached), rest'. split; [ reflexivity | ].
    split; [ | exact Hr ].
    rewrite requests_app, (turn_requests _ _ _ _ _ _ Ht), Hq. reflexivity.
Qed.

Lemma turn_raise_kind acc url s e s' evs :
  turn E self acc url s (Raise e) s' evs ->
  (e = TypeError \/ e = AttributeError) \/
  post_escapes (jina E (posts s) url) = Some e.
Proof.
  inversion 1; subst; [ left | now right ].
  eapply crash_is_type_or_attribute; eauto.
Qed.

(** What a turn does to the number of documents and to the invariant of
    the store. *)
Lemma update_one_size id data c c' :
  Mongo.update_one id data c = Ok c' ->
  (List.length c <= List.length c' <= S (List.length c))%nat /\
  (Mongo.unique_ids c -> Mongo.unique_ids c').
Proof.
  intros H.
  destruct (MongoFacts.update_one_ok _ _ _ _ H)
    as (d & d' & Hs & Hm & Hl & Hn & Hc).
  split.
  - destruct Hc as [(_ & _ & ->) | (pre & post & -> & -> & _)];
      rewrite !length_app; cbn [List.length]; lia.
  - intros Hu id'. destruct (Hl id') as [-> | [He ->]]; [ apply Hu | ].
    destruct Hc as [(_ & _ & ->) | (pre & post & -> & _ & Hp & Hmd)].
    + rewrite MongoFacts.find_app, He. unfold Mongo.find. cbn [filter app].
      destruct (Mongo.matches id d'); cbn [List.length]; lia.
    + exfalso. rewrite MongoFacts.find_app, MongoFacts.find_cons, Hmd in He.
      apply app_eq_nil in He as [_ He]. discriminate.
Qed.

Lemma turn_size acc url s r s' evs :
  turn E self acc url s r s' evs ->
  (List.length (collection s) <= List.length (collection s')
   <= S (List.length (collection s)))%nat /\
  (Mongo.unique_ids (collection s) -> Mongo.unique_ids (collection s')).
Proof.
  destruct 1;
    try match goal with
        | H : collection _ = collection _ |- _ =>
            rewrite H; split; [ lia | auto ]
        end.
  match goal with
  | H : _ \/ _ |- _ => destruct H as [[_ U] | [_ Hc]]
  end.
  - eapply update_one_size; eauto.
  - rewrite Hc. split; [ lia | auto ].
Qed.

Lemma batch_size urls acc s r s' evs :
  batch E self urls acc s r s' evs ->
  (List.length (collection s) <= List.length (collection s')
   <= List.length (collection s) + List.length urls)%nat /\
  (Mongo.unique_ids (collection s) -> Mongo.unique_ids (collection s')).
Proof.
  induction 1 as [acc s | url rest acc s e s' evs Ht
                 | url rest acc s acc' s1 evs1 r s2 evs2 Ht Hb IH];
    cbn [List.length].
  - split; [ lia | auto ].
  - destruct (turn_size _ _ _ _ _ _ Ht) as [Hl Hu]. split; [ lia | auto ].
  - destruct (turn_size _ _ _ _ _ _ Ht) as [Hl Hu].
    destruct IH as [Hl' Hu']. split; [ lia | auto ].
Qed.

(** What one turn costs. *)
Lemma turn_budget acc url s r s' evs :
  turn E self acc url s r s' evs ->
  (count is_update evs <= count is_chat evs <= count is_post evs)%nat /\
  count is_post evs = 1%nat /\
  ticks s' = (ticks s + count is_chat evs + count is_update evs)%nat.
Proof.
  intros H.
  rewrite (count_calls _ _ update_is_call), (count_calls _ _ chat_is_call),
    (count_calls _ _ post_is_call).
  destruct H;
    match goal with
    | H : calls _ = _, T : ticks _ = _ |- _ => rewrite H, T
    end;
    count_calc; lia.
Qed.

Lemma batch_budget urls acc s r s' evs :
  batch E self urls acc s r s' evs ->
  (count is_update evs <= count is_chat evs <= count is_post evs)%nat /\
  (count is_post evs <= List.length urls)%nat /\
  ticks s' = (ticks s + count is_chat evs + count is_update evs)%nat.
Proof.
  induction 1 as [acc s | url rest acc s e s' evs Ht
                 | url rest acc s acc' s1 evs1 r s2 evs2 Ht Hb IH];
    cbn [List.length].
  - unfold count. cbn [filter List.length]. lia.
  - destruct (turn_budget _ _ _ _ _ _ Ht) as (Hc & Hp & Hk). lia.
  - destruct (turn_budget _ _ _ _ _ _ Ht) as (Hc & Hp & Hk).
    destruct IH as (Hc' & Hp' & Hk'). rewrite !count_app. lia.
Qed.

End WithEnv.

(** X4. The loop composes: running it over a list in two parts is
    running it over the first part, then over the second from the state
    and with the records the first part left; and an exception in the
    first part ends the run there, so nothing is done for the URLs after
    it. *)
Theorem loop_composes E self a b : forall acc s,
  for_urls E self (a ++ b) acc s
  = match for_urls E self a acc s with
    | (Ok acc', s1) => for_urls E self b acc' s1
    | (Raise e, s1) => (Raise e, s1)
    end.
Proof.
  induction a as [|url a IH]; intros acc s; cbn [app for_urls].
  - reflexivity.
  - unfold bind.
    destruct (process_url E self acc url s) as [[acc1|e] s1].
    + apply IH.
    + reflexivity.
Qed.

(** X5. The requests of the loop follow the list: whatever happens, it
    calls [requests.post] once for each URL it gets to, in the order of
    the list, for the one endpoint, with the scraper's headers and the 30
    second timeout, and nothing else; when the loop returns it got to
    every URL of the list, duplicates included. *)
Theorem loop_requests_follow_the_list E self urls acc s :
  exists evs reached rest,
    trace (snd (for_urls E self urls acc s)) = trace s ++ evs /\
    urls = reached ++ rest /\
    requests evs = map (post_of self) reached /\
    posts (snd (for_urls E self urls acc s))
    = (posts s + List.length reached)%nat /\
    (forall results,
        fst (for_urls E self urls acc s) = Ok results -> rest = []).
Proof.
  destruct (for_urls_batch E self urls acc s) as [evs Hb].
  destruct (batch_requests _ _ _ _ _ _ _ _ Hb)
    as (reached & rest & Hu & Hq & Hr).
  pose proof (batch_steps _ _ _ _ _ _ _ _ Hb) as Hs.
  exists evs, reached, rest.
  split; [ apply (steps_trace _ _ _ Hs) | ].
  split; [ exact Hu | ]. split; [ exact Hq | ].
  split; [ | exact Hr ].
  rewrite (steps_posts _ _ _ Hs). unfold count.
  fold (requests evs). now rewrite Hq, length_map.
Qed.


(** X7. When a page has a dict under ['data'], the one chat call of the
    turn carries that dict's ['content'] as it is, whatever its type, and
    the empty str when the key is missing; the timestamp in the prompt is
    the reading of the clock at the start of the extraction. When the
    request raised what the fetcher does not catch there is no page and
    no chat call. *)
Theorem content_sent_to_the_model E self acc url s :
  exists evs,
    trace (snd (process_url E self acc url s)) = trace s ++ evs /\
    match post_escapes (jina E (posts s) url) with
    | Some _ => filter is_chat evs = []
    | None =>
        exists page,
          fetched (jina E (posts s) url) page /\
          forall d data,
            page = VDict d -> lookup (lit "data") d = Some (VDict data) ->
            filter is_chat evs
            = [Chat (content_or_empty data) url
                    (Clock.isoformat (clock E (ticks s)))]
    end.
Proof.
  destruct (process_url_turn E self acc url s) as [evs Ht].
  destruct (process_url E self acc url s) as [r s']. cbn [fst snd] in *.
  assert (Hok : forall page d data,
             page = VDict d -> lookup (lit "data") d = Some (VDict data) ->
             has_data page = Ok true /\
             content_of page = Ok (content_or_empty data)).
  { intros page d data -> Hl.
    unfold has_data, content_of, contains, getitem, get, has_key,
      content_or_empty.
    rewrite Hl.
    assert (Htr : truthy (VDict d) = true)
      by (destruct d; [ discriminate | reflexivity ]).
    rewrite Htr. split; [ reflexivity | ].
    destruct (lookup (lit "content") data); reflexivity. }
  destruct Ht as
    [ page s' evs Hp Hd Hs Hc
    | page e s' evs Hp Hd Hs Hc
    | page content sd s' evs Hp Hd Hco asked Hx Htr Hs Hc
    | page content sd s' evs Hp Hd Hco asked Hx Htr Hst Hs Hc
    | page content d0 md bytes s' evs Hp Hd Hco asked Hx Htr He Hmd id fields
           Hs Hc
    | e s' evs Hesc Hs Hc ];
    exists evs;
    (split; [ exact (steps_trace _ _ _ Hs) | ]);
    [ rewrite (fetched_no_escape _ _ Hp); exists page;
      (split; [ exact Hp | ]);
      intros d data Hpg Hl;
      destruct (Hok _ _ _ Hpg Hl) as [Hd' Hc'];
      rewrite (filter_calls _ _ chat_is_call), Hc ..
    | rewrite Hesc, (filter_calls _ _ chat_is_call), Hc; reflexivity ].
  - congruence.
  - destruct Hd as [Hd | [_ Hd]]; congruence.
  - rewrite Hc' in Hco. injection Hco as <-. reflexivity.
  - rewrite Hc' in Hco. injection Hco as <-. reflexivity.
  - rewrite Hc' in Hco. injection Hco as <-. reflexivity.
Qed.

(** X8. The loop never removes a document: from start to end the
    collection does not shrink, grows by at most one document per URL of
    the list, keeps a document under every identity that had one, and, if
    no two documents shared an [_id] before, none do after. *)
Theorem loop_keeps_the_store_sound E self urls acc s :
  (List.length (collection s)
   <= List.length (collection (snd (for_urls E self urls acc s)))
   <= List.length (collection s) + List.length urls)%nat /\
  keeps_documents s (snd (for_urls E self urls acc s)) /\
  (Mongo.unique_ids (collection s) ->
   Mongo.unique_ids (collection (snd (for_urls E self urls acc s)))).
Proof.
  destruct (for_urls_batch E self urls acc s) as [evs Hb].
  destruct (batch_size _ _ _ _ _ _ _ _ Hb) as [Hl Hu].
  split; [ exact Hl | ].
  split; [ | exact Hu ].
  eapply IsolationFacts.batch_keeps_documents; eauto.
Qed.

(** X9. What the loop spends: at most one request per URL of the list,
    at most one chat call per request and at most one write per chat
    call, so nothing is ever tried twice; it writes no file; and it reads
    the clock once for every chat call and once for every write. *)
Theorem loop_call_budget E self urls acc s :
  exists evs,
    trace (snd (for_urls E self urls acc s)) = trace s ++ evs /\
    (count is_update evs <= count is_chat evs <= count is_post evs)%nat /\
    (count is_post evs <= List.length urls)%nat /\
    count is_dump evs = 0%nat /\
    ticks (snd (for_urls E self urls acc s))
    = (ticks s + count is_chat evs + count is_update evs)%nat.
Proof.
  destruct (for_urls_batch E self urls acc s) as [evs Hb].
  destruct (batch_budget _ _ _ _ _ _ _ _ Hb) as (Hc & Hp & Hk).
  exists evs.
  split; [ apply (steps_trace _ _ _ (batch_steps _ _ _ _ _ _ _ _ Hb)) | ].
  split; [ exact Hc | ]. split; [ exact Hp | ].
  split; [ eapply batch_no_dump; eauto | exact Hk ].
Qed.

Lemma in_forget path (fs : list (str * list value)) f :
  In f (forget path fs) -> In f fs.
Proof. unfold forget. intros H. now apply filter_In in H. Qed.

(** X10. A run of [process_urls] that ends on an exception has exported
    nothing: whatever it had gathered by then, every export there is
    after it was there before it, and no document was removed from the
    store. If the input file could not be read nothing at all was done.
    If the exception came while the output file was being written, what
    that file held before is lost with it; in every other case the files
    are as they were. *)
Theorem failed_run_exports_nothing E self input_csv output_file s e s' :
  process_urls E self input_csv output_file s = (Raise e, s') ->
  (forall f, In f (files s') -> In f (files s)) /\
  keeps_documents s s' /\
  (csv_rows E input_csv = None -> s' = s /\ e = csv_error E input_csv) /\
  (files s' = files s \/
   exists path evs results,
     path_given output_file = Some path /\
     trace s' = trace s ++ evs ++ [Dump path results] /\
     files s' = forget path (files s)).
Proof.
  rewrite process_urls_unfold.
  destruct (csv_rows E input_csv) as [rows|].
  - destruct (for_urls_batch E self (first_cells rows) [] s) as [evs Hb].
    pose proof (batch_steps _ _ _ _ _ _ _ _ Hb) as Hst.
    pose proof (batch_files _ _ _ _ _ _ _ _ Hb) as Hf.
    pose proof (IsolationFacts.batch_keeps_documents _ _ _ _ _ _ _ _ Hb)
      as Hk.
    destruct (for_urls E self (first_cells rows) [] s) as [[results|e1] s1];
      cbn [fst snd] in *.
    + destruct (path_given output_file) as [path|]; [ | discriminate ].
      destruct (save_results E results path s1) as [[[]|e2] s2] eqn:Hsave;
        [ discriminate | ].
      intros H. injection H as <- <-.
      destruct (save_results_raises _ _ _ _ _ _ Hsave)
        as (Ht & Hc & _ & Hfiles).
      assert (Hk2 : keeps_documents s s2)
        by (intros i Hi; rewrite Hc; now apply Hk).
      destruct Hfiles as [[Hfs _] | [Hfs _]].
      * split; [ intros f; rewrite Hfs, Hf; auto | ].
        split; [ exact Hk2 | ]. split; [ discriminate | ].
        left. now rewrite Hfs.
      * split; [ intros f; rewrite Hfs, Hf; apply in_forget | ].
        split; [ exact Hk2 | ]. split; [ discriminate | ].
        right. exists path, evs, results. split; [ reflexivity | ].
        split; [ | now rewrite Hfs, Hf ].
        rewrite Ht, (steps_trace _ _ _ Hst). now rewrite app_assoc.
    + intros H. injection H as <- <-.
      split; [ intros f; rewrite Hf; auto | ].
      split; [ exact Hk | ]. split; [ discriminate | now left ].
  - intros H. injection H as <- <-.
    split; [ auto | ]. split; [ intros i Hi; exact Hi | ].
    split; [ split; reflexivity | now left ].
Qed.

Lemma failed_run_exports_nothing_witness :
  let r := process_urls Samples.env_data_null Samples.self Samples.urls_csv
                        (Some Samples.out_json) initial in
  r = (Raise AttributeError, snd r) /\
  (forall f, In f (files (snd r)) -> In f (files initial)) /\
  count is_post (trace (snd r)) = 1%nat.
Proof.
  cbv zeta.
  set (r := process_urls Samples.env_data_null Samples.self Samples.urls_csv
                         (Some Samples.out_json) initial).
  assert (H : r = (Raise AttributeError, snd r)) by (vm_compute; reflexivity).
  split; [ exact H | ].
  split; [ | reflexivity ].
  exact (proj1 (failed_run_exports_nothing
                  Samples.env_data_null Samples.self Samples.urls_csv
                  (Some Samples.out_json) initial AttributeError (snd r) H)).
Defined.

End LoopFacts.

(** ** One URL on its own *)

Module SingleFacts.

Import Py Scraper Obs Vocab MethodFacts BatchFacts LoopFacts.
Local Open Scope py_scope.

Section WithEnv.

Variable E : env.
Variable self : scraper.

(** [save_to_mongodb] from outside: it never raises, hands the record
    back as the results will show it, and calls nothing but the store, at
    most once. *)
Lemma save_outcome sd url s :
  exists b rec evs s',
    save_to_mongodb E sd url s = (Ok (b, rec), s') /\
    exported_as (url, sd) rec /\
    trace s' = trace s ++ evs /\
    (calls evs = [] \/
     exists id fields,
       generate_document_id url = Ok id /\
       calls evs = [UpdateOne id fields]) /\
    ~ In (Print Failed_to_fetch) evs /\
    dumps s' = dumps s /\ files s' = files s.
Proof.
  destruct (stampable url sd) eqn:St.
  - unfold stampable in St.
    destruct (Utf8.encode url) as [bytes|] eqn:Henc; [ | discriminate ].
    destruct sd as [ | | | | | | d]; try discriminate.
    destruct (metadata_of d) as [md|] eqn:Hmd; [ | discriminate ].
    pose proof (save_stamps E url bytes d md s Henc Hmd) as Hs.
    cbv zeta in Hs.
    assert (Hg : generate_document_id url = Ok (MD5.hexdigest bytes))
      by (unfold generate_document_id; now rewrite Henc).
    set (id := MD5.hexdigest bytes) in *.
    set (fields := stamped url (clock E (ticks s)) id d md) in *.
    destruct (store_fault E (writes s) id) as [cause|];
      [ | destruct (Mongo.update_one id fields (collection s)) as [c'|e] ];
      rewrite Hs; do 4 eexists;
      (split; [ reflexivity | ]);
      (split; [ now apply exported_stamped | ]);
      (split; [ reflexivity | ]);
      (split; [ right; exists id, fields; split; [ exact Hg | reflexivity ]
              | ]);
      (split; [ cbn [In]; intuition discriminate | split; reflexivity ]).
  - destruct (save_unstampable E sd url s St) as [e Hs].
    rewrite Hs. do 4 eexists.
    split; [ reflexivity | ].
    split; [ now apply exported_unstamped | ].
    split; [ reflexivity | ].
    split; [ left; reflexivity | ].
    split; [ cbn [In]; intuition discriminate | split; reflexivity ].
Qed.

(** Neither the fetch nor the extraction prints that the fetch failed. *)
Lemma fetch_quiet url s l :
  trace (snd (fetch_page_content E self url s)) = trace s ++ l ->
  ~ In (Print Failed_to_fetch) l.
Proof.
  unfold fetch_page_content, requests_post, print, emit, try_except, bind,
    ret, raise, modify.
  cbn [posts chats ticks writes dumps collection files trace].
  destruct (jina E (posts s) url) as [cause | status text json | e].
  - cbn [is_request_exception snd trace]. rewrite <- !app_assoc.
    intros H. apply app_inv_head in H. subst l.
    cbn [app In]. intuition discriminate.
  - destruct (negb (status =? 200));
      [ destruct (is_error_status status) eqn:Es | ];
      cbn [is_request_exception negb]; rewrite ?Es; cbn [negb];
      destruct json as [v|]; cbn [is_request_exception snd trace];
      rewrite <- !app_assoc;
      intros H; apply app_inv_head in H; subst l;
      cbn [app In]; intuition discriminate.
  - destruct (is_request_exception e);
      [ destruct e as [ | | | | | cause [[status text]|] | | | | | | | | ];
        try destruct (negb (is_error_status status)) | ];
      cbn [snd trace]; rewrite <- ?app_assoc;
      intros H; apply app_inv_head in H; subst l;
      cbn [app In]; intuition discriminate.
Qed.

Lemma extract_quiet content url s l :
  trace (snd (extract_structured_data E content url s)) = trace s ++ l ->
  ~ In (Print Failed_to_fetch) l.
Proof.
  unfold extract_structured_data, print, emit, try_except, bind, ret, raise,
    modify, now.
  cbn [posts chats ticks writes dumps collection files trace].
  destruct (llm E (chats s) content url _) as [cause | [v|]];
    cbn [snd trace]; rewrite <- ?app_assoc;
    intros H; apply app_inv_head in H; subst l;
    cbn [app In]; intuition discriminate.
Qed.

Lemma steps_dumps_kept s s' evs :
  steps s s' evs -> filter is_dump (calls evs) = [] -> dumps s' = dumps s.
Proof.
  intros Hs Hc. rewrite (steps_dumps _ _ _ Hs).
  rewrite (count_calls _ _ dump_is_call). unfold count. rewrite Hc.
  cbn [List.length]. lia.
Qed.

End WithEnv.

(** X11. [process_single_url]. If the request raises what the fetcher
    does not catch, the call raises it. Otherwise, for a page that is not
    malformed: without data in the page it makes the one request, prints
    that the fetch failed and writes no file. With content it goes
    through the URL's fetch, extraction and, for a record, write, and
    then, when a record came and a path was given, writes the file anew
    with an array of that one record, as the results of a batch would
    show it; an error opening or writing the file is not caught, and one
    that comes after the file was opened loses what the file held.
    Without a record or without a path no file is written; a failed
    extraction prints nothing about the fetch. *)
Theorem single_url_pipeline E self url output_file s :
  exists evs,
    trace (snd (process_single_url E self url output_file s))
    = trace s ++ evs /\
    match post_escapes (jina E (posts s) url) with
    | Some e =>
        fst (process_single_url E self url output_file s) = Raise e /\
        calls evs = [post_of self url]
    | None =>
    exists page,
    fetched (jina E (posts s) url) page /\
    (has_data page = Ok false ->
     fst (process_single_url E self url output_file s) = Ok tt /\
     calls evs = [post_of self url] /\
     last evs (Print (Processing_url url)) = Print Failed_to_fetch /\
     files (snd (process_single_url E self url output_file s)) = files s) /\
    (content_present page = true ->
     exists content sd,
       content_of page = Ok content /\
       extracted (llm E (chats s) content url
                      (Clock.isoformat (clock E (ticks s)))) sd /\
       ~ In (Print Failed_to_fetch) evs /\
       match (if truthy sd then path_given output_file else None) with
       | None =>
           fst (process_single_url E self url output_file s) = Ok tt /\
           run_of self url (calls evs) /\
           files (snd (process_single_url E self url output_file s))
           = files s
       | Some path =>
           exists rec before,
             exported_as (url, sd) rec /\
             run_of self url (calls before) /\
             match dump_fault E (dumps s) path with
             | Some e =>
                 fst (process_single_url E self url output_file s)
                 = Raise e /\
                 evs = before ++ [Dump path [rec]] /\
                 files (snd (process_single_url E self url output_file s))
                 = files s
             | None =>
                 match (if Utf8.writable rec
                        then write_fault E (dumps s) path
                        else Some UnicodeEncodeError) with
                 | Some e =>
                     fst (process_single_url E self url output_file s)
                     = Raise e /\
                     evs = before ++ [Dump path [rec]] /\
                     files (snd (process_single_url E self url output_file
                                                    s))
                     = forget path (files s)
                 | None =>
                     fst (process_single_url E self url output_file s)
                     = Ok tt /\
                     evs = before ++ [Dump path [rec];
                                      Print (Results_saved path)] /\
                     files (snd (process_single_url E self url output_file
                                                    s))
                     = (path, [rec]) :: files s
                 end
             end
       end)
    end.
Proof.
  unfold process_single_url, bind, print, emit, modify, lift, ret.
  set (s0 := mkState _ _ _ _ _ _ _ (trace s ++ [Print (Processing_url url)])).
  assert (S0 : steps s s0 [Print (Processing_url url)])
    by (apply (steps_prints s [Print (Processing_url url)]); reflexivity).
  destruct (fetch_spec E self url s0)
    as (r & evs1 & s1 & Hf & S1 & C1 & K1 & F1 & T1 & P1).
  rewrite Hf.
  change (posts s0) with (posts s) in P1.
  change (ticks s0) with (ticks s) in T1.
  change (files s0) with (files s) in F1.
  pose proof (steps_trans _ _ _ _ _ S0 S1) as S01.
  set (evs01 := [Print (Processing_url url)] ++ evs1) in *.
  assert (C01 : calls evs01 = [post_of self url]) by exact C1.
  assert (Hch : chats s1 = chats s).
  { rewrite (steps_chats _ _ _ S01), (count_calls _ _ chat_is_call), C01.
    count_calc. lia. }
  assert (Hdu : dumps s1 = dumps s)
    by (apply (steps_dumps_kept _ _ _ S01); now rewrite C01).
  assert (N01 : ~ In (Print Failed_to_fetch) evs01).
  { intros [Hin | Hin]; [ discriminate | ].
    apply (fetch_quiet E self url s0 evs1); [ | exact Hin ].
    rewrite Hf. exact (steps_trace _ _ _ S1). }
  destruct (post_escapes (jina E (posts s) url)) as [e|] eqn:Hesc.
  { subst r. exists evs01. cbn [fst snd].
    split; [ exact (steps_trace _ _ _ S01) | ].
    split; [ reflexivity | exact C01 ]. }
  destruct P1 as (page & -> & P1).
  destruct (has_data page) as [[|]|e] eqn:Hd.
  - (* the page has data *)
    destruct (content_of page) as [content|e] eqn:Hc; unfold content_of in Hc.
    + destruct (getitem page (lit "data")) as [data|] eqn:G;
        [ | discriminate ].
      rewrite Hc.
      destruct (extract_spec E content url s1)
        as (sd & s2 & He & (evs2 & S2 & C2) & K2 & F2 & T2 & X2).
      rewrite He. rewrite Hch, T1 in X2. rewrite T1 in C2.
      pose proof (steps_trans _ _ _ _ _ S01 S2) as S02.
      assert (C02 : calls (evs01 ++ evs2)
                    = [post_of self url;
                       Chat content url
                            (Clock.isoformat (clock E (ticks s)))])
        by (rewrite calls_app, C01, C2; reflexivity).
      assert (Hd2 : dumps s2 = dumps s)
        by (apply (steps_dumps_kept _ _ _ S02); now rewrite C02).
      assert (N2 : ~ In (Print Failed_to_fetch) evs2).
      { apply (extract_quiet E content url s1 evs2).
        rewrite He. exact (steps_trace _ _ _ S2). }
      destruct (truthy sd) eqn:Tr.
      * destruct (save_outcome E sd url s2)
          as (b & rec & evs3 & s3 & Hs & Hx & T3 & C3 & N3 & D3 & F3).
        rewrite Hs. cbn [snd].
        assert (R3 : run_of self url (calls ((evs01 ++ evs2) ++ evs3))).
        { rewrite calls_app, C02.
          destruct C3 as [-> | (id & fields & Hg & ->)]; cbn [app].
          - apply run_extract.
          - now apply run_persist. }
        assert (T03 : trace s3 = trace s ++ (evs01 ++ evs2) ++ evs3)
          by (rewrite T3, (steps_trace _ _ _ S02), <- !app_assoc;
              reflexivity).
        assert (N03 : ~ In (Print Failed_to_fetch)
                         ((evs01 ++ evs2) ++ evs3))
          by (rewrite !in_app_iff; tauto).
        destruct (path_given output_file) as [path|] eqn:Hpath.
        -- unfold save_results, emit, modify, bind.
           cbn [posts chats ticks writes dumps collection files trace
                forallb].
           rewrite D3, Hd2, andb_true_r.
           destruct (dump_fault E (dumps s) path) as [e0|] eqn:Df;
             [ | destruct (Utf8.writable rec) eqn:Wr;
                 [ destruct (write_fault E (dumps s) path) as [e0|] eqn:Wf
                 | ] ];
             [ exists (((evs01 ++ evs2) ++ evs3) ++ [Dump path [rec]])
             | exists (((evs01 ++ evs2) ++ evs3) ++ [Dump path [rec]])
             | exists (((evs01 ++ evs2) ++ evs3)
                       ++ [Dump path [rec]; Print (Results_saved path)])
             | exists (((evs01 ++ evs2) ++ evs3) ++ [Dump path [rec]]) ];
             (split; [ cbn [snd trace]; rewrite T03, <- !app_assoc;
                       reflexivity | ]);
             exists page;
             (split; [ exact P1 | ]);
             (split; [ rewrite Hd; discriminate | ]);
             intros _; exists content, sd;
             (split; [ unfold content_of; rewrite G; exact Hc | ]);
             (split; [ exact X2 | ]);
             (split; [ rewrite in_app_iff; cbn [In];
                       intuition discriminate | ]);
             rewrite Tr;
             exists rec, ((evs01 ++ evs2) ++ evs3);
             (split; [ exact Hx | ]); (split; [ exact R3 | ]);
             rewrite Df, ?Wr, ?Wf;
             cbn [fst snd files]; repeat split; congruence.
        -- exists ((evs01 ++ evs2) ++ evs3).
           split; [ exact T03 | ].
           exists page.
           split; [ exact P1 | ].
           split; [ rewrite Hd; discriminate | ].
           intros _. exists content, sd.
           split; [ unfold content_of; rewrite G; exact Hc | ].
           split; [ exact X2 | ].
           split; [ exact N03 | ].
           rewrite Tr. cbn [fst snd].
           split; [ reflexivity | ]. split; [ exact R3 | congruence ].
      * exists (evs01 ++ evs2).
        split; [ exact (steps_trace _ _ _ S02) | ].
        exists page.
        split; [ exact P1 | ].
        split; [ rewrite Hd; discriminate | ].
        intros _. exists content, sd.
        split; [ unfold content_of; rewrite G; exact Hc | ].
        split; [ exact X2 | ].
        split; [ rewrite in_app_iff; tauto | ].
        rewrite Tr. cbn [fst snd].
        split; [ reflexivity | ].
        split; [ rewrite C02; apply run_extract | congruence ].
    + (* malformed *)
      exists evs01.
      assert (Hcp : content_present page = false)
        by (apply (crash_kind page e); right; split;
            [ exact Hd | unfold content_of; exact Hc ]).
      split.
      * destruct (getitem page (lit "data")) as [data|e'];
          [ rewrite Hc | ]; cbn [snd]; exact (steps_trace _ _ _ S01).
      * exists page. split; [ exact P1 | ].
        split; [ rewrite Hd; discriminate | rewrite Hcp; discriminate ].
  - (* no data *)
    exists (evs01 ++ [Print Failed_to_fetch]).
    split; [ cbn [snd trace]; rewrite (steps_trace _ _ _ S01), app_assoc;
             reflexivity | ].
    exists page. split; [ exact P1 | ].
    split.
    + intros _. cbn [fst snd files].
      split; [ reflexivity | ].
      split; [ rewrite calls_app, C01; reflexivity | ].
      split; [ apply last_last | exact F1 ].
    + intros Hcp. apply content_present_spec in Hcp as [Hd' _]. congruence.
  - (* the test for data breaks *)
    exists evs01.
    split; [ exact (steps_trace _ _ _ S01) | ].
    exists page. split; [ exact P1 | ].
    split; [ rewrite Hd; discriminate | ].
    intros Hcp. apply content_present_spec in Hcp as [Hd' _]. congruence.
Qed.

End SingleFacts.

(** ** Setting up: the scraper, its collection, the script *)

Module InitFacts.

Import Py Scraper Obs Vocab MethodFacts BatchFacts LoopFacts.
Local Open Scope py_scope.

Lemma app_inj_length {A} (a a' b b' : list A) :
  List.length a = List.length a' -> a ++ b = a' ++ b' -> a = a' /\ b = b'.
Proof.
  revert a'. induction a as [|x a IH]; intros [|x' a'] Hl H;
    try discriminate.
  - now split.
  - cbn [app] in H. injection H as -> H. injection Hl as Hl.
    destruct (IH _ Hl H) as [-> ->]. now split.
Qed.

Lemma dec_injective w n n' :
  0 <= n < 10 ^ Z.of_nat w -> 0 <= n' < 10 ^ Z.of_nat w ->
  Clock.dec w n = Clock.dec w n' -> n = n'.
Proof.
  intros Hn Hn' H.
  pose proof (ClockFacts.undec_dec w n 0 Hn) as U.
  pose proof (ClockFacts.undec_dec w n' 0 Hn') as U'.
  rewrite H, U' in U. injection U as U. lia.
Qed.

(** The ranges of the fields of a datetime, as the widths of
    [strftime] need them. *)
Lemma valid_ranges d :
  Clock.valid d ->
  0 <= Clock.year d < 10 ^ Z.of_nat 4 /\
  0 <= Clock.month d < 10 ^ Z.of_nat 2 /\
  0 <= Clock.day d < 10 ^ Z.of_nat 2 /\
  0 <= Clock.hour d < 10 ^ Z.of_nat 2 /\
  0 <= Clock.minute d < 10 ^ Z.of_nat 2 /\
  0 <= Clock.second d < 10 ^ Z.of_nat 2.
Proof.
  unfold Clock.valid, Clock.validb. intros Hv.
  repeat (apply andb_true_iff in Hv; destruct Hv as [Hv ?]).
  repeat match goal with
         | H : Clock.between _ _ _ = true |- _ =>
             apply ClockFacts.between_spec in H
         end.
  pose proof (ClockFacts.days_in_month_le (Clock.year d) (Clock.month d)).
  change (10 ^ Z.of_nat 4) with 10000. change (10 ^ Z.of_nat 2) with 100.
  lia.
Qed.

Lemma year_digits_length y :
  0 <= y < 10000 ->
  Clock.year_digits y
  = Clock.dec (List.length (Clock.year_digits y)) y /\
  (y < 10 ^ Z.of_nat (List.length (Clock.year_digits y))) /\
  (1000 <= y -> List.length (Clock.year_digits y) = 4%nat).
Proof.
  intros Hy. unfold Clock.year_digits.
  destruct (Z.ltb_spec y 10);
    [ | destruct (Z.ltb_spec y 100); [ | destruct (Z.ltb_spec y 1000) ] ];
    rewrite ClockFacts.dec_length;
    (split; [ reflexivity | ]);
    (split; [ cbn; lia | lia || reflexivity ]).
Qed.

Lemma year_digits_injective y y' :
  0 <= y < 10000 -> 0 <= y' < 10000 ->
  Clock.year_digits y = Clock.year_digits y' -> y = y'.
Proof.
  intros Hy Hy' H.
  destruct (year_digits_length y Hy) as (E1 & B1 & _).
  destruct (year_digits_length y' Hy') as (E2 & B2 & _).
  rewrite <- H in E2, B2.
  set (w := List.length (Clock.year_digits y)) in *.
  assert (Hd : Clock.dec w y = Clock.dec w y') by congruence.
  apply dec_injective in Hd; [ exact Hd | lia | lia ].
Qed.

Lemma strftime_length d :
  1000 <= Clock.year d < 10000 ->
  List.length (Clock.strftime_compact d) = 15%nat.
Proof.
  intros Hy. unfold Clock.strftime_compact.
  rewrite !length_app, !ClockFacts.dec_length.
  destruct (year_digits_length (Clock.year d)) as (_ & _ & Hl);
    [ lia | ].
  rewrite Hl by lia. reflexivity.
Qed.

Lemma fetch_logs_headers E self url s :
  In (Print (Debug_headers (jina_headers self)))
     (trace (snd (fetch_page_content E self url s))).
Proof.
  unfold fetch_page_content, requests_post, print, emit, try_except, bind,
    ret, raise, modify.
  cbn [posts chats ticks writes dumps collection files trace].
  destruct (jina E (posts s) url) as [cause | status text json | e].
  - cbn [is_request_exception snd trace]. rewrite <- !app_assoc.
    apply in_or_app. right. cbn [app In]. auto.
  - destruct (negb (status =? 200));
      [ destruct (is_error_status status) eqn:Es | ];
      cbn [is_request_exception negb]; rewrite ?Es; cbn [negb];
      destruct json as [v|]; cbn [is_request_exception snd trace];
      rewrite <- !app_assoc; apply in_or_app; right; cbn [app In]; auto.
  - destruct (is_request_exception e);
      [ destruct e as [ | | | | | cause [[status text]|] | | | | | | | | ];
        try destruct (negb (is_error_status status)) | ];
      cbn [snd trace]; rewrite <- ?app_assoc;
      apply in_or_app; right; cbn [app In]; auto.
Qed.

(** [__init__], step by step: what it returns or raises, and the state it
    leaves. *)
Lemma init_outcome E cfg db_name collection_name s :
  let shown :=
    Print (Debug_authorization
             (firstn 15 (lit "Bearer " ++ JINA_API_KEY cfg) ++ lit "...")) in
  let name :=
    match collection_name with
    | Some n => n
    | None => lit "product_data_"
              ++ Clock.strftime_compact (clock E (ticks s))
    end in
  let read :=
    match collection_name with
    | Some _ => ticks s
    | None => S (ticks s)
    end in
  let st t evs :=
    mkState (posts s) (chats s) t (writes s) (dumps s) (collection s)
            (files s) (trace s ++ evs) in
  __init__ E cfg db_name collection_name s
  = match OPENAI_API_KEY cfg with
    | None =>
        (Raise (OpenAIError (lit "The api_key client option must be set")),
         st (ticks s) [shown])
    | Some _ =>
        match match MONGODB_URI cfg with
              | Some u => mongo_client E u
              | None => None
              end with
        | Some e => (Raise e, st (ticks s) [shown])
        | None =>
            if valid_db_name db_name then
              if valid_collection_name name then
                (Ok (mkScraper
                       [(lit "Authorization",
                         lit "Bearer " ++ JINA_API_KEY cfg);
                        (lit "Content-Type", lit "application/json");
                        (lit "Accept", lit "application/json");
                        (lit "X-With-Links-Summary", lit "true");
                        (lit "X-With-Images-Summary", lit "true")]),
                 st read [shown; Print (Using_collection name)])
              else (Raise (InvalidName (lit "collection name")),
                    st read [shown])
            else (Raise (InvalidName (lit "database name")),
                  st (ticks s) [shown])
        end
    end.
Proof.
  cbv zeta.
  unfold __init__, openai_client, mongo_client_of, check_name, bind, print,
    emit, modify, ret, raise, now.
  cbn [posts chats ticks writes dumps collection files trace].
  destruct (OPENAI_API_KEY cfg) as [k|]; [ | reflexivity ].
  destruct (MONGODB_URI cfg) as [u|];
    [ destruct (mongo_client E u) as [e|]; [ reflexivity | ] | ];
    (destruct (valid_db_name db_name); [ | reflexivity ]);
    destruct collection_name as [n|];
    cbn [posts chats ticks writes dumps collection files trace];
    match goal with
    | |- context [valid_collection_name ?n] =>
        destruct (valid_collection_name n)
    end;
    cbn [posts chats ticks writes dumps collection files trace];
    rewrite <- ?app_assoc; reflexivity.
Qed.

(** X12. The API key and the log. The first thing [__init__] does,
    whether or not it raises later, is print the first 15 characters of
    the [Authorization] header, so ["Bearer "] and the first eight of the
    key. A scraper it returns has the key, whole, in that header; and
    every [fetch_page_content] of the scraper prints all the headers, the
    whole key among them, before it sends them, whatever comes of the
    request. *)
Theorem api_key_reaches_the_log E cfg db_name collection_name s :
  exists evs,
    trace (snd (__init__ E cfg db_name collection_name s)) = trace s ++ evs /\
    hd_error evs
    = Some (Print (Debug_authorization
                     (lit "Bearer " ++ firstn 8 (JINA_API_KEY cfg)
                      ++ lit "..."))) /\
    forall self,
      fst (__init__ E cfg db_name collection_name s) = Ok self ->
      header (lit "Authorization") (jina_headers self)
      = Some (lit "Bearer " ++ JINA_API_KEY cfg) /\
      forall url s1,
        exists hs,
          In (Print (Debug_headers hs))
             (trace (snd (fetch_page_content E self url s1))) /\
          header (lit "Authorization") hs
          = Some (lit "Bearer " ++ JINA_API_KEY cfg).
Proof.
  pose proof (init_outcome E cfg db_name collection_name s) as H.
  cbv zeta in H. rewrite H. clear H.
  assert (Hret : forall self,
             Ok (mkScraper
                   [(lit "Authorization", lit "Bearer " ++ JINA_API_KEY cfg);
                    (lit "Content-Type", lit "application/json");
                    (lit "Accept", lit "application/json");
                    (lit "X-With-Links-Summary", lit "true");
                    (lit "X-With-Images-Summary", lit "true")]) = Ok self ->
             header (lit "Authorization") (jina_headers self)
             = Some (lit "Bearer " ++ JINA_API_KEY cfg) /\
             forall url s1,
               exists hs,
                 In (Print (Debug_headers hs))
                    (trace (snd (fetch_page_content E self url s1))) /\
                 header (lit "Authorization") hs
                 = Some (lit "Bearer " ++ JINA_API_KEY cfg)).
  { intros self Hs. injection Hs as <-.
    split; [ reflexivity | ].
    intros url s1. eexists.
    split; [ apply fetch_logs_headers | reflexivity ]. }
  destruct (OPENAI_API_KEY cfg) as [k|];
    [ destruct (match MONGODB_URI cfg with
                | Some u => mongo_client E u
                | None => None
                end) as [e|];
      [ | destruct (valid_db_name db_name);
          [ match goal with
            | |- context [valid_collection_name ?n] =>
                destruct (valid_collection_name n)
            end | ] ] | ];
    eexists; cbn [fst snd trace];
    (split; [ reflexivity | ]);
    (split; [ reflexivity | ]);
    solve [ exact Hret | discriminate ].
Qed.

(** X13. The collection [__init__] uses. With a name given it does not
    read the clock; without one it reads the clock once and makes the
    name of ["product_data_"] and that reading to the second, which is
    always a name the driver takes, of 28 characters from the year 1000
    on. When [__init__] returns, the name is the last line it printed. A
    name the driver does not take (the empty one, one with ['$'] or
    [".."] in it) is never used: [__init__] raises, with [InvalidName] if
    it got as far as the collection, and does not print the name. In
    every case it calls nothing outside and leaves the store and the
    files alone. *)
Theorem init_names_the_collection E cfg db_name collection_name s :
  exists evs,
    trace (snd (__init__ E cfg db_name collection_name s)) = trace s ++ evs /\
    calls evs = [] /\
    collection (snd (__init__ E cfg db_name collection_name s))
    = collection s /\
    files (snd (__init__ E cfg db_name collection_name s)) = files s /\
    match collection_name with
    | Some name =>
        ticks (snd (__init__ E cfg db_name collection_name s)) = ticks s /\
        (forall self,
            fst (__init__ E cfg db_name collection_name s) = Ok self ->
            valid_collection_name name = true /\
            last evs (Print Failed_to_fetch) = Print (Using_collection name))
        /\
        (valid_collection_name name = false ->
         ~ In (Print (Using_collection name)) evs /\
         exists e,
           fst (__init__ E cfg db_name collection_name s) = Raise e /\
           (OPENAI_API_KEY cfg <> None ->
            match MONGODB_URI cfg with
            | Some u => mongo_client E u
            | None => None
            end = None ->
            valid_db_name db_name = true ->
            e = InvalidName (lit "collection name")))
    | None =>
        let name := lit "product_data_"
                    ++ Clock.strftime_compact (clock E (ticks s)) in
        valid_collection_name name = true /\
        (1000 <= Clock.year (clock E (ticks s)) < 10000 ->
         List.length name = 28%nat) /\
        forall self,
          fst (__init__ E cfg db_name collection_name s) = Ok self ->
          ticks (snd (__init__ E cfg db_name collection_name s))
          = S (ticks s) /\
          last evs (Print Failed_to_fetch) = Print (Using_collection name)
    end.
Proof.
  pose proof (init_outcome E cfg db_name collection_name s) as H.
  cbv zeta in H. rewrite H. clear H.
  assert (Hlen : 1000 <= Clock.year (clock E (ticks s)) < 10000 ->
                 List.length (lit "product_data_"
                              ++ Clock.strftime_compact (clock E (ticks s)))
                 = 28%nat)
    by (intros Hy; rewrite length_app, (strftime_length _ Hy); reflexivity).
  destruct collection_name as [name|]; cbv zeta.
  - destruct (OPENAI_API_KEY cfg) as [k|];
      [ destruct (match MONGODB_URI cfg with
                  | Some u => mongo_client E u
                  | None => None
                  end) as [e|];
        [ | destruct (valid_db_name db_name);
            [ destruct (valid_collection_name name) eqn:Hv | ] ] | ];
      eexists; cbn [fst snd trace ticks collection files];
      (split; [ reflexivity | ]);
      (split; [ reflexivity | ]);
      (split; [ reflexivity | ]);
      (split; [ reflexivity | ]);
      (split; [ reflexivity | ]);
      (split;
       [ intros self Hs;
         first [ discriminate Hs | split; [ exact Hv || reflexivity
                                          | reflexivity ] ]
       | intros Hn; try discriminate Hn;
         (split; [ cbn [In]; intuition discriminate | ]);
         eexists; (split; [ reflexivity | ]);
         intros Ho Hm Hd;
         first [ reflexivity | congruence ] ]).
  - pose proof (RunFacts.default_name_valid (clock E (ticks s))) as Hval.
    rewrite Hval.
    destruct (OPENAI_API_KEY cfg) as [k|];
      [ destruct (match MONGODB_URI cfg with
                  | Some u => mongo_client E u
                  | None => None
                  end) as [e|];
        [ | destruct (valid_db_name db_name) ] | ];
      eexists; cbn [fst snd trace ticks collection files];
      (split; [ reflexivity | ]);
      (split; [ reflexivity | ]);
      (split; [ reflexivity | ]);
      (split; [ reflexivity | ]);
      (split; [ reflexivity | ]);
      (split; [ exact Hlen | ]);
      intros self Hs; try discriminate Hs.
    split; reflexivity.
Qed.

(** X14. The collection names [main] and [__init__] make from the clock
    tell seconds apart and nothing finer: two readings get the same name
    exactly when they agree down to the second, whatever their
    microseconds. *)
Theorem collection_name_per_second d1 d2 :
  Clock.valid d1 -> Clock.valid d2 ->
  (lit "product_data_" ++ Clock.strftime_compact d1
   = lit "product_data_" ++ Clock.strftime_compact d2
   <-> to_second d1 = to_second d2).
Proof.
  intros V1 V2.
  destruct (valid_ranges d1 V1) as (Y1 & M1 & D1 & H1 & I1 & S1).
  destruct (valid_ranges d2 V2) as (Y2 & M2 & D2 & H2 & I2 & S2).
  change (10 ^ Z.of_nat 4) with 10000 in Y1, Y2.
  unfold to_second, Clock.strftime_compact. split.
  - intros H. apply app_inv_head in H.
    assert (Hl : List.length (Clock.year_digits (Clock.year d1))
                 = List.length (Clock.year_digits (Clock.year d2))).
    { apply (f_equal (@List.length Z)) in H.
      rewrite !length_app, !ClockFacts.dec_length in H.
      cbn [List.length] in H. lia. }
    apply (app_inj_length _ _ _ _ Hl) in H. destruct H as [Ey H].
    apply year_digits_injective in Ey; [ | assumption | assumption ].
    repeat match type of H with
           | Clock.dec ?w _ ++ _ = Clock.dec ?w _ ++ _ =>
               apply app_inj_length in H;
               [ | now rewrite !ClockFacts.dec_length ];
               let H' := fresh "E" in destruct H as [H' H];
               apply dec_injective in H'; [ | assumption | assumption ]
           | [_] ++ _ = [_] ++ _ => apply app_inv_head in H
           end.
    apply dec_injective in H; [ | assumption | assumption ].
    congruence.
  - intros H. injection H as -> -> -> -> -> ->. reflexivity.
Qed.

Lemma collection_name_per_second_witness :
  Clock.valid Cases.t_early /\ Clock.valid Cases.t_late /\
  Cases.t_early <> Cases.t_late /\
  lit "product_data_" ++ Clock.strftime_compact Cases.t_early
  = lit "product_data_" ++ Clock.strftime_compact Cases.t_late.
Proof.
  split; [ reflexivity | ]. split; [ reflexivity | ].
  split; [ discriminate | ].
  apply (proj2 (collection_name_per_second Cases.t_early Cases.t_late
                  eq_refl eq_refl)).
  reflexivity.
Defined.

(** X15. A run of the script that returns: the key was set, the first
    reading of the clock named the collection, [urls.csv] was read, one
    request was sent for every URL in it, and the one file written, after
    all of them, is [scraped_data.json], with at most one record per
    URL. *)
Theorem script_run_that_returns E environ s s' :
  script E environ s = (Ok tt, s') ->
  exists key rows evs results,
    getenv environ (lit "JINA_API_KEY") = Some key /\ key <> [] /\
    csv_rows E (lit "urls.csv") = Some rows /\
    trace s'
    = trace s
      ++ [Print (Debug_authorization
                   (firstn 15 (lit "Bearer " ++ key) ++ lit "..."));
          Print (Using_collection
                   (lit "product_data_"
                    ++ Clock.strftime_compact (clock E (ticks s))))]
      ++ evs
      ++ [Dump (lit "scraped_data.json") results;
          Print (Results_saved (lit "scraped_data.json"))] /\
    List.length (requests evs) = List.length (first_cells rows) /\
    count is_dump evs = 0%nat /\
    files s' = (lit "scraped_data.json", results) :: files s /\
    (List.length results <= List.length (first_cells rows))%nat.
Proof.
  intros H. unfold script, bind, lift in H.
  destruct (module_init environ) as [cfg|e] eqn:Hm; [ | discriminate ].
  unfold module_init in Hm.
  destruct (getenv environ (lit "JINA_API_KEY")) as [[|c k]|] eqn:Hk;
    try discriminate.
  injection Hm as <-.
  unfold main, bind, now in H.
  match type of H with
  | context [__init__ E ?cfg0 ?db ?cn ?st] =>
      pose proof (init_outcome E cfg0 db cn st) as Hi
  end.
  cbv zeta in Hi. rewrite Hi in H. clear Hi.
  cbn [posts chats ticks writes dumps collection files trace
       JINA_API_KEY OPENAI_API_KEY MONGODB_URI] in H.
  destruct (getenv environ (lit "OPENAI_API_KEY")) as [ok|];
    [ | discriminate ].
  destruct (match getenv environ (lit "MONGODB_URI") with
            | Some u => mongo_client E u
            | None => None
            end) as [e|]; [ discriminate | ].
  change (valid_db_name (lit "web_scraper")) with true in H.
  rewrite RunFacts.default_name_valid in H.
  cbv beta iota in H.
  match type of H with
  | process_urls _ ?self0 _ _ ?st = _ => set (self := self0) in H;
                                         set (s1 := st) in H
  end.
  rewrite process_urls_unfold in H.
  destruct (csv_rows E (lit "urls.csv")) as [rows|]; [ | discriminate ].
  destruct (for_urls_batch E self (first_cells rows) [] s1) as [evs Hb].
  destruct (for_urls E self (first_cells rows) [] s1) as [[results|e] s2];
    [ | discriminate ].
  cbn [fst snd] in Hb.
  change (path_given (Some (lit "scraped_data.json")))
    with (Some (lit "scraped_data.json")) in H.
  cbv beta iota in H.
  destruct (save_results E results (lit "scraped_data.json") s2)
    as [[[]|e] s3] eqn:Hsave; [ | discriminate ].
  apply save_results_returns in Hsave as (-> & _).
  injection H as <-.
  destruct (batch_requests _ _ _ _ _ _ _ _ Hb)
    as (reached & rest & Hu & Hq & Hr).
  rewrite (Hr _ eq_refl), app_nil_r in Hu. subst reached.
  destruct (batch_results _ _ _ _ _ _ _ _ Hb) as (news & Hn & Hx & Hs).
  cbn [app] in Hn. subst news.
  exists (c :: k), rows, evs, results.
  split; [ reflexivity | ]. split; [ discriminate | ].
  split; [ reflexivity | ].
  split; [ | split; [ | split; [ | split ] ] ].
  - cbn [trace].
    rewrite (steps_trace _ _ _ (batch_steps _ _ _ _ _ _ _ _ Hb)).
    unfold s1. cbn [trace]. rewrite <- !app_assoc. reflexivity.
  - now rewrite Hq, length_map.
  - eapply batch_no_dump; eauto.
  - cbn [files]. now rewrite (batch_files _ _ _ _ _ _ _ _ Hb).
  - rewrite <- (Forall2_length Hx).
    apply subseq_length in Hs. now rewrite length_map in Hs.
Qed.

Lemma script_run_that_returns_witness :
  let r := script Samples.env_ok Samples.environ_full initial in
  r = (Ok tt, snd r) /\
  exists results,
    files (snd r) = [(lit "scraped_data.json", results)] /\
    (List.length results <= 3)%nat.
Proof.
  cbv zeta.
  set (r := script Samples.env_ok Samples.environ_full initial).
  assert (H : r = (Ok tt, snd r)) by (vm_compute; reflexivity).
  split; [ exact H | ].
  destruct (script_run_that_returns
              Samples.env_ok Samples.environ_full initial (snd r) H)
    as (key & rows & evs & results & _ & _ & Hrows & _ & _ & _ & Hf & Hl).
  exists results. split; [ exact Hf | ].
  injection Hrows as <-. exact Hl.
Defined.

End InitFacts.

(** ** Records the store never gets *)

Module RefusalFacts.

Import Py Scraper Obs Vocab MethodFacts.
Local Open Scope py_scope.

(** The strict codec takes exactly the scalar values. *)
Lemma encode_cp_scalar c :
  match Utf8.encode_cp c with
  | Some _ => scalar c = true
  | None => scalar c = false
  end.
Proof.
  unfold Utf8.encode_cp, scalar.
  destruct (Z.ltb_spec c 0); [ | destruct (Z.ltb_spec c 128) ];
    [ | | destruct (Z.ltb_spec c 2048) ];
    [ | | | destruct (Z.leb_spec 55296 c), (Z.leb_spec c 57343);
            cbn [andb];
            [ | destruct (Z.ltb_spec c 65536);
                [ | destruct (Z.ltb_spec c 1114112) ] .. ] ].
  all: destruct (Z.leb_spec 0 c), (Z.ltb_spec c 55296),
         (Z.leb_spec 57344 c), (Z.ltb_spec c 1114112);
       cbn [andb orb]; solve [ reflexivity | lia ].
Qed.

Lemma encode_scalar url :
  match Utf8.encode url with
  | Some _ => forallb scalar url = true
  | None => forallb scalar url = false
  end.
Proof.
  induction url as [|c url IH]; cbn [Utf8.encode forallb].
  - reflexivity.
  - pose proof (encode_cp_scalar c) as Hc.
    destruct (Utf8.encode_cp c) as [b|]; rewrite Hc; cbn [andb];
      [ | reflexivity ].
    destruct (Utf8.encode url); exact IH.
Qed.

(** A [$set] that names [_id] with another value than the document's is
    refused, on whatever document. *)
Lemma set_fields_own_id id data v :
  lookup Mongo.id_key data = Some v -> v <> VStr id ->
  forall d, exists e, Mongo.set_fields id data d = Raise e.
Proof.
  intros Hl Hv.
  induction data as [|[k0 v0] data IH]; intros d;
    cbn [lookup Mongo.set_fields] in *.
  - discriminate.
  - unfold Mongo.set_field.
    destruct (str_eqb k0 Mongo.id_key) eqn:Ek.
    + injection Hl as ->.
      destruct v as [ | | | | str | | ]; eauto.
      destruct (str_eqb str id) eqn:Es; eauto.
      apply DictFacts.str_eqb_eq in Es. subst str. now contradiction Hv.
    + apply (IH Hl).
Qed.

Lemma update_one_own_id id data v c :
  lookup Mongo.id_key data = Some v -> v <> VStr id ->
  exists e, Mongo.update_one id data c = Raise e.
Proof.
  intros Hl Hv. unfold Mongo.update_one.
  destruct (Mongo.encodable data); [ | eauto ].
  assert (Hf : Mongo.update_first id data c = None \/
               exists e, Mongo.update_first id data c = Some (Raise e)).
  { induction c as [|d c IH]; cbn [Mongo.update_first]; [ now left | ].
    destruct (Mongo.matches id d).
    - right. destruct (set_fields_own_id id data v Hl Hv d) as [e ->]. eauto.
    - destruct IH as [-> | [e ->]]; eauto. }
  destruct Hf as [-> | [e ->]]; [ | eauto ].
  destruct (set_fields_own_id id data v Hl Hv [(Mongo.id_key, VStr id)])
    as [e ->].
  eauto.
Qed.

Lemma metadata_is_not_id : lit "metadata" <> Mongo.id_key.
Proof.
  intros H. apply (f_equal (@List.length Z)) in H. discriminate H.
Qed.

(** X16. Which URLs have an identity. [generate_document_id] returns, a
    str of 32 characters, exactly for the URLs made of scalar values; on a
    URL with a surrogate in it, it raises [UnicodeEncodeError]. Then
    [save_to_mongodb] catches that before anything else happens: it
    returns [False] with the record as it was, prints the error, reads no
    clock and sends nothing to the store. *)
Theorem url_without_identity_is_never_stored E url :
  (forallb scalar url = true ->
   exists id, generate_document_id url = Ok id /\
              List.length id = 32%nat) /\
  (forallb scalar url = false ->
   generate_document_id url = Raise UnicodeEncodeError /\
   forall data s,
     save_to_mongodb E data url s
     = (Ok (false, data),
        after_prints s [Print (Error_saving UnicodeEncodeError)])).
Proof.
  pose proof (encode_scalar url) as He. unfold generate_document_id.
  destruct (Utf8.encode url) as [bytes|] eqn:Henc; rewrite He.
  - split; [ intros _ | discriminate ].
    eexists. split; [ reflexivity | ].
    unfold MD5.hexdigest.
    rewrite IdentityFacts.hex_length, IdentityFacts.digest_length.
    reflexivity.
  - split; [ discriminate | intros _ ].
    split; [ reflexivity | ].
    intros data s. unfold after_prints. destruct s as [np nc nt nw nd c fs tr].
    cbv beta iota zeta delta
      [save_to_mongodb save_body on_world print emit try_except bind ret
       raise lift gets modify generate_document_id
       fst snd trace posts chats ticks writes dumps collection files].
    rewrite Henc. reflexivity.
Qed.

(** X17. A record that brings a top-level [_id] other than the identity
    of its URL is never stored: the write is sent and refused, because
    [_id] cannot be changed, on an insert as on an update (or because the
    driver cannot encode the record), and [save_to_mongodb] returns
    [False] with the collection as it was. The record still comes back
    stamped. *)
Theorem own_id_blocks_the_write E url bytes d md v s :
  Utf8.encode url = Some bytes ->
  metadata_of d = Some md ->
  lookup Mongo.id_key d = Some v ->
  v <> VStr (MD5.hexdigest bytes) ->
  exists line s',
    save_to_mongodb E (VDict d) url s
    = (Ok (false,
           VDict (stamped url (clock E (ticks s)) (MD5.hexdigest bytes)
                          d md)),
       s') /\
    collection s' = collection s /\
    writes s' = S (writes s) /\
    trace s'
    = trace s
      ++ [UpdateOne (MD5.hexdigest bytes)
                    (stamped url (clock E (ticks s)) (MD5.hexdigest bytes)
                             d md);
          Print (Error_saving line)].
Proof.
  intros Henc Hmd Hl Hv.
  pose proof (save_stamps E url bytes d md s Henc Hmd) as Hs.
  cbv zeta in Hs.
  set (id := MD5.hexdigest bytes) in *.
  set (fields := stamped url (clock E (ticks s)) id d md) in *.
  assert (Hf : lookup Mongo.id_key fields = Some v).
  { unfold fields, stamped.
    rewrite (DictFacts.lookup_set_other _ _ _ _ metadata_is_not_id).
    exact Hl. }
  destruct (update_one_own_id id fields v (collection s) Hf Hv) as [e Hu].
  rewrite Hu in Hs.
  destruct (store_fault E (writes s) id) as [cause|];
    rewrite Hs; do 2 eexists;
    (split; [ reflexivity | ]); repeat split.
Qed.

Lemma own_id_blocks_the_write_witness :
  let r := save_to_mongodb Samples.env_ok (VDict Cases.record_own_id)
                           Samples.url_p1 initial in
  Utf8.encode Samples.url_p1 = Some Samples.url_p1 /\
  metadata_of Cases.record_own_id = Some [] /\
  lookup Mongo.id_key Cases.record_own_id = Some (VStr (lit "lamp-1")) /\
  VStr (lit "lamp-1") <> VStr (MD5.hexdigest Samples.url_p1) /\
  collection (snd r) = [] /\
  writes (snd r) = 1%nat.
Proof.
  cbv zeta.
  assert (Hv : VStr (lit "lamp-1") <> VStr (MD5.hexdigest Samples.url_p1))
    by (vm_compute; discriminate).
  split; [ reflexivity | ]. split; [ reflexivity | ].
  split; [ reflexivity | ]. split; [ exact Hv | ].
  destruct (own_id_blocks_the_write
              Samples.env_ok Samples.url_p1 Samples.url_p1
              Cases.record_own_id [] (VStr (lit "lamp-1")) initial
              eq_refl eq_refl eq_refl Hv)
    as (line & s' & Hs & Hc & Hw & _).
  rewrite Hs. cbn [snd]. split; [ exact Hc | exact Hw ].
Defined.

End RefusalFacts.
